(** * The ntfy client engine: publish, poll, subscribe

    A shallow embedding of the Go package [client] (topic URL resolution,
    message decoding, the publish engine, the stream engine, the reconnect
    loop and the subscription registry), together with models of the parts
    of the Go standard library that the package calls ([strings], [regexp],
    [unicode/utf8], [bufio], [io], [encoding/json], [net/http]).

    Go strings are byte sequences; they are embedded as [string], whose
    characters ([ascii]) are bytes. *)

From Stdlib Require Import ZArith NArith Ascii String List Lia Bool.
From stdpp Require Import base gmap strings list.

Local Open Scope Z_scope.

(** ** Errors, outcomes and the effect monad *)

(** Go [error] values the package can produce or pass on. *)
Inductive error : Type :=
| errorString (s : string)             (* errors.New, fmt.Errorf *)
| io_EOF
| io_ErrUnexpectedEOF
| json_SyntaxError (c : ascii) (context : string)
| json_UnmarshalTypeError (value gotype : string)
| bufio_ErrTooLong
| foreign_error (descr : string).      (* raised by the network, the URL parser or an option *)

(** [err.Error()] of an error made by [errors.New] or [fmt.Errorf]; the
    texts of the library's own errors are not modelled. *)
Definition Error (e : error) : option string :=
  match e with
  | errorString s => Some s
  | _ => None
  end.

Definition errors_New (text : string) : error := errorString text.

(** What a Go call can do: return a value, return a non-nil error, or
    panic (a nil pointer dereference). *)
Inductive outcome (A : Type) : Type :=
| Ok (a : A)
| Err (e : error)
| Panic (v : string).
Arguments Ok {A} a.
Arguments Err {A} e.
Arguments Panic {A} v.

Definition nil_dereference : string :=
  "runtime error: invalid memory address or nil pointer dereference".

(** ** Bytes and strings *)

Definition byte_val (c : ascii) : N := N_of_ascii c.

Definition byte_in (lo hi : string) (c : ascii) : bool :=
  match lo, hi with
  | String l _, String h _ => (byte_val l <=? byte_val c)%N && (byte_val c <=? byte_val h)%N
  | _, _ => false
  end.

Definition byte_is (x : string) (c : ascii) : bool :=
  match x with
  | String a _ => Ascii.eqb a c
  | EmptyString => false
  end.

Definition is_digit (c : ascii) : bool := byte_in "0" "9" c.
Definition is_lower (c : ascii) : bool := byte_in "a" "z" c.
Definition is_upper (c : ascii) : bool := byte_in "A" "Z" c.

Definition LF : ascii := ascii_of_N 10.
Definition CR : ascii := ascii_of_N 13.

Definition newline : string := String LF EmptyString.

Fixpoint string_forallb (p : ascii -> bool) (s : string) : bool :=
  match s with
  | EmptyString => true
  | String c s' => p c && string_forallb p s'
  end.

Fixpoint string_rev_append (s acc : string) : string :=
  match s with
  | EmptyString => acc
  | String c s' => string_rev_append s' (String c acc)
  end.

Definition string_rev (s : string) : string := string_rev_append s EmptyString.

Fixpoint string_take (n : nat) (s : string) : string :=
  match n, s with
  | S n', String c s' => String c (string_take n' s')
  | _, _ => EmptyString
  end.

Fixpoint string_drop (n : nat) (s : string) : string :=
  match n, s with
  | S n', String _ s' => string_drop n' s'
  | _, _ => s
  end.

(** [strings.HasPrefix]. *)
Definition HasPrefix (s pre : string) : bool := String.prefix pre s.

(** [strings.Contains]: [substr] occurs somewhere in [s]. *)
Fixpoint Contains (s substr : string) : bool :=
  String.prefix substr s ||
  match s with
  | EmptyString => false
  | String _ s' => Contains s' substr
  end.

(** ** unicode/utf8 *)

Definition RuneError : N := 65533.
Definition RuneSelf : N := 128.

(** The table [first] of package utf8: for a lead byte, the length of the
    sequence and the accepted range of the second byte. *)
Definition utf8_first (p0 : N) : option (nat * N * N) :=
  (if (194 <=? p0) && (p0 <=? 223) then Some (2%nat, 128, 191)
   else if p0 =? 224 then Some (3%nat, 160, 191)
   else if (225 <=? p0) && (p0 <=? 236) then Some (3%nat, 128, 191)
   else if p0 =? 237 then Some (3%nat, 128, 159)
   else if (238 <=? p0) && (p0 <=? 239) then Some (3%nat, 128, 191)
   else if p0 =? 240 then Some (4%nat, 144, 191)
   else if (241 <=? p0) && (p0 <=? 243) then Some (4%nat, 128, 191)
   else if p0 =? 244 then Some (4%nat, 128, 143)
   else None)%N.

Definition is_cont (b : N) : bool := ((128 <=? b) && (b <=? 191))%N.

(** [utf8.DecodeRuneInString]: the first rune of [p] and its width; an
    invalid or short encoding gives [(RuneError, 1)]. *)
Definition DecodeRune (p : string) : N * nat :=
  match p with
  | EmptyString => (RuneError, 0%nat)
  | String c0 p1 =>
      let p0 := byte_val c0 in
      if (p0 <? RuneSelf)%N then (p0, 1%nat)
      else
        match utf8_first p0 with
        | None => (RuneError, 1%nat)
        | Some (sz, lo, hi) =>
            match p1 with
            | EmptyString => (RuneError, 1%nat)
            | String c1 p2 =>
                let b1 := byte_val c1 in
                if ((b1 <? lo) || (hi <? b1))%N then (RuneError, 1%nat)
                else if (sz <=? 2)%nat
                then (N.lor (N.shiftl (N.land p0 31) 6) (N.land b1 63), 2%nat)
                else
                  match p2 with
                  | EmptyString => (RuneError, 1%nat)
                  | String c2 p3 =>
                      let b2 := byte_val c2 in
                      if negb (is_cont b2) then (RuneError, 1%nat)
                      else if (sz <=? 3)%nat
                      then (N.lor (N.shiftl (N.land p0 15) 12)
                              (N.lor (N.shiftl (N.land b1 63) 6) (N.land b2 63)), 3%nat)
                      else
                        match p3 with
                        | EmptyString => (RuneError, 1%nat)
                        | String c3 _ =>
                            let b3 := byte_val c3 in
                            if negb (is_cont b3) then (RuneError, 1%nat)
                            else (N.lor (N.shiftl (N.land p0 7) 18)
                                    (N.lor (N.shiftl (N.land b1 63) 12)
                                       (N.lor (N.shiftl (N.land b2 63) 6) (N.land b3 63))),
                                  4%nat)
                        end
                  end
            end
        end
  end.

(** [utf8.RuneStart]: the byte is not a continuation byte. *)
Definition RuneStart (b : N) : bool := negb (N.land b 192 =? 128)%N.

(** The backward search of [utf8.DecodeLastRuneInString] for the start of
    the last rune: from [start] down to [lim], stopping at a rune start;
    the result is the index found, or [lim - 1] (as an integer). *)
Fixpoint last_rune_start (s : string) (lim : Z) (n : nat) (start : Z) : Z :=
  match n with
  | O => start
  | S n' =>
      if start <? lim then start
      else
        match String.get (Z.to_nat start) s with
        | Some c => if RuneStart (byte_val c) then start
                    else last_rune_start s lim n' (start - 1)
        | None => start
        end
  end.

(** [utf8.DecodeLastRuneInString]. *)
Definition DecodeLastRune (s : string) : N * nat :=
  let e := Z.of_nat (String.length s) in
  if e =? 0 then (RuneError, 0%nat)
  else
    match String.get (Z.to_nat (e - 1)) s with
    | None => (RuneError, 0%nat)
    | Some c =>
        let r := byte_val c in
        if (r <? RuneSelf)%N then (r, 1%nat)
        else
          let lim := Z.max 0 (e - 4) in
          let start := last_rune_start s lim 4 (e - 2) in
          let start := Z.max 0 start in
          let '(r, size) := DecodeRune (string_drop (Z.to_nat start) s) in
          if start + Z.of_nat size =? e then (r, size) else (RuneError, 1%nat)
    end.

(** [utf8.AppendRune]: the UTF-8 encoding of a rune; surrogates and
    values above U+10FFFF are encoded as U+FFFD. *)
Definition EncodeRune (r : N) : string :=
  let b (n : N) := ascii_of_N n in
  let three (r : N) :=
    String (b (N.lor 224 (N.shiftr r 12)))
      (String (b (N.lor 128 (N.land (N.shiftr r 6) 63)))
         (String (b (N.lor 128 (N.land r 63))) EmptyString)) in
  (if r <=? 127 then String (b r) EmptyString
   else if r <=? 2047 then
     String (b (N.lor 192 (N.shiftr r 6)))
       (String (b (N.lor 128 (N.land r 63))) EmptyString)
   else if (1114111 <? r) || ((55296 <=? r) && (r <=? 57343)) then three RuneError
   else if r <=? 65535 then three r
   else
     String (b (N.lor 240 (N.shiftr r 18)))
       (String (b (N.lor 128 (N.land (N.shiftr r 12) 63)))
          (String (b (N.lor 128 (N.land (N.shiftr r 6) 63)))
             (String (b (N.lor 128 (N.land r 63))) EmptyString))))%N.

(** [unicode.IsSpace]: the Latin-1 spaces and the code points of the
    Unicode property White_Space. *)
Definition IsSpace (r : N) : bool :=
  ((r =? 9) || (r =? 10) || (r =? 11) || (r =? 12) || (r =? 13) || (r =? 32)
   || (r =? 133) || (r =? 160) || (r =? 5760)
   || ((8192 <=? r) && (r <=? 8202))
   || (r =? 8232) || (r =? 8233) || (r =? 8239) || (r =? 8287) || (r =? 12288))%N.

(** ** strings.TrimSpace *)

(** [indexFunc s f false] of package strings, as the suffix [s[i:]] that
    starts at the first rune not satisfying [f] (the empty string when
    there is none). [skip] counts the bytes of the current rune still to
    be passed over. *)
Fixpoint TrimLeftFunc_from (f : N -> bool) (skip : nat) (s : string) : string :=
  match s with
  | EmptyString => EmptyString
  | String _ s' =>
      match skip with
      | S k => TrimLeftFunc_from f k s'
      | O =>
          let '(r, size) := DecodeRune s in
          if f r then TrimLeftFunc_from f (size - 1) s' else s
      end
  end.

Definition TrimLeftFunc (s : string) (f : N -> bool) : string :=
  TrimLeftFunc_from f 0 s.

(** [lastIndexFunc s f false]: the index of the start of the last rune
    not satisfying [f], or -1. [i] is the loop variable of the Go code,
    [skip] the width of the rune just examined still to be subtracted. *)
Fixpoint lastIndexFunc_from (s : string) (f : N -> bool) (i skip : nat) : Z :=
  match i with
  | O => -1
  | S i' =>
      match skip with
      | S k => lastIndexFunc_from s f i' k
      | O =>
          let '(r, size) := DecodeLastRune (string_take i s) in
          if f r then lastIndexFunc_from s f i' (size - 1)
          else Z.of_nat i - Z.of_nat size
      end
  end.

Definition TrimRightFunc (s : string) (f : N -> bool) : string :=
  let i := lastIndexFunc_from s f (String.length s) 0 in
  if i <? 0 then EmptyString
  else
    match String.get (Z.to_nat i) s with
    | Some c =>
        if (RuneSelf <=? byte_val c)%N
        then let '(_, wid) := DecodeRune (string_drop (Z.to_nat i) s) in
             string_take (Z.to_nat i + wid) s
        else string_take (Z.to_nat i + 1) s
    | None => EmptyString
    end.

(** [strings.TrimSpace]. The Go function first strips ASCII spaces and
    falls back to the two rune-aware functions above as soon as it meets
    a non-ASCII byte; both ways compute the same slice. *)
Definition TrimSpace (s : string) : string :=
  TrimRightFunc (TrimLeftFunc s IsSpace) IsSpace.

(** ** regexp: the topic pattern *)

Definition is_topic_char (c : ascii) : bool :=
  byte_is "-" c || byte_is "_" c || is_upper c || is_lower c || is_digit c.

(** [topicRegex.MatchString] for [topicRegex = ^[-_A-Za-z0-9]{1,64}$]: the
    whole text consists of 1 to 64 characters of the class. (Without the
    multi-line flag, [$] matches at the end of the text only.) *)
Definition topicRegex_MatchString (s : string) : bool :=
  (1 <=? String.length s)%nat && (String.length s <=? 64)%nat
  && string_forallb is_topic_char s.

(** ** encoding/json: the scanner *)

Definition quote : ascii := ascii_of_N 34.
Definition backslash : ascii := ascii_of_N 92.

(** The [step] functions of the scanner, as a state. *)
Inductive step_fn : Type :=
| stateBeginValue | stateBeginValueOrEmpty | stateBeginStringOrEmpty | stateBeginString
| stateEndValue | stateEndTop
| stateInString | stateInStringEsc
| stateInStringEscU | stateInStringEscU1 | stateInStringEscU12 | stateInStringEscU123
| stateNeg | state1 | state0 | stateDot | stateDot0 | stateE | stateESign | stateE0
| stateT | stateTr | stateTru
| stateF | stateFa | stateFal | stateFals
| stateN | stateNu | stateNul
| stateError.

Inductive parse_state : Type := parseObjectKey | parseObjectValue | parseArrayValue.

Inductive opcode : Type :=
| scanContinue | scanBeginLiteral | scanBeginObject | scanObjectKey | scanObjectValue
| scanEndObject | scanBeginArray | scanArrayValue | scanEndArray | scanSkipSpace
| scanEnd | scanError.

(** The scanner: its step function, the stack of what is being parsed
    (innermost first) and the error of the last [scanError]. *)
Record scanner : Type := mkScanner {
  step : step_fn;
  parseState : list parse_state;
  scan_err : option error
}.

Definition scanner_reset : scanner := mkScanner stateBeginValue [] None.

Definition maxNestingDepth : N := 10000.

Definition isSpace (c : ascii) : bool :=
  byte_is " " c || Ascii.eqb c (ascii_of_N 9) || Ascii.eqb c CR || Ascii.eqb c LF.

Definition is_hex (c : ascii) : bool :=
  is_digit c || byte_in "a" "f" c || byte_in "A" "F" c.

Definition with_step (s : scanner) (f : step_fn) : scanner :=
  mkScanner f (parseState s) (scan_err s).

Definition scanner_error (s : scanner) (c : ascii) (context : string) : opcode * scanner :=
  (scanError,
   mkScanner stateError (parseState s)
     (Some (json_SyntaxError c context))).

(** [pushParseState]: nesting deeper than [maxNestingDepth] is an error. *)
Definition pushParseState (s : scanner) (c : ascii) (next : step_fn)
    (newParseState : parse_state) (successState : opcode) : opcode * scanner :=
  let ps := newParseState :: parseState s in
  if (N.of_nat (length ps) <=? maxNestingDepth)%N
  then (successState, mkScanner next ps (scan_err s))
  else scanner_error (mkScanner next ps (scan_err s)) c "exceeded max depth".

(** [stateEndTop]: after the top-level value only spaces may follow; the
    complaint about another byte is kept for the next call. *)
Definition do_stateEndTop (s : scanner) (c : ascii) : opcode * scanner :=
  if isSpace c then (scanEnd, s)
  else (scanEnd, snd (scanner_error s c "after top-level value")).

Definition popParseState (s : scanner) : scanner :=
  match parseState s with
  | [] => s
  | _ :: ps =>
      match ps with
      | [] => mkScanner stateEndTop ps (scan_err s)
      | _ => mkScanner stateEndValue ps (scan_err s)
      end
  end.

Definition do_stateEndValue (s : scanner) (c : ascii) : opcode * scanner :=
  match parseState s with
  | [] => do_stateEndTop (with_step s stateEndTop) c
  | ps :: rest =>
      if isSpace c then (scanSkipSpace, with_step s stateEndValue)
      else
        match ps with
        | parseObjectKey =>
            if byte_is ":" c
            then (scanObjectKey, mkScanner stateBeginValue (parseObjectValue :: rest) (scan_err s))
            else scanner_error s c "after object key"
        | parseObjectValue =>
            if byte_is "," c
            then (scanObjectValue, mkScanner stateBeginString (parseObjectKey :: rest) (scan_err s))
            else if byte_is "}" c then (scanEndObject, popParseState s)
            else scanner_error s c "after object key:value pair"
        | parseArrayValue =>
            if byte_is "," c then (scanArrayValue, with_step s stateBeginValue)
            else if byte_is "]" c then (scanEndArray, popParseState s)
            else scanner_error s c "after array element"
        end
  end.

Definition do_stateBeginValue (s : scanner) (c : ascii) : opcode * scanner :=
  if isSpace c then (scanSkipSpace, s)
  else if byte_is "{" c then pushParseState s c stateBeginStringOrEmpty parseObjectKey scanBeginObject
  else if byte_is "[" c then pushParseState s c stateBeginValueOrEmpty parseArrayValue scanBeginArray
  else if Ascii.eqb c quote then (scanBeginLiteral, with_step s stateInString)
  else if byte_is "-" c then (scanBeginLiteral, with_step s stateNeg)
  else if byte_is "0" c then (scanBeginLiteral, with_step s state0)
  else if byte_is "t" c then (scanBeginLiteral, with_step s stateT)
  else if byte_is "f" c then (scanBeginLiteral, with_step s stateF)
  else if byte_is "n" c then (scanBeginLiteral, with_step s stateN)
  else if byte_in "1" "9" c then (scanBeginLiteral, with_step s state1)
  else scanner_error s c "looking for beginning of value".

Definition do_stateBeginString (s : scanner) (c : ascii) : opcode * scanner :=
  if isSpace c then (scanSkipSpace, s)
  else if Ascii.eqb c quote then (scanBeginLiteral, with_step s stateInString)
  else scanner_error s c "looking for beginning of object key string".

Definition do_state0 (s : scanner) (c : ascii) : opcode * scanner :=
  if byte_is "." c then (scanContinue, with_step s stateDot)
  else if byte_is "e" c || byte_is "E" c then (scanContinue, with_step s stateE)
  else do_stateEndValue s c.

Definition do_stateESign (s : scanner) (c : ascii) : opcode * scanner :=
  if is_digit c then (scanContinue, with_step s stateE0)
  else scanner_error s c "in exponent of numeric literal".

(** One letter of [true], [false] or [null]. *)
Definition expect_letter (s : scanner) (c : ascii) (l : string) (next : step_fn)
    (context : string) : opcode * scanner :=
  if byte_is l c then (scanContinue, with_step s next) else scanner_error s c context.

(** [s.step(s, c)]: the scanner reads one byte. *)
Definition scan_step (s : scanner) (c : ascii) : opcode * scanner :=
  match step s with
  | stateBeginValue => do_stateBeginValue s c
  | stateBeginValueOrEmpty =>
      if isSpace c then (scanSkipSpace, s)
      else if byte_is "]" c then do_stateEndValue s c
      else do_stateBeginValue s c
  | stateBeginStringOrEmpty =>
      if isSpace c then (scanSkipSpace, s)
      else if byte_is "}" c then
        do_stateEndValue
          (mkScanner (step s) (parseObjectValue :: tl (parseState s)) (scan_err s)) c
      else do_stateBeginString s c
  | stateBeginString => do_stateBeginString s c
  | stateEndValue => do_stateEndValue s c
  | stateEndTop => do_stateEndTop s c
  | stateInString =>
      if Ascii.eqb c quote then (scanContinue, with_step s stateEndValue)
      else if Ascii.eqb c backslash then (scanContinue, with_step s stateInStringEsc)
      else if (byte_val c <? 32)%N then scanner_error s c "in string literal"
      else (scanContinue, s)
  | stateInStringEsc =>
      if byte_is "b" c || byte_is "f" c || byte_is "n" c || byte_is "r" c || byte_is "t" c
         || Ascii.eqb c backslash || byte_is "/" c || Ascii.eqb c quote
      then (scanContinue, with_step s stateInString)
      else if byte_is "u" c then (scanContinue, with_step s stateInStringEscU)
      else scanner_error s c "in string escape code"
  | stateInStringEscU =>
      if is_hex c then (scanContinue, with_step s stateInStringEscU1)
      else scanner_error s c "in \u hexadecimal character escape"
  | stateInStringEscU1 =>
      if is_hex c then (scanContinue, with_step s stateInStringEscU12)
      else scanner_error s c "in \u hexadecimal character escape"
  | stateInStringEscU12 =>
      if is_hex c then (scanContinue, with_step s stateInStringEscU123)
      else scanner_error s c "in \u hexadecimal character escape"
  | stateInStringEscU123 =>
      if is_hex c then (scanContinue, with_step s stateInString)
      else scanner_error s c "in \u hexadecimal character escape"
  | stateNeg =>
      if byte_is "0" c then (scanContinue, with_step s state0)
      else if byte_in "1" "9" c then (scanContinue, with_step s state1)
      else scanner_error s c "in numeric literal"
  | state1 =>
      if is_digit c then (scanContinue, with_step s state1) else do_state0 s c
  | state0 => do_state0 s c
  | stateDot =>
      if is_digit c then (scanContinue, with_step s stateDot0)
      else scanner_error s c "after decimal point in numeric literal"
  | stateDot0 =>
      if is_digit c then (scanContinue, s)
      else if byte_is "e" c || byte_is "E" c then (scanContinue, with_step s stateE)
      else do_stateEndValue s c
  | stateE =>
      if byte_is "+" c || byte_is "-" c then (scanContinue, with_step s stateESign)
      else do_stateESign s c
  | stateESign => do_stateESign s c
  | stateE0 =>
      if is_digit c then (scanContinue, s) else do_stateEndValue s c
  | stateT => expect_letter s c "r" stateTr "in literal true (expecting 'r')"
  | stateTr => expect_letter s c "u" stateTru "in literal true (expecting 'u')"
  | stateTru => expect_letter s c "e" stateEndValue "in literal true (expecting 'e')"
  | stateF => expect_letter s c "a" stateFa "in literal false (expecting 'a')"
  | stateFa => expect_letter s c "l" stateFal "in literal false (expecting 'l')"
  | stateFal => expect_letter s c "s" stateFals "in literal false (expecting 's')"
  | stateFals => expect_letter s c "e" stateEndValue "in literal false (expecting 'e')"
  | stateN => expect_letter s c "u" stateNu "in literal null (expecting 'u')"
  | stateNu => expect_letter s c "l" stateNul "in literal null (expecting 'l')"
  | stateNul => expect_letter s c "l" stateEndValue "in literal null (expecting 'l')"
  | stateError => (scanError, s)
  end.

(** ** encoding/json: reading one value *)

(** A JSON value as the decoder sees it: literals keep their source
    bytes (a string its quotes and escapes, a number its digits). *)
#[local] Unset Elimination Schemes.
Inductive jvalue : Type :=
| JNull
| JTrue
| JFalse
| JNumber (lit : string)
| JString (raw : string)
| JArray (items : list jvalue)
| JObject (members : list (string * jvalue)).
#[local] Set Elimination Schemes.

(** A container being read: the items so far (latest first) and, for an
    object, the key whose value is awaited. *)
Inductive frame : Type :=
| FArray (items : list jvalue)
| FObject (members : list (string * jvalue)) (key : option string).

Record builder : Type := mkBuilder {
  lit_bytes : option string;        (* the literal being read, latest byte first *)
  frames : list frame;              (* open containers, innermost first *)
  top_value : option jvalue         (* the finished top-level value *)
}.

Definition builder_init : builder := mkBuilder None [] None.

Definition literal_value (raw : string) : jvalue :=
  match raw with
  | String c _ =>
      if Ascii.eqb c quote then JString raw
      else if byte_is "n" c then JNull
      else if byte_is "t" c then JTrue
      else if byte_is "f" c then JFalse
      else JNumber raw
  | EmptyString => JNull
  end.

Definition raw_of_key (v : jvalue) : string :=
  match v with
  | JString raw => raw
  | _ => EmptyString
  end.

(** A finished value goes to the innermost open container, or is the
    top-level value. *)
Definition deliver (b : builder) (v : jvalue) : builder :=
  match frames b with
  | [] => mkBuilder (lit_bytes b) [] (Some v)
  | FArray items :: rest => mkBuilder (lit_bytes b) (FArray (v :: items) :: rest) (top_value b)
  | FObject ms None :: rest =>
      mkBuilder (lit_bytes b) (FObject ms (Some (raw_of_key v)) :: rest) (top_value b)
  | FObject ms (Some k) :: rest =>
      mkBuilder (lit_bytes b) (FObject ((k, v) :: ms) None :: rest) (top_value b)
  end.

(** A literal ends at the first byte whose opcode is not [scanContinue]. *)
Definition close_literal (b : builder) : builder :=
  match lit_bytes b with
  | None => b
  | Some l => deliver (mkBuilder None (frames b) (top_value b)) (literal_value (string_rev l))
  end.

Definition close_container (b : builder) : builder :=
  match frames b with
  | [] => b
  | FArray items :: rest => deliver (mkBuilder (lit_bytes b) rest (top_value b)) (JArray (rev items))
  | FObject ms _ :: rest => deliver (mkBuilder (lit_bytes b) rest (top_value b)) (JObject (rev ms))
  end.

(** The decoder's reaction to the opcode of byte [c]. *)
Definition build (b : builder) (op : opcode) (c : ascii) : builder :=
  match op with
  | scanContinue =>
      match lit_bytes b with
      | Some l => mkBuilder (Some (String c l)) (frames b) (top_value b)
      | None => b
      end
  | _ =>
      let b := close_literal b in
      match op with
      | scanBeginLiteral => mkBuilder (Some (String c EmptyString)) (frames b) (top_value b)
      | scanBeginObject => mkBuilder None (FObject [] None :: frames b) (top_value b)
      | scanBeginArray => mkBuilder None (FArray [] :: frames b) (top_value b)
      | scanEndObject | scanEndArray => close_container b
      | _ => b
      end
  end.

Definition is_scanEnd (op : opcode) : bool :=
  match op with scanEnd => true | _ => false end.

Definition finished (b : builder) : error + jvalue :=
  match top_value (close_literal b) with
  | Some v => inr v
  | None => inl io_ErrUnexpectedEOF
  end.

(** [Decoder.readValue] on the bytes of a [strings.Reader], together with
    the construction of the value read: the bytes are fed to the scanner
    until it reports the end of the first value ([scanEnd], or the closing
    bracket of a top-level container), a syntax error, or the end of the
    input. What follows the first value is not looked at. *)
Fixpoint readValue (sc : scanner) (b : builder) (nonSpace : bool) (buf : string)
    : error + jvalue :=
  match buf with
  | EmptyString =>
      if is_scanEnd (fst (scan_step sc " "%char)) then finished b
      else if nonSpace then inl io_ErrUnexpectedEOF
      else inl io_EOF
  | String c rest =>
      let '(op, sc') := scan_step sc c in
      match op with
      | scanEnd => finished b
      | scanError =>
          match scan_err sc' with
          | Some e => inl e
          | None => inl (json_SyntaxError c EmptyString)
          end
      | scanEndObject | scanEndArray =>
          let b' := build b op c in
          if is_scanEnd (fst (do_stateEndValue sc' " "%char)) then finished b'
          else readValue sc' b' nonSpace rest
      | _ => readValue sc' (build b op c) nonSpace rest
      end
  end.

Definition json_readValue (s : string) : error + jvalue :=
  readValue scanner_reset builder_init (negb (string_forallb isSpace s)) s.

(** ** encoding/json: string literals, numbers, field names *)

Definition hex_val (c : ascii) : N :=
  (if is_digit c then byte_val c - 48
   else if byte_in "a" "f" c then byte_val c - 97 + 10
   else byte_val c - 65 + 10)%N.

Definition getu4 (h1 h2 h3 h4 : ascii) : N :=
  (hex_val h1 * 4096 + hex_val h2 * 256 + hex_val h3 * 16 + hex_val h4)%N.

(** [utf16.IsSurrogate] and [utf16.DecodeRune]. *)
Definition utf16_IsSurrogate (r : N) : bool := ((55296 <=? r) && (r <? 57344))%N.

Definition utf16_DecodeRune (r1 r2 : N) : N :=
  (if (55296 <=? r1) && (r1 <? 56320) && (56320 <=? r2) && (r2 <? 57344)
   then N.lor (N.shiftl (r1 - 55296) 10) (r2 - 56320) + 65536
   else RuneError)%N.

Definition simple_escape (e : ascii) : ascii :=
  if byte_is "b" e then ascii_of_N 8
  else if byte_is "f" e then ascii_of_N 12
  else if byte_is "n" e then LF
  else if byte_is "r" e then CR
  else if byte_is "t" e then ascii_of_N 9
  else e.

(** The loop of [unquoteBytes] over the text between the quotes: escapes
    are resolved, a surrogate pair is combined, an unpaired surrogate and
    every byte that is not part of well-formed UTF-8 become U+FFFD.
    [skip] counts the continuation bytes of the rune being copied. *)
Fixpoint unquote_from (skip : nat) (s : string) : string :=
  match s with
  | EmptyString => EmptyString
  | String c s1 =>
      match skip with
      | S k => String c (unquote_from k s1)
      | O =>
          if Ascii.eqb c backslash then
            match s1 with
            | EmptyString => EmptyString
            | String e s2 =>
                if byte_is "u" e then
                  match s2 with
                  | String h1 (String h2 (String h3 (String h4 s3))) =>
                      let rr := getu4 h1 h2 h3 h4 in
                      if utf16_IsSurrogate rr then
                        match s3 with
                        | String b0 (String u0 (String k1 (String k2 (String k3 (String k4 s4))))) =>
                            let dec := utf16_DecodeRune rr (getu4 k1 k2 k3 k4) in
                            if Ascii.eqb b0 backslash && byte_is "u" u0
                               && is_hex k1 && is_hex k2 && is_hex k3 && is_hex k4
                               && negb (dec =? RuneError)%N
                            then EncodeRune dec +:+ unquote_from 0 s4
                            else EncodeRune RuneError +:+ unquote_from 0 s3
                        | _ => EncodeRune RuneError +:+ unquote_from 0 s3
                        end
                      else EncodeRune rr +:+ unquote_from 0 s3
                  | _ => EmptyString
                  end
                else String (simple_escape e) (unquote_from 0 s2)
            end
          else if (byte_val c <? RuneSelf)%N then String c (unquote_from 0 s1)
          else
            let '(rr, size) := DecodeRune s in
            if (rr =? RuneError)%N && (size =? 1)%nat
            then EncodeRune RuneError +:+ unquote_from 0 s1
            else String c (unquote_from (size - 1) s1)
      end
  end.

(** [unquote]: the value of a string literal, quotes included in [raw]. *)
Definition unquote (raw : string) : string :=
  match raw with
  | String _ body => unquote_from 0 (string_take (String.length body - 1) body)
  | EmptyString => EmptyString
  end.

Fixpoint digits_value (s : string) (acc : Z) : option Z :=
  match s with
  | EmptyString => Some acc
  | String c s' =>
      if is_digit c then digits_value s' (10 * acc + Z.of_N (byte_val c - 48)) else None
  end.

(** [strconv.ParseInt(lit, 10, 64)]: an optional sign and decimal digits,
    within the range of int64. *)
Definition ParseInt64 (lit : string) : option Z :=
  let '(neg, ds) :=
    match lit with
    | String c r => if byte_is "-" c then (true, r)
                    else if byte_is "+" c then (false, r) else (false, lit)
    | EmptyString => (false, lit)
    end in
  match ds with
  | EmptyString => None
  | _ =>
      match digits_value ds 0 with
      | Some n =>
          let v := if neg then - n else n in
          if (- 2 ^ 63 <=? v) && (v <=? 2 ^ 63 - 1) then Some v else None
      | None => None
      end
  end.

(** [foldName]: ASCII letters in upper case; the two non-ASCII runes that
    fold to an ASCII letter, U+017F and U+212A, become S and K. Other
    non-ASCII runes fold to non-ASCII runes, which no field name contains,
    and are left as they are. *)
Fixpoint foldName (s : string) : string :=
  match s with
  | EmptyString => EmptyString
  | String c s1 =>
      if is_lower c then String (ascii_of_N (byte_val c - 32)) (foldName s1)
      else
        match s1 with
        | String c1 s2 =>
            if (byte_val c =? 197)%N && (byte_val c1 =? 191)%N then String "S"%char (foldName s2)
            else
              match s2 with
              | String c2 s3 =>
                  if (byte_val c =? 226)%N && (byte_val c1 =? 132)%N && (byte_val c2 =? 170)%N
                  then String "K"%char (foldName s3)
                  else String c (foldName s1)
              | EmptyString => String c (foldName s1)
              end
        | EmptyString => String c EmptyString
        end
  end.

(** The field for a key: the field of that exact name, else the first
    one equal to it under folding. *)
Definition find_field {F : Type} (fields : list (string * F)) (key : string) : option F :=
  match List.find (fun nf => String.eqb (fst nf) key) fields with
  | Some nf => Some (snd nf)
  | None =>
      match List.find (fun nf => String.eqb (foldName (fst nf)) (foldName key)) fields with
      | Some nf => Some (snd nf)
      | None => None
      end
  end.

(** [d.saveError]: only the first error is kept. *)
Definition saveError (saved : option error) (e : error) : option error :=
  match saved with
  | Some _ => saved
  | None => Some e
  end.

(** The [Value] of an [UnmarshalTypeError] for a JSON value that does not
    fit the Go type. *)
Definition value_kind (v : jvalue) : string :=
  match v with
  | JNull => "null"
  | JTrue | JFalse => "bool"
  | JNumber _ => "number"
  | JString _ => "string"
  | JArray _ => "array"
  | JObject _ => "object"
  end.

(** Decoding into a Go [string]: null leaves it as it is. *)
Definition decode_string (old : string) (v : jvalue) (saved : option error)
    : string * option error :=
  match v with
  | JNull => (old, saved)
  | JString raw => (unquote raw, saved)
  | _ => (old, saveError saved (json_UnmarshalTypeError (value_kind v) "string"))
  end.

(** Decoding into a Go [int64] or (64-bit) [int]. *)
Definition decode_int (gotype : string) (old : Z) (v : jvalue) (saved : option error)
    : Z * option error :=
  match v with
  | JNull => (old, saved)
  | JNumber lit =>
      match ParseInt64 lit with
      | Some n => (n, saved)
      | None => (old, saveError saved (json_UnmarshalTypeError ("number " +:+ lit) gotype))
      end
  | _ => (old, saveError saved (json_UnmarshalTypeError (value_kind v) gotype))
  end.

(** The elements of a JSON array decoded into a [[]string]: element [i]
    is decoded into what the backing array [mem] holds at [i] (the empty
    string beyond it), so a null element keeps an earlier value. *)
Fixpoint decode_string_items (items : list jvalue) (mem : list string)
    (saved : option error) : list string * option error :=
  match items with
  | [] => ([], saved)
  | v :: vs =>
      let '(x, saved) := decode_string (hd EmptyString mem) v saved in
      let '(xs, saved) := decode_string_items vs (tl mem) saved in
      (x :: xs, saved)
  end.

(** Decoding into a [[]string] with backing array [mem]: the new slice,
    the new backing array and the saved error. *)
Definition decode_string_slice (old mem : list string) (v : jvalue) (saved : option error)
    : list string * list string * option error :=
  match v with
  | JNull => ([], [], saved)
  | JArray [] => ([], [], saved)
  | JArray items =>
      let '(xs, saved) := decode_string_items items mem saved in
      (xs, xs ++ drop (length xs) mem, saved)
  | _ => (old, mem, saveError saved (json_UnmarshalTypeError (value_kind v) "[]string"))
  end.

(** ** The data model of the client *)

(** [Attachment]: a message attachment. [Owner] has the tag [json:"-"]
    and is never decoded. *)
Record Attachment : Type := mkAttachment {
  Name : string;
  Type_ : string;
  Size : Z;
  Expires : Z;
  URL : string;
  Owner : string
}.

(** [Message]: a ntfy message, with the three fields the client adds. *)
Record Message : Type := mkMessage {
  ID : string;
  Event : string;
  Time : Z;
  Topic : string;
  Message_ : string;
  Title : string;
  Priority : Z;
  Tags : list string;
  Click : string;
  Icon : string;
  Attachment_ : option Attachment;
  TopicURL : string;
  SubscriptionID : string;
  Raw : string
}.

Definition zero_Attachment : Attachment :=
  mkAttachment EmptyString EmptyString 0 0 EmptyString EmptyString.

Definition zero_Message : Message :=
  mkMessage EmptyString EmptyString 0 EmptyString EmptyString EmptyString 0 []
    EmptyString EmptyString None EmptyString EmptyString EmptyString.

(** [MessageEvent] identifies a message event in the JSON stream. *)
Definition MessageEvent : string := "message".

Definition maxResponseBytes : nat := 4096.

Inductive attachment_field : Type := aName | aType | aSize | aExpires | aURL.

Inductive message_field : Type :=
| fID | fEvent | fTime | fTopic | fMessage | fTitle | fPriority | fTags | fClick | fIcon
| fAttachment | fTopicURL | fSubscriptionID | fRaw.

(** The JSON names of the fields: the [json] tags of [Attachment], the Go
    names of the untagged fields of [Message]. *)
Definition attachment_fields : list (string * attachment_field) :=
  [("name", aName); ("type", aType); ("size", aSize); ("expires", aExpires); ("url", aURL)].

Definition message_fields : list (string * message_field) :=
  [("ID", fID); ("Event", fEvent); ("Time", fTime); ("Topic", fTopic);
   ("Message", fMessage); ("Title", fTitle); ("Priority", fPriority); ("Tags", fTags);
   ("Click", fClick); ("Icon", fIcon); ("Attachment", fAttachment);
   ("TopicURL", fTopicURL); ("SubscriptionID", fSubscriptionID); ("Raw", fRaw)].

Definition set_attachment_string (f : attachment_field) (a : Attachment) (x : string)
    : Attachment :=
  match f with
  | aName => mkAttachment x (Type_ a) (Size a) (Expires a) (URL a) (Owner a)
  | aType => mkAttachment (Name a) x (Size a) (Expires a) (URL a) (Owner a)
  | aURL => mkAttachment (Name a) (Type_ a) (Size a) (Expires a) x (Owner a)
  | _ => a
  end.

Definition set_attachment_int (f : attachment_field) (a : Attachment) (x : Z) : Attachment :=
  match f with
  | aSize => mkAttachment (Name a) (Type_ a) x (Expires a) (URL a) (Owner a)
  | aExpires => mkAttachment (Name a) (Type_ a) (Size a) x (URL a) (Owner a)
  | _ => a
  end.

Definition decode_attachment_field (f : attachment_field) (a : Attachment) (v : jvalue)
    (saved : option error) : Attachment * option error :=
  match f with
  | aName => let '(x, e) := decode_string (Name a) v saved in (set_attachment_string f a x, e)
  | aType => let '(x, e) := decode_string (Type_ a) v saved in (set_attachment_string f a x, e)
  | aURL => let '(x, e) := decode_string (URL a) v saved in (set_attachment_string f a x, e)
  | aSize => let '(x, e) := decode_int "int64" (Size a) v saved in (set_attachment_int f a x, e)
  | aExpires =>
      let '(x, e) := decode_int "int64" (Expires a) v saved in (set_attachment_int f a x, e)
  end.

(** The members of a JSON object decoded into an [Attachment], in their
    order; a key that names no field is skipped with its value. *)
Fixpoint decode_attachment_members (ms : list (string * jvalue)) (a : Attachment)
    (saved : option error) : Attachment * option error :=
  match ms with
  | [] => (a, saved)
  | (k, v) :: ms' =>
      match find_field attachment_fields (unquote k) with
      | Some f =>
          let '(a, saved) := decode_attachment_field f a v saved in
          decode_attachment_members ms' a saved
      | None => decode_attachment_members ms' a saved
      end
  end.

(** Decoding into the pointer field [*Attachment]: null sets it to nil;
    any other value first allocates a zero [Attachment] if it is nil. *)
Definition decode_attachment (old : option Attachment) (v : jvalue) (saved : option error)
    : option Attachment * option error :=
  match v with
  | JNull => (None, saved)
  | JObject ms =>
      let '(a, saved) := decode_attachment_members ms (default zero_Attachment old) saved in
      (Some a, saved)
  | _ => (Some (default zero_Attachment old),
          saveError saved (json_UnmarshalTypeError (value_kind v) "client.Attachment"))
  end.

Definition set_ID (m : Message) (x : string) : Message :=
  mkMessage x (Event m) (Time m) (Topic m) (Message_ m) (Title m) (Priority m) (Tags m)
    (Click m) (Icon m) (Attachment_ m) (TopicURL m) (SubscriptionID m) (Raw m).
Definition set_Event (m : Message) (x : string) : Message :=
  mkMessage (ID m) x (Time m) (Topic m) (Message_ m) (Title m) (Priority m) (Tags m)
    (Click m) (Icon m) (Attachment_ m) (TopicURL m) (SubscriptionID m) (Raw m).
Definition set_Time (m : Message) (x : Z) : Message :=
  mkMessage (ID m) (Event m) x (Topic m) (Message_ m) (Title m) (Priority m) (Tags m)
    (Click m) (Icon m) (Attachment_ m) (TopicURL m) (SubscriptionID m) (Raw m).
Definition set_Topic (m : Message) (x : string) : Message :=
  mkMessage (ID m) (Event m) (Time m) x (Message_ m) (Title m) (Priority m) (Tags m)
    (Click m) (Icon m) (Attachment_ m) (TopicURL m) (SubscriptionID m) (Raw m).
Definition set_Message (m : Message) (x : string) : Message :=
  mkMessage (ID m) (Event m) (Time m) (Topic m) x (Title m) (Priority m) (Tags m)
    (Click m) (Icon m) (Attachment_ m) (TopicURL m) (SubscriptionID m) (Raw m).
Definition set_Title (m : Message) (x : string) : Message :=
  mkMessage (ID m) (Event m) (Time m) (Topic m) (Message_ m) x (Priority m) (Tags m)
    (Click m) (Icon m) (Attachment_ m) (TopicURL m) (SubscriptionID m) (Raw m).
Definition set_Priority (m : Message) (x : Z) : Message :=
  mkMessage (ID m) (Event m) (Time m) (Topic m) (Message_ m) (Title m) x (Tags m)
    (Click m) (Icon m) (Attachment_ m) (TopicURL m) (SubscriptionID m) (Raw m).
Definition set_Tags (m : Message) (x : list string) : Message :=
  mkMessage (ID m) (Event m) (Time m) (Topic m) (Message_ m) (Title m) (Priority m) x
    (Click m) (Icon m) (Attachment_ m) (TopicURL m) (SubscriptionID m) (Raw m).
Definition set_Click (m : Message) (x : string) : Message :=
  mkMessage (ID m) (Event m) (Time m) (Topic m) (Message_ m) (Title m) (Priority m) (Tags m)
    x (Icon m) (Attachment_ m) (TopicURL m) (SubscriptionID m) (Raw m).
Definition set_Icon (m : Message) (x : string) : Message :=
  mkMessage (ID m) (Event m) (Time m) (Topic m) (Message_ m) (Title m) (Priority m) (Tags m)
    (Click m) x (Attachment_ m) (TopicURL m) (SubscriptionID m) (Raw m).
Definition set_Attachment (m : Message) (x : option Attachment) : Message :=
  mkMessage (ID m) (Event m) (Time m) (Topic m) (Message_ m) (Title m) (Priority m) (Tags m)
    (Click m) (Icon m) x (TopicURL m) (SubscriptionID m) (Raw m).
Definition set_TopicURL (m : Message) (x : string) : Message :=
  mkMessage (ID m) (Event m) (Time m) (Topic m) (Message_ m) (Title m) (Priority m) (Tags m)
    (Click m) (Icon m) (Attachment_ m) x (SubscriptionID m) (Raw m).
Definition set_SubscriptionID (m : Message) (x : string) : Message :=
  mkMessage (ID m) (Event m) (Time m) (Topic m) (Message_ m) (Title m) (Priority m) (Tags m)
    (Click m) (Icon m) (Attachment_ m) (TopicURL m) x (Raw m).
Definition set_Raw (m : Message) (x : string) : Message :=
  mkMessage (ID m) (Event m) (Time m) (Topic m) (Message_ m) (Title m) (Priority m) (Tags m)
    (Click m) (Icon m) (Attachment_ m) (TopicURL m) (SubscriptionID m) x.

(** One member of the object decoded into a [Message]; [mem] is the
    backing array of [Tags]. *)
Definition decode_message_field (f : message_field) (m : Message) (mem : list string)
    (v : jvalue) (saved : option error) : Message * list string * option error :=
  let str (get : Message -> string) (set : Message -> string -> Message) :=
    let '(x, e) := decode_string (get m) v saved in (set m x, mem, e) in
  match f with
  | fID => str ID set_ID
  | fEvent => str Event set_Event
  | fTime => let '(x, e) := decode_int "int64" (Time m) v saved in (set_Time m x, mem, e)
  | fTopic => str Topic set_Topic
  | fMessage => str Message_ set_Message
  | fTitle => str Title set_Title
  | fPriority =>
      let '(x, e) := decode_int "int" (Priority m) v saved in (set_Priority m x, mem, e)
  | fTags =>
      let '(x, mem', e) := decode_string_slice (Tags m) mem v saved in (set_Tags m x, mem', e)
  | fClick => str Click set_Click
  | fIcon => str Icon set_Icon
  | fAttachment =>
      let '(x, e) := decode_attachment (Attachment_ m) v saved in (set_Attachment m x, mem, e)
  | fTopicURL => str TopicURL set_TopicURL
  | fSubscriptionID => str SubscriptionID set_SubscriptionID
  | fRaw => str Raw set_Raw
  end.

Fixpoint decode_message_members (ms : list (string * jvalue)) (m : Message)
    (mem : list string) (saved : option error) : Message * option error :=
  match ms with
  | [] => (m, saved)
  | (k, v) :: ms' =>
      match find_field message_fields (unquote k) with
      | Some f =>
          let '(m, mem, saved) := decode_message_field f m mem v saved in
          decode_message_members ms' m mem saved
      | None => decode_message_members ms' m mem saved
      end
  end.

(** [d.unmarshal(&m)] for [m] of type [*Message]: null sets the pointer
    to nil; an object is decoded into the struct pointed to, allocated if
    the pointer is nil; any other value is a type error. The result is the
    pointer and [d.savedError]. *)
Definition unmarshal (v : jvalue) (m : option Message) : option Message * option error :=
  match v with
  | JNull => (None, None)
  | JObject ms =>
      let '(m', saved) := decode_message_members ms (default zero_Message m) (default [] (Tags <$> m)) None in
      (Some m', saved)
  | _ => (Some (default zero_Message m),
          Some (json_UnmarshalTypeError (value_kind v) "client.Message"))
  end.

(** [json.NewDecoder(strings.NewReader(s)).Decode(&m)]. *)
Definition json_Decode (s : string) (m : option Message) : option Message * option error :=
  match json_readValue s with
  | inl e => (m, Some e)
  | inr v => unmarshal v m
  end.

(** ** The message decoder *)

(** [toMessage]: [m] starts as a nil pointer; after a successful [Decode]
    the three context fields are stored through it. *)
Definition toMessage (s topicURL subscriptionID : string) : outcome Message :=
  let m : option Message := None in
  let '(m, err) := json_Decode s m in
  match err with
  | Some e => Err e
  | None =>
      match m with
      | None => Panic nil_dereference
      | Some m =>
          let m := set_TopicURL m topicURL in
          let m := set_SubscriptionID m subscriptionID in
          let m := set_Raw m s in
          Ok m
      end
  end.

(** ** io and bufio *)

(** An [io.Reader] as what can be read from it: the bytes it delivers and
    how it ends, with [io.EOF] ([None]) or a read error, reported by a
    [Read] call of its own after the last byte. *)
Record reader : Type := mkReader {
  data : string;
  read_err : option error
}.

Definition strings_NewReader (s : string) : reader := mkReader s None.

(** [io.LimitReader r n]: after [n] bytes it reports [io.EOF] and no
    longer reads from [r]. *)
Definition io_LimitReader (r : reader) (n : nat) : reader :=
  if (n <=? String.length (data r))%nat then mkReader (string_take n (data r)) None else r.

(** [io.ReadAll]: [io.EOF] is not an error. *)
Definition io_ReadAll (r : reader) : outcome string :=
  match read_err r with
  | None => Ok (data r)
  | Some e => Err e
  end.

(** [bufio.MaxScanTokenSize]: the size of the largest buffer a [Scanner]
    allocates; a line that fills it without its newline is too long. *)
Definition MaxScanTokenSize : N := 65536.

(** [dropCR]: a line loses one trailing carriage return. *)
Definition dropCR (line_rev : string) : string :=
  match line_rev with
  | String c rest => if Ascii.eqb c CR then string_rev rest else string_rev line_rev
  | EmptyString => EmptyString
  end.

(** The tokens a [bufio.Scanner] with the split function [ScanLines]
    returns, one for each [Scan] that returns true, and [scanner.Err()]
    once [Scan] has returned false. [cur] is the line being collected
    (latest byte first) and [n] its length. The last line need not end in
    a newline, also when the reader ends with an error; that error is the
    scanner's. *)
Fixpoint ScanLines (cur : string) (n : N) (bytes : string) (e : option error)
    : list string * option error :=
  match bytes with
  | EmptyString => if (n =? 0)%N then ([], e) else ([dropCR cur], e)
  | String c rest =>
      if Ascii.eqb c LF then
        let '(tokens, e') := ScanLines EmptyString 0 rest e in
        (dropCR cur :: tokens, e')
      else if (MaxScanTokenSize <=? n + 1)%N then ([], Some bufio_ErrTooLong)
      else ScanLines (String c cur) (n + 1) rest e
  end.

Definition bufio_Scan (r : reader) : list string * option error :=
  ScanLines EmptyString 0 (data r) (read_err r).

(** ** net/http *)

Inductive Context : Type :=
| context_Background
| context_WithCancel (id : nat).

(** A request description: what the options modify before it is sent. *)
Record Request : Type := mkRequest {
  Method : string;
  RequestURL : string;
  Header : gmap string (list string);
  RequestBody : option reader;
  RequestContext : Context
}.

Record Response : Type := mkResponse {
  StatusCode : Z;
  Body : reader
}.

Definition StatusOK : Z := 200.

(** The network as seen by one call: what [http.DefaultClient.Do]
    returns for a request. *)
Definition Network : Type := Request -> outcome Response.

(** Modelled from the spec: the option types [PublishOption] and
    [SubscribeOption] are declared in a file that is not part of the
    sources; the spec describes an option as a fallible mutation applied
    to the outgoing request description. *)
Definition RequestOption : Type := Request -> outcome Request.
Definition PublishOption : Type := RequestOption.
Definition SubscribeOption : Type := RequestOption.

(** ** Effects *)

Inductive log_level : Type := TraceLevel | DebugLevel | InfoLevel | WarnLevel.

(** The arguments of a log call; [util.ShortTopicURL] is kept as a
    constructor. *)
Inductive log_arg : Type :=
| ShortTopicURL (topicURL : string)
| arg_string (s : string)
| arg_header (h : gmap string (list string))
| arg_error (e : error).

(** What a call does to the world, in order: log calls, requests handed
    to the network, messages sent on the message channel. *)
Inductive event : Type :=
| EvLog (level : log_level) (format : string) (args : list log_arg)
| EvDo (req : Request)
| EvSend (m : Message).

(** A computation: the events it performs and how it ends. *)
Definition M (A : Type) : Type := list event * outcome A.

Definition ret {A : Type} (a : A) : M A := ([], Ok a).

Definition bind {A B : Type} (c : M A) (k : A -> M B) : M B :=
  match c with
  | (evs, Ok a) => let '(evs', r) := k a in (evs ++ evs', r)
  | (evs, Err e) => (evs, Err e)
  | (evs, Panic v) => (evs, Panic v)
  end.

Definition lift {A : Type} (o : outcome A) : M A := ([], o).
Definition fail {A : Type} (e : error) : M A := ([], Err e).
Definition emit (ev : event) : M unit := ([ev], Ok tt).

Notation "'let*' x ':=' c 'in' k" := (bind c (fun x => k))
  (at level 10, x name, c at level 200, k at level 200).

Definition log_Trace (format : string) (args : list log_arg) : M unit :=
  emit (EvLog TraceLevel format args).
Definition log_Debug (format : string) (args : list log_arg) : M unit :=
  emit (EvLog DebugLevel format args).
Definition log_Info (format : string) (args : list log_arg) : M unit :=
  emit (EvLog InfoLevel format args).
Definition log_Warn (format : string) (args : list log_arg) : M unit :=
  emit (EvLog WarnLevel format args).

(** The messages sent on the channel, in the order of the sends. *)
Definition sent_messages (evs : list event) : list Message :=
  omap (fun ev => match ev with EvSend m => Some m | _ => None end) evs.

(** The requests handed to the network. *)
Definition requests_sent (evs : list event) : list Request :=
  omap (fun ev => match ev with EvDo r => Some r | _ => None end) evs.

Definition http_Do (net : Network) (req : Request) : M Response :=
  let* _ := emit (EvDo req) in lift (net req).

(** ** Configuration *)

Record SubscribeConfig : Type := mkSubscribeConfig {
  cfg_Topic : string;
  cfg_User : option string;
  cfg_Password : option string;
  cfg_Token : option string;
  cfg_Command : string;
  cfg_If : gmap string string
}.

Record Config : Type := mkConfig {
  DefaultHost : string;
  DefaultUser : string;
  DefaultPassword : option string;
  DefaultToken : string;
  DefaultCommand : string;
  Subscribe_ : list SubscribeConfig
}.

(** [DefaultBaseURL] is the base URL used to expand short topic names. *)
Definition DefaultBaseURL : string := "https://ntfy.sh".

Definition NewConfig : Config :=
  mkConfig DefaultBaseURL EmptyString None EmptyString EmptyString [].

(** ** The client and its registry *)

(** A subscription; [cancel] is the context that its [context.CancelFunc]
    cancels. *)
Record subscription : Type := mkSubscription {
  sub_ID : string;
  sub_topicURL : string;
  cancel : nat
}.

(** [Client]: [Messages] is the buffered channel (its capacity), [config]
    a pointer that may be nil, [subscriptions] the registry. The mutex
    [mu] is held for the whole of [Subscribe] and of [Unsubscribe]; here
    each of them is one step. *)
Record Client : Type := mkClient {
  Messages : nat;
  config : option Config;
  subscriptions : gmap string subscription
}.

Definition New (config : option Config) : Client := mkClient 50 config ∅.

(** [expandTopicURL]. *)
Definition expandTopicURL (c : Client) (topic : string) : outcome string :=
  if HasPrefix topic "http://" || HasPrefix topic "https://" then Ok topic
  else if Contains topic "/" then Ok ("https://" +:+ topic)
  else if negb (topicRegex_MatchString topic)
  then Err (errorString ("invalid topic name: " +:+ topic))
  else
    match config c with
    | None => Panic nil_dereference
    | Some cfg => Ok (DefaultHost cfg +:+ "/" +:+ topic)
    end.

(** The loop [for _, option := range options] of both engines: each
    option is applied to the request left by the one before; the first
    error ends the loop. *)
Fixpoint apply_options (options : list RequestOption) (req : Request) : outcome Request :=
  match options with
  | [] => Ok req
  | option :: rest =>
      match option req with
      | Ok req' => apply_options rest req'
      | Err e => Err e
      | Panic v => Panic v
      end
  end.

(** The loop [for scanner.Scan()] of the stream engine over the tokens
    the scanner returns. *)
Fixpoint read_stream (topicURL subscriptionID : string) (tokens : list string) : M unit :=
  match tokens with
  | [] => ret tt
  | messageJSON :: rest =>
      let* m := lift (toMessage messageJSON topicURL subscriptionID) in
      let* _ := log_Trace "%s Message received: %s"
                  [ShortTopicURL topicURL; arg_string messageJSON] in
      let* _ := (if String.eqb (Event m) MessageEvent then emit (EvSend m) else ret tt) in
      read_stream topicURL subscriptionID rest
  end.

(** [time.Duration] counts nanoseconds. *)
Definition Second : Z := 1000000000.

(** The delay of [time.After] in the reconnect loop. *)
Definition retryDelay : Z := 10 * Second.

(** What the [select] of the reconnect loop receives: the cancellation of
    the context, [waited] nanoseconds after the select began, or the
    timer, which fires [late] nanoseconds after its delay at the
    earliest. *)
Inductive select_case : Type :=
| ctx_Done (waited : N)
| time_After (late : N).

(** The surroundings of one turn of the reconnect loop: the network
    during the attempt, how long the attempt takes, and what the select
    receives. *)
Record turn : Type := mkTurn {
  turn_net : Network;
  turn_duration : N;
  turn_select : select_case
}.

(** One turn as it happened: when the attempt began and ended, what it
    did and returned, what was logged after it, and when the select
    returned. *)
Record attempt : Type := mkAttempt {
  began : Z;
  performed : list event;
  returned : outcome unit;
  ended : Z;
  logged : list event;
  selected : select_case;
  left : Z
}.

Inductive loop_state : Type :=
| Connecting (now : Z)        (* about to start the next attempt *)
| Canceled (now : Z)          (* the loop has returned *)
| Crashed (v : string).       (* an attempt panicked *)

(** The goroutine started by [Subscribe]. *)
Record goroutine : Type := mkGoroutine {
  go_ctx : Context;
  go_topicURL : string;
  go_subscriptionID : string;
  go_options : list SubscribeOption
}.

(** What exists beside the client: the contexts created so far (their
    number), the calls of cancel functions made so far (each with the
    context it cancels), and the goroutines started. *)
Record runtime : Type := mkRuntime {
  contexts : nat;
  cancel_calls : list nat;
  goroutines : list goroutine
}.

(** A context is canceled once its cancel function has been called;
    further calls change nothing. *)
Definition canceled (rt : runtime) : gset nat := list_to_set (cancel_calls rt).

Section ClientEngine.

(** [url.Parse], as the error it reports for a raw URL, if any. *)
Variable url_Parse : string -> option error.

(** [WithPoll ()], the poll-mode option; it is declared with the
    option types, in a file that is not part of the sources. *)
Variable WithPoll : SubscribeOption.

(** [http.NewRequestWithContext]: fails if the URL does not parse. *)
Definition http_NewRequestWithContext (ctx : Context) (method url : string)
    (body : option reader) : outcome Request :=
  match url_Parse url with
  | Some e => Err e
  | None => Ok (mkRequest method url ∅ body ctx)
  end.

Definition http_NewRequest (method url : string) (body : option reader) : outcome Request :=
  http_NewRequestWithContext context_Background method url body.

(** [PublishReader]. *)
Definition PublishReader (c : Client) (net : Network) (topic : string) (body : reader)
    (options : list PublishOption) : M Message :=
  let* topicURL := lift (expandTopicURL c topic) in
  let* req := lift (http_NewRequest "POST" topicURL (Some body)) in
  let* req := lift (apply_options options req) in
  let* _ := log_Debug "%s Publishing message with headers %s"
              [ShortTopicURL topicURL; arg_header (Header req)] in
  let* resp := http_Do net req in
  let* b := lift (io_ReadAll (io_LimitReader (Body resp) maxResponseBytes)) in
  if negb (StatusCode resp =? StatusOK) then fail (errors_New (TrimSpace b))
  else
    let* m := lift (toMessage b topicURL EmptyString) in
    ret m.

(** [Publish]. *)
Definition Publish (c : Client) (net : Network) (topic message : string)
    (options : list PublishOption) : M Message :=
  PublishReader c net topic (strings_NewReader message) options.

(** [performSubscribeRequest]; the result [Ok tt] is the nil error. *)
Definition performSubscribeRequest (net : Network) (ctx : Context)
    (topicURL subscriptionID : string) (options : list SubscribeOption) : M unit :=
  let streamURL := topicURL +:+ "/json" in
  let* _ := log_Debug "%s Listening to %s" [ShortTopicURL topicURL; arg_string streamURL] in
  let* req := lift (http_NewRequestWithContext ctx "GET" streamURL None) in
  let* req := lift (apply_options options req) in
  let* resp := http_Do net req in
  if negb (StatusCode resp =? StatusOK) then
    let* b := lift (io_ReadAll (io_LimitReader (Body resp) maxResponseBytes)) in
    fail (errors_New (TrimSpace b))
  else
    let scanner := bufio_Scan (Body resp) in
    read_stream topicURL subscriptionID (fst scanner).

(** [Poll]: the goroutine runs the stream engine and closes the channel;
    the caller collects what is sent until then and returns it with the
    error received from the goroutine. A topic that does not resolve
    gives [(nil, err)]. *)
Definition Poll (c : Client) (net : Network) (topic : string)
    (options : list SubscribeOption) : M (list Message * option error) :=
  match expandTopicURL c topic with
  | Err e => ret ([], Some e)
  | Panic v => lift (Panic v)
  | Ok topicURL =>
      let* _ := log_Debug "%s Polling from topic" [ShortTopicURL topicURL] in
      let options := options ++ [WithPoll] in
      let '(evs, err) :=
        performSubscribeRequest net context_Background topicURL EmptyString options in
      let messages := sent_messages evs in
      match err with
      | Ok _ => (evs, Ok (messages, None))
      | Err e => (evs, Ok (messages, Some e))
      | Panic v => (evs, Panic v)
      end
  end.

(** [Subscribe]; [subscriptionID] is what [util.RandomString(10)]
    returns. *)
Definition Subscribe (c : Client) (rt : runtime) (topic : string)
    (options : list SubscribeOption) (subscriptionID : string)
    : M string * Client * runtime :=
  match expandTopicURL c topic with
  | Err e => (fail e, c, rt)
  | Panic v => (lift (Panic v), c, rt)
  | Ok topicURL =>
      let ctx := contexts rt in
      let c' := mkClient (Messages c) (config c)
                  (<[subscriptionID := mkSubscription subscriptionID topicURL ctx]>
                     (subscriptions c)) in
      let g := mkGoroutine (context_WithCancel ctx) topicURL subscriptionID options in
      let rt' := mkRuntime (S ctx) (cancel_calls rt) (goroutines rt ++ [g]) in
      (let* _ := log_Debug "%s Subscribing to topic" [ShortTopicURL topicURL] in
       ret subscriptionID, c', rt')
  end.

(** [Unsubscribe]. *)
Definition Unsubscribe (c : Client) (rt : runtime) (subscriptionID : string)
    : Client * runtime :=
  match subscriptions c !! subscriptionID with
  | None => (c, rt)
  | Some sub =>
      (mkClient (Messages c) (config c) (delete subscriptionID (subscriptions c)),
       mkRuntime (contexts rt) (cancel_calls rt ++ [cancel sub]) (goroutines rt))
  end.

(** [handleSubscribeConnLoop] over the turns its surroundings allow:
    the attempts made, and the state the loop is in after them. *)
Fixpoint handleSubscribeConnLoop (turns : list turn) (now : Z) (ctx : Context)
    (topicURL subcriptionID : string) (options : list SubscribeOption)
    : list attempt * loop_state :=
  match turns with
  | [] => ([], Connecting now)
  | t :: rest =>
      let '(evs, err) :=
        performSubscribeRequest (turn_net t) ctx topicURL subcriptionID options in
      let now' := now + Z.of_N (turn_duration t) in
      match err with
      | Panic v => ([mkAttempt now evs err now' [] (turn_select t) now'], Crashed v)
      | _ =>
          let warn :=
            match err with
            | Err e => [EvLog WarnLevel "%s Connection failed: %s"
                          [ShortTopicURL topicURL; arg_error e]]
            | _ => []
            end in
          match turn_select t with
          | ctx_Done waited =>
              let exit := now' + Z.of_N waited in
              ([mkAttempt now evs err now'
                  (warn ++ [EvLog InfoLevel "%s Connection exited" [ShortTopicURL topicURL]])
                  (turn_select t) exit],
               Canceled exit)
          | time_After late =>
              let next := now' + retryDelay + Z.of_N late in
              let '(attempts, st) :=
                handleSubscribeConnLoop rest next ctx topicURL subcriptionID options in
              (mkAttempt now evs err now' warn (turn_select t) next :: attempts, st)
          end
      end
  end.

End ClientEngine.

(** ** The resolution rules as the specification words them *)

Definition begins_with (s pre : string) : bool :=
  String.eqb (string_take (String.length pre) s) pre.

Definition contains_byte (s : string) (c : ascii) : bool :=
  existsb (Ascii.eqb c) (list_ascii_of_string s).

Definition is_letter (c : ascii) : bool :=
  let n := nat_of_ascii c in
  ((97 <=? n) && (n <=? 122) || (65 <=? n) && (n <=? 90))%nat.

Definition identifier_char (c : ascii) : bool :=
  let n := nat_of_ascii c in
  is_letter c || ((48 <=? n) && (n <=? 57))%nat || (n =? 45)%nat || (n =? 95)%nat.

(** Letters, digits, hyphen, underscore; length 1 to 64. *)
Definition restricted_identifier (s : string) : bool :=
  let cs := list_ascii_of_string s in
  (1 <=? length cs)%nat && (length cs <=? 64)%nat && forallb identifier_char cs.

(** The four rules of the topic URL resolver, checked in order. *)
Definition topic_url_rules (topic defaultHost : string) : outcome string :=
  if begins_with topic "http://" || begins_with topic "https://" then Ok topic
  else if contains_byte topic "/"%char then Ok ("https://" +:+ topic)
  else if negb (restricted_identifier topic)
  then Err (errorString ("invalid topic name: " +:+ topic))
  else Ok (defaultHost +:+ "/" +:+ topic).

(** ** What a stream delivers *)

Definition is_message_event (m : Message) : bool := String.eqb (Event m) MessageEvent.

(** The messages of the lines up to the first one that [toMessage] does
    not turn into a message. *)
Fixpoint decoded_prefix (topicURL subscriptionID : string) (lines : list string)
    : list Message :=
  match lines with
  | [] => []
  | l :: rest =>
      match toMessage l topicURL subscriptionID with
      | Ok m => m :: decoded_prefix topicURL subscriptionID rest
      | _ => []
      end
  end.

(** How reading the lines ends: with the outcome of the first line that
    [toMessage] does not turn into a message, or normally. *)
Fixpoint stream_end (topicURL subscriptionID : string) (lines : list string) : outcome unit :=
  match lines with
  | [] => Ok tt
  | l :: rest =>
      match toMessage l topicURL subscriptionID with
      | Ok _ => stream_end topicURL subscriptionID rest
      | Err e => Err e
      | Panic v => Panic v
      end
  end.

(** Every line is turned into a message. *)
Definition all_decode (topicURL subscriptionID : string) (lines : list string) : Prop :=
  Forall (fun l => exists m, toMessage l topicURL subscriptionID = Ok m) lines.

(** ** Invariants of the registry *)

(** The cancel handles of the entries of the registry. *)
Definition handles (c : Client) : list nat :=
  cancel <$> (map_to_list (subscriptions c)).*2.

(** No two entries share a cancel handle. *)
Definition distinct_handles (c : Client) : Prop := NoDup (handles c).

(** Every handle belongs to a context that has been created. *)
Definition handles_created (c : Client) (rt : runtime) : Prop :=
  Forall (fun h => (h < contexts rt)%nat) (handles c).

(** ** The schedule of the reconnect loop *)

Definition is_timer (s : select_case) : Prop :=
  match s with time_After _ => True | ctx_Done _ => False end.

Definition no_panic (a : attempt) : Prop := forall v, returned a <> Panic v.

(** What the loop logs after an attempt that returned [r]. *)
Definition warning_for (topicURL : string) (r : outcome unit) : list event :=
  match r with
  | Err e => [EvLog WarnLevel "%s Connection failed: %s" [ShortTopicURL topicURL; arg_error e]]
  | _ => []
  end.

(** How long the select lasts, and what is logged when it returns. *)
Definition select_wait (s : select_case) : Z :=
  match s with
  | time_After late => retryDelay + Z.of_N late
  | ctx_Done waited => Z.of_N waited
  end.

Definition select_log (topicURL : string) (s : select_case) : list event :=
  match s with
  | time_After _ => []
  | ctx_Done _ => [EvLog InfoLevel "%s Connection exited" [ShortTopicURL topicURL]]
  end.

(** An attempt that ended, by an error or by the end of the stream: the
    warning is logged if it failed, then the select is waited out. *)
Definition well_timed (topicURL : string) (a : attempt) : Prop :=
  began a <= ended a
  /\ logged a = warning_for topicURL (returned a) ++ select_log topicURL (selected a)
  /\ left a = ended a + select_wait (selected a).

(** The runs of the loop from [now] on: the attempts made and the state
    reached. *)
Inductive runs (topicURL : string) : Z -> list attempt -> loop_state -> Prop :=
| runs_idle now :
    runs topicURL now [] (Connecting now)
| runs_crash now a v :
    began a = now -> returned a = Panic v ->
    runs topicURL now [a] (Crashed v)
| runs_cancel now a :
    began a = now -> no_panic a -> well_timed topicURL a -> ~ is_timer (selected a) ->
    runs topicURL now [a] (Canceled (left a))
| runs_retry now a attempts st :
    began a = now -> no_panic a -> well_timed topicURL a -> is_timer (selected a) ->
    runs topicURL (left a) attempts st ->
    runs topicURL now (a :: attempts) st.

(** ** Well-formed streams *)

(** A line of a well-formed stream: no newline in it, no carriage return
    at its end, and short enough for the scanner's buffer. *)
Definition plain_line (l : string) : Prop :=
  string_forallb (fun c => negb (Ascii.eqb c LF)) l = true
  /\ (forall l', l <> l' +:+ String CR EmptyString)
  /\ (N.of_nat (String.length l) < MaxScanTokenSize)%N.

Definition unlines (lines : list string) : string :=
  fold_right (fun l rest => l +:+ newline +:+ rest) EmptyString lines.

(** ** Sample data *)

(** JSON texts are written with an apostrophe in place of each double
    quote. *)
Fixpoint dq (s : string) : string :=
  match s with
  | EmptyString => EmptyString
  | String c rest => String (if byte_is "'" c then quote else c) (dq rest)
  end.

Definition line_open : string := dq "{'id':'o1','time':1700000000,'event':'open','topic':'t'}".
Definition line_keepalive : string :=
  dq "{'id':'k1','time':1700000045,'event':'keepalive','topic':'t'}".
Definition line_message : string := dq "{'event':'message','id':'1','topic':'t','message':'hi'}".
Definition line_second : string := dq "{'event':'message','id':'2','topic':'t','message':'ho'}".
Definition line_broken : string := dq "{'event':'message','id':".

Definition sample_stream : string :=
  line_open +:+ newline +:+ line_keepalive +:+ newline +:+ line_message +:+ newline.

Definition broken_stream : string :=
  line_message +:+ newline +:+ line_broken +:+ newline +:+ line_second +:+ newline.

Definition every_url_parses : string -> option error := fun _ => None.

(** A network that answers every request with the same status and body. *)
Definition answering (status : Z) (body : reader) : Network :=
  fun _ => Ok (mkResponse status body).

(** An option that sets a header, one that adds a query parameter to the
    URL, and one that fails validation. *)
Definition sample_WithHeader (k v : string) : RequestOption :=
  fun r => Ok (mkRequest (Method r) (RequestURL r) (<[k := [v]]> (Header r))
                 (RequestBody r) (RequestContext r)).

Definition sample_WithQueryParam (k v : string) : RequestOption :=
  fun r => Ok (mkRequest (Method r) (RequestURL r +:+ "?" +:+ k +:+ "=" +:+ v) (Header r)
                 (RequestBody r) (RequestContext r)).

Definition sample_WithPoll : SubscribeOption := sample_WithQueryParam "poll" "1".

Definition sample_failing (e : error) : RequestOption := fun _ => Err e.

Definition sample_client : Client := New (Some NewConfig).

Definition fresh_runtime : runtime := mkRuntime 0 [] [].

Definition sample_topicURL : string := "https://ntfy.sh/t".

Definition sample_GET : Request :=
  mkRequest "GET" (sample_topicURL +:+ "/json") ∅ None context_Background.

Definition sample_poll_GET : Request :=
  mkRequest "GET" (sample_topicURL +:+ "/json?poll=1") ∅ None context_Background.

Definition sample_response : Response := mkResponse 200 (strings_NewReader sample_stream).

Definition broken_response : Response := mkResponse 200 (strings_NewReader broken_stream).

(** A connection that drops after one complete line. *)
Definition dropped_response : Response :=
  mkResponse 200
    (mkReader (line_message +:+ newline) (Some (foreign_error "connection reset by peer"))).

Fixpoint string_repeat (c : ascii) (n : nat) : string :=
  match n with
  | O => EmptyString
  | S n' => String c (string_repeat c n')
  end.

(** A complete line followed by a line of 65536 bytes. *)
Definition overlong_response : Response :=
  mkResponse 200
    (strings_NewReader
       (line_message +:+ newline +:+ string_repeat "x"%char (N.to_nat 65536) +:+ newline)).

Definition quota_response : Response :=
  mkResponse 429 (strings_NewReader ("quota exceeded" +:+ newline)).

Definition sample_POST : Request :=
  mkRequest "POST" "https://ntfy.sh/mytopic" ∅ (Some (strings_NewReader "hello"))
    context_Background.

Definition sample_published : string :=
  dq "{'id':'p1','time':1700000100,'event':'message','topic':'mytopic','message':'hello'}".

Definition invalid_since : error := errorString "invalid since".

Definition sample_pre : list RequestOption := [sample_WithHeader "X-Title" "hello"].
Definition sample_post : list RequestOption := [sample_WithHeader "X-Priority" "5"].

(** A client with two subscriptions, made by two calls of [Subscribe]. *)
Definition subscribed_once : M string * Client * runtime :=
  Subscribe sample_client fresh_runtime "alerts" [] "aaaaaaaaaa".

Definition subscribed_twice : M string * Client * runtime :=
  Subscribe (snd (fst subscribed_once)) (snd subscribed_once) "news" [] "bbbbbbbbbb".

Definition two_subscriptions : Client := snd (fst subscribed_twice).
Definition two_contexts : runtime := snd subscribed_twice.

(** Three turns of a reconnect loop: a stream with a malformed line, an
    overloaded server, and a stream during which the subscription is
    canceled; a fourth turn that is never taken. *)
Definition sample_turns : list turn :=
  [mkTurn (answering 200 (strings_NewReader broken_stream)) 2000000000 (time_After 0);
   mkTurn (answering 503 (strings_NewReader "overloaded")) 1000000000 (time_After 5000000);
   mkTurn (answering 200 (strings_NewReader sample_stream)) 30000000000 (ctx_Done 3000000000);
   mkTurn (answering 200 (strings_NewReader sample_stream)) 1 (time_After 0)].

(** ** The life of a client *)

(** One call of [Subscribe] or of [Unsubscribe]. *)
Inductive call : Client * runtime -> Client * runtime -> Prop :=
| call_Subscribe c rt topic options subscriptionID :
    call (c, rt)
      (snd (fst (Subscribe c rt topic options subscriptionID)),
       snd (Subscribe c rt topic options subscriptionID))
| call_Unsubscribe c rt subscriptionID :
    call (c, rt) (Unsubscribe c rt subscriptionID).

(** The states a program reaches from a new client. *)
Definition reachable (c : Client) (rt : runtime) : Prop :=
  exists cfg, rtc call (New cfg, fresh_runtime) (c, rt).

(** What the calls keep true of the registry and of what exists beside it. *)
Record registry_ok (c : Client) (rt : runtime) : Prop := mk_registry_ok {
  ok_distinct : distinct_handles c;
  ok_created : handles_created c rt;
  ok_keys : forall i s, subscriptions c !! i = Some s -> sub_ID s = i;
  ok_live : forall i s, subscriptions c !! i = Some s -> cancel s ∉ cancel_calls rt;
  ok_calls : NoDup (cancel_calls rt);
  ok_calls_created : Forall (fun h => (h < contexts rt)%nat) (cancel_calls rt);
  ok_goroutines : length (goroutines rt) = contexts rt;
  ok_contexts : forall k g, goroutines rt !! k = Some g -> go_ctx g = context_WithCancel k;
  ok_task : forall i s, subscriptions c !! i = Some s ->
            exists g, goroutines rt !! cancel s = Some g
                      /\ go_subscriptionID g = i /\ go_topicURL g = sub_topicURL s
}.

(** What the goroutine started by [Subscribe] does: it runs the reconnect
    loop with the context, the topic URL, the subscription id and the
    options it was started with, over the turns its surroundings allow. *)
Definition goroutine_run (url_Parse : string -> option error) (g : goroutine)
    (turns : list turn) (now : Z) : list attempt * loop_state :=
  handleSubscribeConnLoop url_Parse turns now (go_ctx g) (go_topicURL g)
    (go_subscriptionID g) (go_options g).

(** ** What the messages of a subscription carry *)

(** A message as the stream engine sends it for topic URL [u] and
    subscription [sid]: a "message" event with the three stamps. *)
Definition stamped (u sid : string) (m : Message) : Prop :=
  TopicURL m = u /\ SubscriptionID m = sid /\ Event m = MessageEvent.

(** ** The errors of the decoder *)

(** The scanner has no error, or a syntax error. *)
Definition syntax_only (e : option error) : Prop :=
  match e with
  | None | Some (json_SyntaxError _ _) => True
  | Some _ => False
  end.

(** No error is saved, or a type error. *)
Definition type_only (e : option error) : Prop :=
  match e with
  | None | Some (json_UnmarshalTypeError _ _) => True
  | Some _ => False
  end.

(** The errors [Decode] returns. *)
Inductive decode_error : error -> Prop :=
| decode_EOF : decode_error io_EOF
| decode_UnexpectedEOF : decode_error io_ErrUnexpectedEOF
| decode_SyntaxError c context : decode_error (json_SyntaxError c context)
| decode_TypeError value gotype : decode_error (json_UnmarshalTypeError value gotype).

(** ** regexp: anchored sequences of repeated character classes *)

(** One piece of a pattern: a character class repeated [rep_min] to
    [rep_max] times, with no upper bound if [rep_max] is [None]. The
    classes of the patterns below hold ASCII characters only, so a
    character is a byte. *)
Record piece : Type := mkPiece {
  piece_class : ascii -> bool;
  rep_min : nat;
  rep_max : option nat
}.

(** A literal character. *)
Definition literal (x : string) : piece := mkPiece (byte_is x) 1%nat (Some 1%nat).

Definition within (r : piece) (n : nat) : bool :=
  (rep_min r <=? n)%nat
  && match rep_max r with
     | Some m => (n <=? m)%nat
     | None => true
     end.

(** [re.MatchString(s)] for [re = ^r1 r2 ... rk$]: the whole text splits
    into one part for each piece. (Without the multi-line flag, [^] and
    [$] match at the two ends of the text only.) *)
Fixpoint MatchString (re : list piece) (s : string) : bool :=
  match re with
  | [] => match s with EmptyString => true | String _ _ => false end
  | r :: rest =>
      existsb (fun n => within r n && string_forallb (piece_class r) (string_take n s)
                        && MatchString rest (string_drop n s))
        (seq 0%nat (S (String.length s)))
  end.

(** ** user: the validators *)

(** [[-_.+@a-zA-Z0-9]]. *)
Definition is_username_char (c : ascii) : bool :=
  byte_is "-" c || byte_is "_" c || byte_is "." c || byte_is "+" c || byte_is "@" c
  || is_lower c || is_upper c || is_digit c.

(** [[-_*A-Za-z0-9]]. *)
Definition is_topic_pattern_char (c : ascii) : bool :=
  byte_is "-" c || byte_is "_" c || byte_is "*" c || is_upper c || is_lower c || is_digit c.

(** [^[-_.+@a-zA-Z0-9]+$]. *)
Definition allowedUsernameRegex : list piece := [mkPiece is_username_char 1%nat None].

(** [^[-_A-Za-z0-9]{1,64}$]. *)
Definition allowedTopicRegex : list piece := [mkPiece is_topic_char 1%nat (Some 64%nat)].

(** [^[-_*A-Za-z0-9]{1,64}$]. *)
Definition allowedTopicPatternRegex : list piece :=
  [mkPiece is_topic_pattern_char 1%nat (Some 64%nat)].

(** [^[-_A-Za-z0-9]{1,64}$]. *)
Definition allowedTierRegex : list piece := [mkPiece is_topic_char 1%nat (Some 64%nat)].

(** [^tk_[-_A-Za-z0-9]{29}$]. *)
Definition allowedTokenRegex : list piece :=
  [literal "t"; literal "k"; literal "_"; mkPiece is_topic_char 29%nat (Some 29%nat)].

(** [AllowedUsername]. *)
Definition AllowedUsername (username : string) : bool :=
  MatchString allowedUsernameRegex username.

(** [AllowedTopic]. *)
Definition AllowedTopic (topic : string) : bool := MatchString allowedTopicRegex topic.

(** [AllowedTopicPattern]. *)
Definition AllowedTopicPattern (topic : string) : bool :=
  MatchString allowedTopicPatternRegex topic.

(** [AllowedTier]. *)
Definition AllowedTier (tier : string) : bool := MatchString allowedTierRegex tier.

(** [ValidToken]. *)
Definition ValidToken (token : string) : bool := MatchString allowedTokenRegex token.

(** ** log: the state of the package *)

(** An [io.Writer]: a file, some other writer, or a [peekLogWriter]
    around a writer. *)
Inductive writer : Type :=
| os_File (name : string)
| other_Writer (id : nat)
| peekLogWriter (w : writer).

Definition os_Stderr : writer := os_File "/dev/stderr".

(** [DefaultOutput]. *)
Definition DefaultOutput : writer := peekLogWriter os_Stderr.

(** [log.LstdFlags] of the standard logger: date and time. *)
Definition LstdFlags : Z := 3.

Section LogPackage.

(** The types [Level] and [Format] with their constants, and the
    rendering of an event, are declared in files that are not part of
    the sources: [Format_eq] is Go's [==] on formats, [Level_le] Go's
    [<=] on levels, and [Render s] what
    [newEvent().Tag(tagStdLog).Render(InfoLevel, "%s", s)] returns. *)
Variable Level : Type.
Variable Format : Type.
Context {Format_eq : EqDecision Format}.
Variable Level_le : Level -> Level -> bool.
Variable DefaultLevel : Level.
Variables TextFormat JSONFormat : Format.
Variable Render : string -> string.

(** [levelOverride]. *)
Record levelOverride : Type := mkLevelOverride {
  override_value : string;
  override_level : Level
}.

(** The variables of the package, and beside them the flags and the
    output of the standard logger. *)
Record log_state : Type := mkLogState {
  level : Level;
  format : Format;
  overrides : gmap string (list levelOverride);
  output : writer;
  filename : string;
  std_flags : Z;
  std_output : writer
}.

(** The variables as they are declared. *)
Definition declared : log_state :=
  mkLogState DefaultLevel TextFormat ∅ DefaultOutput EmptyString LstdFlags os_Stderr.

(** [CurrentLevel]. *)
Definition CurrentLevel (st : log_state) : Level := level st.

(** [SetLevel]. *)
Definition SetLevel (newLevel : Level) (st : log_state) : log_state :=
  mkLogState newLevel (format st) (overrides st) (output st) (filename st)
    (std_flags st) (std_output st).

(** [SetLevelOverride]. *)
Definition SetLevelOverride (field value : string) (l : Level) (st : log_state)
    : log_state :=
  mkLogState (level st) (format st)
    (<[field := default [] (overrides st !! field) ++ [mkLevelOverride value l]]>
       (overrides st))
    (output st) (filename st) (std_flags st) (std_output st).

(** [ResetLevelOverrides]. *)
Definition ResetLevelOverrides (st : log_state) : log_state :=
  mkLogState (level st) (format st) ∅ (output st) (filename st)
    (std_flags st) (std_output st).

(** [CurrentFormat]. *)
Definition CurrentFormat (st : log_state) : Format := format st.

(** [DisableDates]: [log.SetFlags(0)]. *)
Definition DisableDates (st : log_state) : log_state :=
  mkLogState (level st) (format st) (overrides st) (output st) (filename st)
    0 (std_output st).

(** [SetFormat]. *)
Definition SetFormat (newFormat : Format) (st : log_state) : log_state :=
  let st := mkLogState (level st) newFormat (overrides st) (output st) (filename st)
              (std_flags st) (std_output st) in
  if decide (newFormat = JSONFormat) then DisableDates st else st.

(** [SetOutput]; [f.Name()] is the name of the file. *)
Definition SetOutput (w : writer) (st : log_state) : log_state :=
  let output := peekLogWriter w in
  mkLogState (level st) (format st) (overrides st) output
    (match w with
     | os_File name => name
     | _ => EmptyString
     end)
    (std_flags st) output.

(** [init]. *)
Definition init (st : log_state) : log_state := SetOutput DefaultOutput st.

(** [File]. *)
Definition File (st : log_state) : string := filename st.

(** [IsFile]. *)
Definition IsFile (st : log_state) : bool := negb (String.eqb (filename st) EmptyString).

(** [Loggable]. *)
Definition Loggable (l : Level) (st : log_state) : bool := Level_le (CurrentLevel st) l.

(** [Write] on a writer: the writer that is not a [peekLogWriter] reached
    in the end and the bytes handed to it, or nothing when a
    [peekLogWriter] returns without writing. *)
Fixpoint writer_Write (st : log_state) (w : writer) (p : string) : option (writer * string) :=
  match w with
  | peekLogWriter w' =>
      if (String.length p =? 0)%nat || HasPrefix p "{"
         || bool_decide (CurrentFormat st = TextFormat)
      then writer_Write st w' p
      else
        let m := Render (TrimSpace p) in
        if String.eqb m EmptyString then None
        else writer_Write st w' (m +:+ newline)
  | _ => Some (w, p)
  end.

(** A call of one of the functions that change the state. *)
Inductive log_call : Type :=
| call_SetLevel (newLevel : Level)
| call_SetLevelOverride (field value : string) (l : Level)
| call_ResetLevelOverrides
| call_SetFormat (newFormat : Format)
| call_SetOutput (w : writer)
| call_DisableDates.

Definition log_do (st : log_state) (c : log_call) : log_state :=
  match c with
  | call_SetLevel newLevel => SetLevel newLevel st
  | call_SetLevelOverride field value l => SetLevelOverride field value l st
  | call_ResetLevelOverrides => ResetLevelOverrides st
  | call_SetFormat newFormat => SetFormat newFormat st
  | call_SetOutput w => SetOutput w st
  | call_DisableDates => DisableDates st
  end.

(** The state of a program after [init] and the calls it made. *)
Definition log_after (calls : list log_call) : log_state :=
  foldl log_do (init declared) calls.

(** The overrides a field has after the calls, as a list: a call of
    [SetLevelOverride] for the field adds one at the end, a call of
    [ResetLevelOverrides] drops them all. *)
Definition overrides_given (field : string) (calls : list log_call) : list levelOverride :=
  foldl (fun given c =>
           match c with
           | call_SetLevelOverride f value l =>
               if String.eqb f field then given ++ [mkLevelOverride value l] else given
           | call_ResetLevelOverrides => []
           | _ => given
           end) [] calls.

(** The calls that disable the dates of the standard logger. *)
Definition disables_dates (c : log_call) : bool :=
  match c with
  | call_SetFormat newFormat => bool_decide (newFormat = JSONFormat)
  | call_DisableDates => true
  | _ => false
  end.

(** What makes a [peekLogWriter] pass the bytes on as they are. *)
Definition passes (st : log_state) (p : string) : bool :=
  (String.length p =? 0)%nat || HasPrefix p "{"
  || bool_decide (CurrentFormat st = TextFormat).

End LogPackage.

Arguments mkLevelOverride {Level} override_value override_level.
Arguments override_value {Level} l.
Arguments override_level {Level} l.
Arguments mkLogState {Level Format} level format overrides output filename std_flags std_output.
Arguments level {Level Format} l.
Arguments format {Level Format} l.
Arguments overrides {Level Format} l.
Arguments output {Level Format} l.
Arguments filename {Level Format} l.
Arguments std_flags {Level Format} l.
Arguments std_output {Level Format} l.
Arguments declared {Level Format} DefaultLevel TextFormat.
Arguments CurrentLevel {Level Format} st.
Arguments SetLevel {Level Format} newLevel st.
Arguments SetLevelOverride {Level Format} field value l st.
Arguments ResetLevelOverrides {Level Format} st.
Arguments CurrentFormat {Level Format} st.
Arguments DisableDates {Level Format} st.
Arguments SetFormat {Level Format Format_eq} JSONFormat newFormat st.
Arguments SetOutput {Level Format} w st.
Arguments init {Level Format} st.
Arguments File {Level Format} st.
Arguments IsFile {Level Format} st.
Arguments Loggable {Level Format} Level_le l st.
Arguments writer_Write {Level Format Format_eq} TextFormat Render st w p.
Arguments call_SetLevel {Level Format} newLevel.
Arguments call_SetLevelOverride {Level Format} field value l.
Arguments call_ResetLevelOverrides {Level Format}.
Arguments call_SetFormat {Level Format} newFormat.
Arguments call_SetOutput {Level Format} w.
Arguments call_DisableDates {Level Format}.
Arguments log_do {Level Format Format_eq} JSONFormat st c.
Arguments log_after {Level Format Format_eq} DefaultLevel TextFormat JSONFormat calls.
Arguments overrides_given {Level Format} field calls.
Arguments disables_dates {Level Format Format_eq} JSONFormat c.
Arguments passes {Level Format Format_eq} TextFormat st p.

(** ** Sample data for the further properties *)

(** A subscription whose id is drawn a second time, and what is left
    after [Unsubscribe] with that id. *)
Definition collided : M string * Client * runtime :=
  Subscribe (snd (fst subscribed_once)) (snd subscribed_once) "news" [] "aaaaaaaaaa".

Definition after_collision : Client * runtime :=
  Unsubscribe (snd (fst collided)) (snd collided) "aaaaaaaaaa".

(** The message of [line_message] as the stream engine sends it on the
    sample topic. *)
Definition sample_hi : Message :=
  mkMessage "1" "message" 0 "t" "hi" EmptyString 0 [] EmptyString EmptyString None
    sample_topicURL EmptyString line_message.

(** A stream with the line [null] between two messages, and a turn of
    the reconnect loop that receives it. *)
Definition null_stream : string :=
  line_message +:+ newline +:+ "null" +:+ newline +:+ line_second +:+ newline.

Definition null_response : Response := mkResponse 200 (strings_NewReader null_stream).

Definition null_turn : turn :=
  mkTurn (answering 200 (strings_NewReader null_stream)) 2000000000 (time_After 0).

(** Two answers to a publish request that agree on the first 4096 bytes
    of the body: the message, padded with spaces; the second goes on
    differently and breaks off with a read error. *)
Definition padded_message : string := sample_published +:+ string_repeat " "%char 4096.

Definition long_response : Response :=
  mkResponse 200 (strings_NewReader (padded_message +:+ "and more")).

Definition long_dropped_response : Response :=
  mkResponse 200
    (mkReader (padded_message +:+ "something else")
       (Some (foreign_error "connection reset by peer"))).

(** A complete line, ending normally. *)
Definition complete_response : Response :=
  mkResponse 200 (strings_NewReader (line_message +:+ newline)).

(** A rendering of events as JSON objects, and the state of the log
    package after [init] and a change to the JSON format, with levels as
    numbers and the two formats as booleans. *)
Definition sample_Render (s : string) : string := dq "{'message':'" +:+ s +:+ dq "'}".

Definition sample_json_log : log_state Z bool :=
  log_after 0 false true [call_SetFormat true].

(** * Properties *)

(** ** Topic URL resolution *)

Lemma HasPrefix_begins_with (pre s : string) : HasPrefix s pre = begins_with s pre.
Proof.
  unfold HasPrefix, begins_with.
  revert s. induction pre as [|a pre IH]; intros s.
  - destruct s; reflexivity.
  - destruct s as [|b s]; [reflexivity|].
    cbn [String.prefix String.length string_take String.eqb].
    destruct (ascii_dec a b) as [->|Hne].
    + rewrite Ascii.eqb_refl. apply IH.
    + destruct (Ascii.eqb_spec b a) as [Heq|_]; [congruence|reflexivity].
Qed.

Lemma Contains_slash (s : string) : Contains s "/" = contains_byte s "/"%char.
Proof.
  unfold contains_byte.
  induction s as [|c s IH]; [reflexivity|].
  cbn [Contains list_ascii_of_string existsb String.prefix].
  rewrite IH.
  destruct (ascii_dec "/" c) as [<-|Hne].
  - rewrite Ascii.eqb_refl. destruct s; reflexivity.
  - destruct (Ascii.eqb_spec "/"%char c) as [Heq|_]; [congruence|reflexivity].
Qed.

Lemma is_topic_char_identifier (c : ascii) : is_topic_char c = identifier_char c.
Proof.
  destruct c as [[] [] [] [] [] [] [] []]; vm_compute; reflexivity.
Qed.

Lemma string_forallb_list (p : ascii -> bool) (s : string) :
  string_forallb p s = forallb p (list_ascii_of_string s).
Proof. induction s as [|c s IH]; [reflexivity|]. cbn. by rewrite IH. Qed.

Lemma length_list_ascii (s : string) : length (list_ascii_of_string s) = String.length s.
Proof. induction s as [|c s IH]; [reflexivity|]. cbn. by rewrite IH. Qed.

Lemma topicRegex_restricted_identifier (s : string) :
  topicRegex_MatchString s = restricted_identifier s.
Proof.
  unfold topicRegex_MatchString, restricted_identifier.
  rewrite length_list_ascii, string_forallb_list.
  f_equal. generalize (list_ascii_of_string s) as cs.
  induction cs as [|c cs IH]; [reflexivity|].
  cbn [forallb]. by rewrite is_topic_char_identifier, IH.
Qed.

(** C3: for every topic string and default host, [expandTopicURL] applies
    the four rules of the resolver in order: a topic that begins with
    http:// or https:// is returned unchanged; otherwise one that contains
    a slash is prefixed with https://; otherwise one that is a restricted
    identifier (letters, digits, hyphen, underscore, 1 to 64 of them) is
    returned as default host, slash, topic; any other fails with the
    invalid topic name error. The result is a function of the topic and
    the default host alone. *)
Theorem expandTopicURL_follows_rules (topic : string) (cfg : Config) (messages : nat)
    (subs : gmap string subscription) :
  expandTopicURL (mkClient messages (Some cfg) subs) topic
  = topic_url_rules topic (DefaultHost cfg).
Proof.
  unfold expandTopicURL, topic_url_rules.
  rewrite !HasPrefix_begins_with, Contains_slash, topicRegex_restricted_identifier.
  reflexivity.
Qed.

(** ** The message decoder *)

Lemma toMessage_cases (s topicURL sid : string) :
  toMessage s topicURL sid =
  match json_Decode s None with
  | (_, Some e) => Err e
  | (None, None) => Panic nil_dereference
  | (Some m, None) => Ok (set_Raw (set_SubscriptionID (set_TopicURL m topicURL) sid) s)
  end.
Proof.
  unfold toMessage. destruct (json_Decode s None) as [[m|] [e|]]; reflexivity.
Qed.

Lemma toMessage_stamps (s topicURL sid : string) (m : Message) :
  toMessage s topicURL sid = Ok m ->
  TopicURL m = topicURL /\ SubscriptionID m = sid /\ Raw m = s.
Proof.
  rewrite toMessage_cases.
  destruct (json_Decode s None) as [[m'|] [e|]]; intros H; inversion H; subst.
  by repeat split.
Qed.

(** The decoder returns an error or a stamped message on every line but
    those whose first JSON value is null. *)
Lemma toMessage_total_except_null (s topicURL sid : string) :
  json_readValue s <> inr JNull ->
  (exists e, toMessage s topicURL sid = Err e)
  \/ (exists m, toMessage s topicURL sid = Ok m
                /\ TopicURL m = topicURL /\ SubscriptionID m = sid /\ Raw m = s).
Proof.
  intros Hnull. rewrite toMessage_cases. unfold json_Decode.
  destruct (json_readValue s) as [e|v]; [left; by exists e|].
  destruct v as [| | | lit | raw | items | members]; try (left; eexists; reflexivity).
  - by destruct Hnull.
  - cbn [unmarshal].
    destruct (decode_message_members _ _ _ _) as [m [e|]]; [left; by exists e|].
    right. eexists. by repeat split.
Qed.

Lemma toMessage_panics_only_on_null (s topicURL sid v : string) :
  toMessage s topicURL sid = Panic v -> json_readValue s = inr JNull.
Proof.
  intros Hp. destruct (json_readValue s) as [e|[]] eqn:Hv; try reflexivity;
    (destruct (toMessage_total_except_null s topicURL sid) as [[e' He]|(m & Hm & _)];
     [by rewrite Hv|by rewrite He in Hp|by rewrite Hm in Hp]).
Qed.

(** C9: the message decoder is meant to be total, failing with a decode
    error or returning a message that carries the topic URL, the
    subscription id and the original line. On the line [null] it is not:
    [Decode] reports no error and leaves the pointer nil, and storing the
    topic URL through it panics. *)
Theorem toMessage_panics_on_null (topicURL subscriptionID : string) :
  json_Decode "null" None = (None, None)
  /\ toMessage "null" topicURL subscriptionID = Panic nil_dereference.
Proof. split; reflexivity. Qed.

(** ** The stream engine *)

Lemma sent_messages_app (a b : list event) :
  sent_messages (a ++ b) = sent_messages a ++ sent_messages b.
Proof. apply omap_app. Qed.

Lemma requests_sent_app (a b : list event) :
  requests_sent (a ++ b) = requests_sent a ++ requests_sent b.
Proof. apply omap_app. Qed.

Lemma sent_messages_log (lv : log_level) (f : string) (args : list log_arg)
    (l : list event) :
  sent_messages (EvLog lv f args :: l) = sent_messages l.
Proof. reflexivity. Qed.

Lemma sent_messages_do (r : Request) (l : list event) :
  sent_messages (EvDo r :: l) = sent_messages l.
Proof. reflexivity. Qed.

Lemma requests_sent_log (lv : log_level) (f : string) (args : list log_arg)
    (l : list event) :
  requests_sent (EvLog lv f args :: l) = requests_sent l.
Proof. reflexivity. Qed.

Lemma requests_sent_do (r : Request) (l : list event) :
  requests_sent (EvDo r :: l) = r :: requests_sent l.
Proof. reflexivity. Qed.

Lemma read_stream_cons (topicURL sid l : string) (rest : list string) :
  read_stream topicURL sid (l :: rest) =
  match toMessage l topicURL sid with
  | Ok m =>
      (EvLog TraceLevel "%s Message received: %s" [ShortTopicURL topicURL; arg_string l]
         :: (if is_message_event m then [EvSend m] else [])
         ++ fst (read_stream topicURL sid rest),
       snd (read_stream topicURL sid rest))
  | Err e => ([], Err e)
  | Panic v => ([], Panic v)
  end.
Proof.
  cbn [read_stream]. unfold lift, bind, log_Trace, emit, is_message_event.
  destruct (toMessage l topicURL sid) as [m|e|v]; [|reflexivity..].
  destruct (String.eqb (Event m) MessageEvent);
    destruct (read_stream topicURL sid rest) as [evs r]; reflexivity.
Qed.

Lemma read_stream_end (topicURL sid : string) (lines : list string) :
  snd (read_stream topicURL sid lines) = stream_end topicURL sid lines.
Proof.
  induction lines as [|l rest IH]; [reflexivity|].
  rewrite read_stream_cons. cbn [stream_end].
  destruct (toMessage l topicURL sid); [exact IH|reflexivity..].
Qed.

Lemma read_stream_sent (topicURL sid : string) (lines : list string) :
  sent_messages (fst (read_stream topicURL sid lines))
  = List.filter is_message_event (decoded_prefix topicURL sid lines).
Proof.
  induction lines as [|l rest IH]; [reflexivity|].
  rewrite read_stream_cons. cbn [decoded_prefix].
  destruct (toMessage l topicURL sid) as [m|e|v]; [|reflexivity..].
  cbn [fst List.filter].
  rewrite sent_messages_log, sent_messages_app, IH.
  destruct (is_message_event m); reflexivity.
Qed.

Lemma read_stream_no_request (topicURL sid : string) (lines : list string) :
  requests_sent (fst (read_stream topicURL sid lines)) = [].
Proof.
  induction lines as [|l rest IH]; [reflexivity|].
  rewrite read_stream_cons.
  destruct (toMessage l topicURL sid) as [m|e|v]; [|reflexivity..].
  cbn [fst]. rewrite requests_sent_log, requests_sent_app, IH.
  destruct (is_message_event m); reflexivity.
Qed.

(** Reading stops at the first line that is not decoded. *)
Lemma read_stream_stops (topicURL sid bad : string) (pre post : list string) :
  all_decode topicURL sid pre ->
  (forall m, toMessage bad topicURL sid <> Ok m) ->
  fst (read_stream topicURL sid (pre ++ bad :: post)) = fst (read_stream topicURL sid pre)
  /\ stream_end topicURL sid (pre ++ bad :: post)
     = match toMessage bad topicURL sid with
       | Ok _ => Ok tt
       | Err e => Err e
       | Panic v => Panic v
       end.
Proof.
  intros Hpre Hbad. induction Hpre as [|l pre [m Hm] _ IH].
  - cbn [app]. rewrite read_stream_cons. cbn [stream_end].
    destruct (toMessage bad topicURL sid) as [m|e|v]; [|by split..].
    by destruct (Hbad m).
  - cbn [app]. rewrite !read_stream_cons. cbn [stream_end]. rewrite Hm.
    destruct IH as [IH1 IH2]. cbn [fst]. by rewrite IH1, IH2.
Qed.

Lemma all_decode_prefix (topicURL sid : string) (lines : list string) :
  all_decode topicURL sid lines ->
  stream_end topicURL sid lines = Ok tt
  /\ Forall2 (fun l m => toMessage l topicURL sid = Ok m) lines
       (decoded_prefix topicURL sid lines).
Proof.
  induction 1 as [|l lines [m Hm] _ [IH1 IH2]]; [by split; [|constructor]|].
  cbn [stream_end decoded_prefix]. rewrite Hm. split; [exact IH1|].
  by constructor.
Qed.

(** ** The line scanner on well-formed streams *)

Lemma string_app_cons (c : ascii) (s t : string) :
  String c s +:+ t = String c (s +:+ t).
Proof. reflexivity. Qed.

Lemma string_app_empty (s : string) : s +:+ EmptyString = s.
Proof. induction s as [|c s IH]; [reflexivity|]. by rewrite string_app_cons, IH. Qed.

Lemma string_app_assoc (a b c : string) : (a +:+ b) +:+ c = a +:+ b +:+ c.
Proof. induction a as [|x a IH]; [reflexivity|]. by rewrite !string_app_cons, IH. Qed.

Lemma string_rev_append_app (s acc : string) :
  string_rev_append s acc = string_rev s +:+ acc.
Proof.
  unfold string_rev. revert acc. induction s as [|c s IH]; intros acc; [reflexivity|].
  cbn [string_rev_append].
  rewrite (IH (String c acc)), (IH (String c EmptyString)), string_app_assoc.
  reflexivity.
Qed.

Lemma string_rev_app (a b : string) : string_rev (a +:+ b) = string_rev b +:+ string_rev a.
Proof.
  induction a as [|c a IH].
  - change (EmptyString +:+ b) with b. by rewrite string_app_empty.
  - rewrite string_app_cons. unfold string_rev in *. cbn [string_rev_append].
    rewrite (string_rev_append_app (a +:+ b)), (string_rev_append_app a).
    unfold string_rev. rewrite IH. apply string_app_assoc.
Qed.

Lemma string_rev_involutive (s : string) : string_rev (string_rev s) = s.
Proof.
  induction s as [|c s IH]; [reflexivity|].
  unfold string_rev at 2. cbn [string_rev_append].
  rewrite string_rev_append_app, string_rev_app, IH. reflexivity.
Qed.

Lemma ScanLines_line (l cur rest : string) (n : N) (e : option error) :
  string_forallb (fun c => negb (Ascii.eqb c LF)) l = true ->
  (n + N.of_nat (String.length l) < MaxScanTokenSize)%N ->
  ScanLines cur n (l +:+ newline +:+ rest) e
  = (dropCR (string_rev_append l cur) :: fst (ScanLines EmptyString 0 rest e),
     snd (ScanLines EmptyString 0 rest e)).
Proof.
  revert cur n. induction l as [|c l IH]; intros cur n Hlf Hlen.
  - change (EmptyString +:+ newline +:+ rest) with (String LF rest).
    cbn [ScanLines string_rev_append].
    rewrite Ascii.eqb_refl. by destruct (ScanLines EmptyString 0 rest e).
  - cbn [string_forallb] in Hlf. apply andb_true_iff in Hlf as [Hc Hlf].
    rewrite string_app_cons. cbn [ScanLines string_rev_append].
    destruct (Ascii.eqb c LF); [done|].
    cbn [String.length] in Hlen.
    destruct (N.leb_spec MaxScanTokenSize (n + 1)) as [Hbig|_]; [lia|].
    apply IH; [done|lia].
Qed.

Lemma dropCR_plain (l : string) :
  (forall l', l <> l' +:+ String CR EmptyString) ->
  dropCR (string_rev_append l EmptyString) = l.
Proof.
  intros Hcr. fold (string_rev l).
  destruct (string_rev l) as [|c r] eqn:Hrev.
  - rewrite <- (string_rev_involutive l), Hrev. reflexivity.
  - cbn [dropCR]. destruct (Ascii.eqb_spec c CR) as [->|_].
    + destruct (Hcr (string_rev r)).
      rewrite <- (string_rev_involutive l), Hrev.
      unfold string_rev at 1. cbn [string_rev_append]. apply string_rev_append_app.
    + rewrite <- Hrev. apply string_rev_involutive.
Qed.

(** The scanner returns the lines of a well-formed stream, and no error. *)
Lemma bufio_Scan_unlines (lines : list string) :
  Forall plain_line lines ->
  bufio_Scan (strings_NewReader (unlines lines)) = (lines, None).
Proof.
  unfold bufio_Scan, strings_NewReader. cbn [data read_err].
  induction 1 as [|l lines (Hlf & Hcr & Hlen) _ IH]; [reflexivity|].
  cbn [unlines fold_right]. fold (unlines lines).
  rewrite ScanLines_line; [|done|lia].
  rewrite IH. cbn [fst snd]. by rewrite dropCR_plain.
Qed.

Section Stream.

Variable url_Parse : string -> option error.

Lemma performSubscribeRequest_streams (net : Network) (ctx : Context)
    (topicURL sid : string) (options : list SubscribeOption) (req : Request)
    (resp : Response) :
  url_Parse (topicURL +:+ "/json") = None ->
  apply_options options (mkRequest "GET" (topicURL +:+ "/json") ∅ None ctx) = Ok req ->
  net req = Ok resp ->
  StatusCode resp = StatusOK ->
  performSubscribeRequest url_Parse net ctx topicURL sid options
  = (EvLog DebugLevel "%s Listening to %s"
       [ShortTopicURL topicURL; arg_string (topicURL +:+ "/json")]
     :: EvDo req :: fst (read_stream topicURL sid (fst (bufio_Scan (Body resp)))),
     snd (read_stream topicURL sid (fst (bufio_Scan (Body resp))))).
Proof.
  intros Hurl Hopts Hnet Hst.
  unfold performSubscribeRequest, http_NewRequestWithContext, http_Do.
  rewrite Hurl. unfold log_Debug, emit, lift, bind. rewrite Hopts, Hnet, Hst.
  change (negb (StatusOK =? StatusOK)) with false. cbv iota.
  destruct (read_stream _ _ _) as [evs r]. reflexivity.
Qed.

(** C1: on a subscribe or poll request answered with status 200, the
    messages sent to the sink are exactly the decoded lines whose event
    is "message", in the order of the stream; decoded lines of any
    other event are not sent. (The decoded lines are those up to the
    first line that is not decoded, where the read ends.) *)
Theorem stream_forwards_message_events (net : Network) (ctx : Context)
    (topicURL sid : string) (options : list SubscribeOption) (req : Request)
    (resp : Response) :
  url_Parse (topicURL +:+ "/json") = None ->
  apply_options options (mkRequest "GET" (topicURL +:+ "/json") ∅ None ctx) = Ok req ->
  net req = Ok resp ->
  StatusCode resp = StatusOK ->
  sent_messages (fst (performSubscribeRequest url_Parse net ctx topicURL sid options))
  = List.filter is_message_event
      (decoded_prefix topicURL sid (fst (bufio_Scan (Body resp)))).
Proof.
  intros Hurl Hopts Hnet Hst.
  rewrite (performSubscribeRequest_streams _ _ _ _ _ _ _ Hurl Hopts Hnet Hst).
  cbn [fst]. rewrite sent_messages_log, sent_messages_do. apply read_stream_sent.
Qed.

(** C4: if a line of the stream fails to decode, the attempt returns that
    decode error at once: nothing is done for the failing line or for any
    line after it (the events of the attempt are those of the lines
    before it), so no message from after it is sent, and the messages
    sent before it stay sent. *)
Theorem stream_stops_at_decode_error (net : Network) (ctx : Context)
    (topicURL sid : string) (options : list SubscribeOption) (req : Request)
    (resp : Response) (pre post : list string) (bad : string) (e : error) :
  url_Parse (topicURL +:+ "/json") = None ->
  apply_options options (mkRequest "GET" (topicURL +:+ "/json") ∅ None ctx) = Ok req ->
  net req = Ok resp ->
  StatusCode resp = StatusOK ->
  fst (bufio_Scan (Body resp)) = pre ++ bad :: post ->
  all_decode topicURL sid pre ->
  toMessage bad topicURL sid = Err e ->
  performSubscribeRequest url_Parse net ctx topicURL sid options
  = (EvLog DebugLevel "%s Listening to %s"
       [ShortTopicURL topicURL; arg_string (topicURL +:+ "/json")]
     :: EvDo req :: fst (read_stream topicURL sid pre),
     Err e)
  /\ sent_messages (fst (performSubscribeRequest url_Parse net ctx topicURL sid options))
     = List.filter is_message_event (decoded_prefix topicURL sid pre).
Proof.
  intros Hurl Hopts Hnet Hst Hlines Hpre Hbad.
  assert (Hne : forall m, toMessage bad topicURL sid <> Ok m) by (intros m; by rewrite Hbad).
  rewrite (performSubscribeRequest_streams _ _ _ _ _ _ _ Hurl Hopts Hnet Hst).
  rewrite Hlines, read_stream_end.
  destruct (read_stream_stops topicURL sid bad pre post Hpre Hne) as [-> ->].
  rewrite Hbad. split; [reflexivity|].
  cbn [fst]. rewrite sent_messages_log, sent_messages_do. apply read_stream_sent.
Qed.

(** C10: on an attempt answered with status 200, if every line the line
    scanner returns is decoded, the attempt returns no error when the
    scanner stops, whatever the scanner's own error then is: the error
    of a body read that failed or of a line that was too long is not
    looked at. *)
Theorem stream_end_hides_scanner_error (net : Network) (ctx : Context)
    (topicURL sid : string) (options : list SubscribeOption) (req : Request)
    (resp : Response) (scanner_err : option error) :
  url_Parse (topicURL +:+ "/json") = None ->
  apply_options options (mkRequest "GET" (topicURL +:+ "/json") ∅ None ctx) = Ok req ->
  net req = Ok resp ->
  StatusCode resp = StatusOK ->
  snd (bufio_Scan (Body resp)) = scanner_err ->
  all_decode topicURL sid (fst (bufio_Scan (Body resp))) ->
  snd (performSubscribeRequest url_Parse net ctx topicURL sid options) = Ok tt.
Proof.
  intros Hurl Hopts Hnet Hst _ Hall.
  rewrite (performSubscribeRequest_streams _ _ _ _ _ _ _ Hurl Hopts Hnet Hst).
  cbn [snd]. rewrite read_stream_end. by apply all_decode_prefix.
Qed.

Variable WithPoll : SubscribeOption.

(** C5: [Poll] puts the poll option after the options supplied and runs
    the stream engine once with them; the messages the run sends are
    returned in the order sent, with no error when the run ends normally
    and with the run's error when it fails. On a stream answered with
    status 200, one request was sent, built with those options; if the
    lines are all decoded, the result is the messages of the "message"
    events in the order of arrival and no error; if a line fails to
    decode, the messages of the lines before it and the decode error. *)
Theorem Poll_collects_messages (c : Client) (net : Network) (topic topicURL : string)
    (options : list SubscribeOption) :
  expandTopicURL c topic = Ok topicURL ->
  let run := performSubscribeRequest url_Parse net context_Background topicURL EmptyString
               (options ++ [WithPoll]) in
  let result := Poll url_Parse WithPoll c net topic options in
  fst result = EvLog DebugLevel "%s Polling from topic" [ShortTopicURL topicURL] :: fst run
  /\ (snd run = Ok tt -> snd result = Ok (sent_messages (fst run), None))
  /\ (forall e, snd run = Err e -> snd result = Ok (sent_messages (fst run), Some e))
  /\ (forall req resp,
        url_Parse (topicURL +:+ "/json") = None ->
        apply_options (options ++ [WithPoll])
          (mkRequest "GET" (topicURL +:+ "/json") ∅ None context_Background) = Ok req ->
        net req = Ok resp ->
        StatusCode resp = StatusOK ->
        let lines := fst (bufio_Scan (Body resp)) in
        requests_sent (fst result) = [req]
        /\ (all_decode topicURL EmptyString lines ->
         snd result
         = Ok (List.filter is_message_event (decoded_prefix topicURL EmptyString lines),
               None))
        /\ (forall pre bad post e,
              lines = pre ++ bad :: post ->
              all_decode topicURL EmptyString pre ->
              toMessage bad topicURL EmptyString = Err e ->
              snd result
              = Ok (List.filter is_message_event (decoded_prefix topicURL EmptyString pre),
                    Some e))).
Proof.
  intros Htopic run result.
  assert (Hres : result
                 = (EvLog DebugLevel "%s Polling from topic" [ShortTopicURL topicURL] :: fst run,
                    match snd run with
                    | Ok _ => Ok (sent_messages (fst run), None)
                    | Err e => Ok (sent_messages (fst run), Some e)
                    | Panic v => Panic v
                    end)).
  { subst result. unfold Poll. rewrite Htopic. fold run.
    unfold log_Debug, emit, bind. destruct run as [evs [[]|e|v]]; reflexivity. }
  rewrite Hres. cbn [fst snd].
  split; [reflexivity|]. split; [by intros ->|]. split; [by intros e ->|].
  intros req resp Hurl Hopts Hnet Hst.
  assert (Hrun : run
                 = (EvLog DebugLevel "%s Listening to %s"
                      [ShortTopicURL topicURL; arg_string (topicURL +:+ "/json")]
                    :: EvDo req
                    :: fst (read_stream topicURL EmptyString (fst (bufio_Scan (Body resp)))),
                    snd (read_stream topicURL EmptyString (fst (bufio_Scan (Body resp))))))
    by exact (performSubscribeRequest_streams _ _ _ _ _ _ _ Hurl Hopts Hnet Hst).
  rewrite Hrun. cbn [fst snd].
  rewrite sent_messages_log, sent_messages_do, read_stream_end.
  split; [by rewrite !requests_sent_log, requests_sent_do, read_stream_no_request|].
  split.
  - intros Hall. destruct (all_decode_prefix _ _ _ Hall) as [-> _].
    by rewrite read_stream_sent.
  - intros pre bad post e Hlines Hpre Hbad.
    assert (Hne : forall m, toMessage bad topicURL EmptyString <> Ok m)
      by (intros m; by rewrite Hbad).
    rewrite Hlines.
    destruct (read_stream_stops topicURL EmptyString bad pre post Hpre Hne) as [-> ->].
    by rewrite Hbad, read_stream_sent.
Qed.

End Stream.

(** ** The publish engine and the options *)

Lemma string_take_all (n : nat) (s : string) :
  (String.length s <= n)%nat -> string_take n s = s.
Proof.
  revert n. induction s as [|c s IH]; intros n Hn; [by destruct n|].
  destruct n as [|n]; cbn in Hn; [lia|]. cbn. rewrite IH; [done|lia].
Qed.

Lemma string_take_length (n : nat) (s : string) :
  (String.length (string_take n s) <= n)%nat.
Proof.
  revert s. induction n as [|n IH]; intros s; [by destruct s|].
  destruct s as [|c s]; cbn; [lia|]. specialize (IH s). lia.
Qed.

Lemma ReadAll_LimitReader (r : reader) (n : nat) (b : string) :
  io_ReadAll (io_LimitReader r n) = Ok b ->
  b = string_take n (data r) /\ (String.length b <= n)%nat.
Proof.
  unfold io_ReadAll, io_LimitReader.
  destruct (Nat.leb_spec n (String.length (data r))) as [Hle|Hlt]; cbn.
  - intros [= <-]. split; [done|apply string_take_length].
  - destruct (read_err r); [done|]. intros [= <-].
    split; [symmetry; apply string_take_all; lia|lia].
Qed.

Lemma apply_options_app (pre post : list RequestOption) (req r : Request) :
  apply_options pre req = Ok r ->
  apply_options (pre ++ post) req = apply_options post r.
Proof.
  revert req. induction pre as [|o pre IH]; intros req; cbn.
  - by intros [= ->].
  - destruct (o req) as [req'| |]; [apply IH|done..].
Qed.

Lemma apply_options_fails (pre post : list RequestOption) (o : RequestOption)
    (req r : Request) (e : error) :
  apply_options pre req = Ok r ->
  o r = Err e ->
  apply_options (pre ++ o :: post) req = Err e.
Proof.
  intros Hpre Ho. rewrite (apply_options_app _ _ _ _ Hpre). cbn. by rewrite Ho.
Qed.

Section Publish.

Variable url_Parse : string -> option error.

Lemma PublishReader_sends (c : Client) (net : Network) (topic topicURL : string)
    (body : reader) (options : list PublishOption) (req : Request) :
  expandTopicURL c topic = Ok topicURL ->
  url_Parse topicURL = None ->
  apply_options options (mkRequest "POST" topicURL ∅ (Some body) context_Background)
  = Ok req ->
  PublishReader url_Parse c net topic body options
  = ([EvLog DebugLevel "%s Publishing message with headers %s"
        [ShortTopicURL topicURL; arg_header (Header req)];
      EvDo req],
     match net req with
     | Ok resp =>
         match io_ReadAll (io_LimitReader (Body resp) maxResponseBytes) with
         | Ok b =>
             if negb (StatusCode resp =? StatusOK) then Err (errors_New (TrimSpace b))
             else toMessage b topicURL EmptyString
         | Err e => Err e
         | Panic v => Panic v
         end
     | Err e => Err e
     | Panic v => Panic v
     end).
Proof.
  intros Htopic Hurl Hopts.
  unfold PublishReader, http_NewRequest, http_NewRequestWithContext, http_Do.
  unfold log_Debug, emit, lift, bind. rewrite Htopic. cbv beta iota.
  rewrite Hurl, Hopts.
  destruct (net req) as [resp|e|v]; [|reflexivity..].
  destruct (io_ReadAll _) as [b|e|v]; [|reflexivity..].
  destruct (negb _); [reflexivity|].
  unfold fail, ret. by destruct (toMessage b topicURL EmptyString).
Qed.

(** C2: when the options of a publish call all succeed and the request
    completes, the response body is read capped at 4096 bytes; if the
    status is not the success status (200), the call returns an error
    whose text is exactly the capped body with the white space trimmed
    off both ends; if it is, the capped body is decoded by [toMessage]
    with the resolved topic URL and the empty subscription id, and the
    message decoded, which carries that URL, that id and the capped body
    as its raw text, is returned. *)
Theorem PublishReader_reads_capped_response (c : Client) (net : Network)
    (topic topicURL : string) (body : reader) (options : list PublishOption)
    (req : Request) (resp : Response) (b : string) :
  expandTopicURL c topic = Ok topicURL ->
  url_Parse topicURL = None ->
  apply_options options (mkRequest "POST" topicURL ∅ (Some body) context_Background)
  = Ok req ->
  net req = Ok resp ->
  io_ReadAll (io_LimitReader (Body resp) maxResponseBytes) = Ok b ->
  let result := snd (PublishReader url_Parse c net topic body options) in
  b = string_take 4096 (data (Body resp))
  /\ (String.length b <= 4096)%nat
  /\ (StatusCode resp <> StatusOK ->
      result = Err (errors_New (TrimSpace b))
      /\ Error (errors_New (TrimSpace b)) = Some (TrimSpace b))
  /\ (StatusCode resp = StatusOK ->
      result = toMessage b topicURL EmptyString
      /\ forall m, result = Ok m ->
           TopicURL m = topicURL /\ SubscriptionID m = EmptyString /\ Raw m = b).
Proof.
  intros Htopic Hurl Hopts Hnet Hread result.
  destruct (ReadAll_LimitReader _ _ _ Hread) as [Hb Hlen].
  assert (Hres : result
                 = if negb (StatusCode resp =? StatusOK) then Err (errors_New (TrimSpace b))
                   else toMessage b topicURL EmptyString).
  { subst result. rewrite (PublishReader_sends _ _ _ _ _ _ _ Htopic Hurl Hopts).
    cbn [snd]. by rewrite Hnet, Hread. }
  split; [exact Hb|]. split; [exact Hlen|]. split.
  - intros Hst. rewrite Hres.
    destruct (Z.eqb_spec (StatusCode resp) StatusOK) as [Heq|_]; [by destruct Hst|].
    by split.
  - intros Hst. rewrite Hres, Hst. cbn [negb Z.eqb]. 
    change (negb (StatusOK =? StatusOK)) with false. cbv iota.
    split; [done|]. intros m Hm. by apply toMessage_stamps in Hm.
Qed.

Variable WithPoll : SubscribeOption.

(** C6: in a publish call and in a subscribe or poll attempt, the options
    are applied to the request one by one in the order supplied, each to
    the request left by those before it; if an option fails, the call
    returns that option's error, no request has been handed to the
    network, and the options after it are not applied (the call does
    what it does without them). *)
Theorem option_failure_aborts_before_network (pre post : list RequestOption)
    (o : RequestOption) (e : error) :
  (forall req r, apply_options pre req = Ok r ->
     apply_options (pre ++ o :: post) req
     = match o r with
       | Ok r' => apply_options post r'
       | Err e' => Err e'
       | Panic v => Panic v
       end)
  /\ (forall c net topic topicURL body r,
        expandTopicURL c topic = Ok topicURL ->
        url_Parse topicURL = None ->
        apply_options pre (mkRequest "POST" topicURL ∅ (Some body) context_Background)
        = Ok r ->
        o r = Err e ->
        let result := PublishReader url_Parse c net topic body (pre ++ o :: post) in
        snd result = Err e
        /\ requests_sent (fst result) = []
        /\ result = PublishReader url_Parse c net topic body (pre ++ [o]))
  /\ (forall net ctx topicURL sid r,
        url_Parse (topicURL +:+ "/json") = None ->
        apply_options pre (mkRequest "GET" (topicURL +:+ "/json") ∅ None ctx) = Ok r ->
        o r = Err e ->
        let result := performSubscribeRequest url_Parse net ctx topicURL sid
                        (pre ++ o :: post) in
        snd result = Err e
        /\ requests_sent (fst result) = []
        /\ result = performSubscribeRequest url_Parse net ctx topicURL sid (pre ++ [o]))
  /\ (forall c net topic topicURL r,
        expandTopicURL c topic = Ok topicURL ->
        url_Parse (topicURL +:+ "/json") = None ->
        apply_options pre
          (mkRequest "GET" (topicURL +:+ "/json") ∅ None context_Background) = Ok r ->
        o r = Err e ->
        let result := Poll url_Parse WithPoll c net topic (pre ++ o :: post) in
        snd result = Ok ([], Some e)
        /\ requests_sent (fst result) = []).
Proof.
  assert (Hsub : forall net ctx topicURL sid r post',
             url_Parse (topicURL +:+ "/json") = None ->
             apply_options pre (mkRequest "GET" (topicURL +:+ "/json") ∅ None ctx) = Ok r ->
             o r = Err e ->
             performSubscribeRequest url_Parse net ctx topicURL sid (pre ++ o :: post')
             = ([EvLog DebugLevel "%s Listening to %s"
                   [ShortTopicURL topicURL; arg_string (topicURL +:+ "/json")]],
                Err e)).
  { intros net ctx topicURL sid r post' Hurl Hpre Ho.
    unfold performSubscribeRequest, http_NewRequestWithContext.
    rewrite Hurl. unfold log_Debug, emit, lift, bind.
    by rewrite (apply_options_fails _ post' _ _ _ _ Hpre Ho). }
  split; [|split; [|split]].
  - intros req r Hpre. rewrite (apply_options_app _ _ _ _ Hpre). reflexivity.
  - intros c net topic topicURL body r Htopic Hurl Hpre Ho.
    assert (Hany : forall post', PublishReader url_Parse c net topic body (pre ++ o :: post')
                                 = ([], Err e)).
    { intros post'. unfold PublishReader, http_NewRequest, http_NewRequestWithContext.
      unfold lift, bind. rewrite Htopic. cbv beta iota. rewrite Hurl.
      by rewrite (apply_options_fails _ post' _ _ _ _ Hpre Ho). }
    cbn zeta. rewrite (Hany post), (Hany []). by repeat split.
  - intros net ctx topicURL sid r Hurl Hpre Ho. cbn zeta.
    rewrite (Hsub net ctx topicURL sid r post Hurl Hpre Ho).
    rewrite (Hsub net ctx topicURL sid r [] Hurl Hpre Ho). by repeat split.
  - intros c net topic topicURL r Htopic Hurl Hpre Ho. cbn zeta.
    unfold Poll. rewrite Htopic. rewrite <- app_assoc, <- app_comm_cons.
    rewrite (Hsub net context_Background topicURL EmptyString r (post ++ [WithPoll])
               Hurl Hpre Ho).
    by split.
Qed.

End Publish.

(** ** The subscription registry *)

Lemma NoDup_fmap_elem_inj {A B : Type} (f : A -> B) (l : list A) (x y : A) :
  NoDup (f <$> l) -> x ∈ l -> y ∈ l -> f x = f y -> x = y.
Proof.
  induction l as [|a l IH]; intros Hnd Hx Hy Hf; [by apply elem_of_nil in Hx|].
  rewrite fmap_cons in Hnd. apply NoDup_cons in Hnd as [Hna Hnd].
  apply elem_of_cons in Hx as [->|Hx]; apply elem_of_cons in Hy as [->|Hy]; try done.
  - destruct Hna. rewrite Hf. by apply list_elem_of_fmap_2.
  - destruct Hna. rewrite <- Hf. by apply list_elem_of_fmap_2.
  - by apply IH.
Qed.

Lemma handles_lookup (c : Client) (id : string) (sub : subscription) :
  subscriptions c !! id = Some sub -> cancel sub ∈ handles c.
Proof.
  intros H. unfold handles. apply list_elem_of_fmap. exists sub. split; [done|].
  apply list_elem_of_fmap. exists (id, sub). split; [done|].
  by apply elem_of_map_to_list.
Qed.

Lemma distinct_handles_inj (c : Client) (i j : string) (si sj : subscription) :
  distinct_handles c ->
  subscriptions c !! i = Some si ->
  subscriptions c !! j = Some sj ->
  cancel si = cancel sj -> i = j.
Proof.
  unfold distinct_handles, handles. rewrite <- list_fmap_compose.
  intros Hnd Hi Hj Hc.
  apply elem_of_map_to_list in Hi, Hj.
  by pose proof (NoDup_fmap_elem_inj _ _ _ _ Hnd Hi Hj Hc) as [= -> _].
Qed.

Lemma elem_of_canceled (rt : runtime) (ctx : nat) :
  ctx ∈ canceled rt <-> ctx ∈ cancel_calls rt.
Proof. unfold canceled. apply elem_of_list_to_set. Qed.

(** C7: [Unsubscribe] with an id that is not in the registry returns
    without error and leaves the client and the contexts as they are;
    with an id that is in the registry, it removes exactly that entry and
    calls exactly that entry's cancel function, and every other
    subscription keeps its entry and its cancellation state. (The handles
    of a registry are distinct, as they are in every registry made by
    [New], [Subscribe] and [Unsubscribe].) *)
Theorem Unsubscribe_frame (c : Client) (rt : runtime) (subscriptionID : string) :
  distinct_handles c ->
  let c' := fst (Unsubscribe c rt subscriptionID) in
  let rt' := snd (Unsubscribe c rt subscriptionID) in
  match subscriptions c !! subscriptionID with
  | None => c' = c /\ rt' = rt
  | Some sub =>
      subscriptions c' = delete subscriptionID (subscriptions c)
      /\ subscriptions c' !! subscriptionID = None
      /\ cancel_calls rt' = cancel_calls rt ++ [cancel sub]
      /\ canceled rt' = {[cancel sub]} ∪ canceled rt
      /\ (forall id, id <> subscriptionID ->
            subscriptions c' !! id = subscriptions c !! id)
      /\ (forall id other, id <> subscriptionID ->
            subscriptions c !! id = Some other ->
            cancel other <> cancel sub
            /\ (cancel other ∈ canceled rt' <-> cancel other ∈ canceled rt))
  end.
Proof.
  intros Hnd c' rt'. subst c' rt'. unfold Unsubscribe.
  destruct (subscriptions c !! subscriptionID) as [sub|] eqn:Hsub; [|done].
  cbn [fst snd subscriptions cancel_calls].
  split; [done|]. split; [apply lookup_delete_eq|]. split; [done|].
  split.
  { apply set_eq. intros x. rewrite elem_of_union, elem_of_singleton, !elem_of_canceled.
    cbn [cancel_calls]. rewrite elem_of_app, list_elem_of_singleton. tauto. }
  split; [intros id Hid; by apply lookup_delete_ne|].
  intros id other Hid Hother.
  assert (Hne : cancel other <> cancel sub).
  { intros Heq. apply Hid. exact (distinct_handles_inj c _ _ _ _ Hnd Hother Hsub Heq). }
  split; [done|].
  rewrite !elem_of_canceled. cbn [cancel_calls].
  rewrite elem_of_app, list_elem_of_singleton. tauto.
Qed.

(** The invariant holds of a new client and is kept by the two operations. *)
Lemma New_invariant (cfg : option Config) :
  distinct_handles (New cfg) /\ handles_created (New cfg) fresh_runtime.
Proof.
  unfold distinct_handles, handles_created, handles, New. cbn [subscriptions].
  rewrite map_to_list_empty. split; constructor.
Qed.

Lemma handles_delete (c : Client) (id : string) (sub : subscription) :
  subscriptions c !! id = Some sub ->
  handles c ≡ₚ cancel sub :: handles (mkClient (Messages c) (config c)
                                        (delete id (subscriptions c))).
Proof.
  intros H. unfold handles. cbn [subscriptions].
  by rewrite <- (map_to_list_delete _ _ _ H).
Qed.

Lemma handles_insert_fresh (c : Client) (id : string) (sub : subscription) :
  subscriptions c !! id = None ->
  handles (mkClient (Messages c) (config c) (<[id := sub]> (subscriptions c)))
  ≡ₚ cancel sub :: handles c.
Proof.
  intros H. unfold handles. cbn [subscriptions].
  by rewrite (map_to_list_insert _ _ _ H).
Qed.

Lemma Unsubscribe_invariant (c : Client) (rt : runtime) (id : string) :
  distinct_handles c -> handles_created c rt ->
  distinct_handles (fst (Unsubscribe c rt id))
  /\ handles_created (fst (Unsubscribe c rt id)) (snd (Unsubscribe c rt id)).
Proof.
  intros Hnd Hcr. unfold Unsubscribe.
  destruct (subscriptions c !! id) as [sub|] eqn:Hsub; [|done].
  cbn [fst snd]. unfold distinct_handles, handles_created in *.
  rewrite (handles_delete c id sub Hsub) in Hnd, Hcr.
  apply NoDup_cons in Hnd as [_ Hnd]. apply Forall_cons in Hcr as [_ Hcr].
  by split.
Qed.

Section Registry.

Variable url_Parse : string -> option error.
Variable WithPoll : SubscribeOption.

Lemma Subscribe_invariant (c : Client) (rt : runtime) (topic : string)
    (options : list SubscribeOption) (subscriptionID : string) :
  distinct_handles c -> handles_created c rt ->
  let '(_, c', rt') := Subscribe c rt topic options subscriptionID in
  distinct_handles c' /\ handles_created c' rt'.
Proof.
  intros Hnd Hcr. unfold Subscribe.
  destruct (expandTopicURL c topic) as [topicURL|e|v]; [|done..].
  set (sub := mkSubscription subscriptionID topicURL (contexts rt)).
  assert (Hfresh : forall c0, handles_created c0 rt -> contexts rt ∉ handles c0).
  { intros c0 H0 Hin. unfold handles_created in H0.
    rewrite Forall_forall in H0. specialize (H0 _ Hin). lia. }
  assert (Hgrow : forall c0, handles_created c0 rt ->
            Forall (fun h => (h < S (contexts rt))%nat) (handles c0)).
  { intros c0 H0. eapply Forall_impl; [exact H0|]. cbn. lia. }
  destruct (subscriptions c !! subscriptionID) as [old|] eqn:Hold.
  - pose (c0 := mkClient (Messages c) (config c) (delete subscriptionID (subscriptions c))).
    assert (Hnd0 : distinct_handles c0 /\ handles_created c0 rt).
    { unfold distinct_handles, handles_created in *.
      rewrite (handles_delete c _ _ Hold) in Hnd, Hcr.
      apply NoDup_cons in Hnd as [_ Hnd]. apply Forall_cons in Hcr as [_ Hcr]. done. }
    destruct Hnd0 as [Hnd0 Hcr0].
    assert (Hp : handles (mkClient (Messages c) (config c)
                            (<[subscriptionID := sub]> (subscriptions c)))
                 ≡ₚ cancel sub :: handles c0).
    { rewrite <- (insert_delete_eq (subscriptions c)).
      apply (handles_insert_fresh c0). apply lookup_delete_eq. }
    unfold distinct_handles, handles_created. rewrite Hp. cbn [contexts].
    split.
    + apply NoDup_cons. split; [by apply Hfresh|done].
    + apply Forall_cons. split; [cbn; lia|by apply Hgrow].
  - pose proof (handles_insert_fresh c subscriptionID sub Hold) as Hp.
    unfold distinct_handles, handles_created. rewrite Hp. cbn [contexts].
    split.
    + apply NoDup_cons. split; [by apply Hfresh|done].
    + apply Forall_cons. split; [cbn; lia|by apply Hgrow].
Qed.

End Registry.

(** ** The reconnect loop *)

Section Reconnect.

Variable url_Parse : string -> option error.

Lemma handleSubscribeConnLoop_runs (turns : list turn) (now : Z) (ctx : Context)
    (topicURL sid : string) (options : list SubscribeOption) :
  runs topicURL now
    (fst (handleSubscribeConnLoop url_Parse turns now ctx topicURL sid options))
    (snd (handleSubscribeConnLoop url_Parse turns now ctx topicURL sid options)).
Proof.
  revert now. induction turns as [|t rest IH]; intros now; [constructor|].
  cbn [handleSubscribeConnLoop].
  destruct (performSubscribeRequest _ _ _ _ _ _) as [evs r].
  assert (Hcase : (exists v, r = Panic v) \/ (forall v, r <> Panic v)).
  { destruct r; [right|right|left]; eauto; done. }
  destruct Hcase as [[v ->]|Hnp]; [by constructor|].
  assert (Hlt : now <= now + Z.of_N (turn_duration t)) by lia.
  destruct (turn_select t) as [waited|late] eqn:Hsel.
  - replace (match r with Panic v => _ | _ => _ end)
      with ([mkAttempt now evs r (now + Z.of_N (turn_duration t))
               (warning_for topicURL r ++ select_log topicURL (ctx_Done waited))
               (ctx_Done waited) (now + Z.of_N (turn_duration t) + Z.of_N waited)],
            Canceled (now + Z.of_N (turn_duration t) + Z.of_N waited))
      by (destruct r as [[]|e|v]; [done|done|by destruct (Hnp v)]).
    cbn [fst snd].
    apply (runs_cancel topicURL now (mkAttempt _ _ _ _ _ _ _)); try done.
    cbn. tauto.
  - specialize (IH (now + Z.of_N (turn_duration t) + retryDelay + Z.of_N late)).
    destruct (handleSubscribeConnLoop _ _ _ _ _ _ _) as [attempts st].
    replace (match r with Panic v => _ | _ => _ end)
      with (mkAttempt now evs r (now + Z.of_N (turn_duration t))
              (warning_for topicURL r ++ select_log topicURL (time_After late))
              (time_After late) (now + Z.of_N (turn_duration t) + retryDelay + Z.of_N late)
              :: attempts, st)
      by (destruct r as [[]|e|v]; [done|done|by destruct (Hnp v)]).
    cbn [fst snd] in *.
    apply (runs_retry topicURL now (mkAttempt _ _ _ _ _ _ _)); try done.
    repeat split; cbn; [done|lia].
Qed.

Lemma runs_first (topicURL : string) (now : Z) (attempts : list attempt)
    (st : loop_state) (a : attempt) :
  runs topicURL now attempts st -> attempts !! 0%nat = Some a -> began a = now.
Proof. destruct 1; cbn; intros [= <-]; done. Qed.

Lemma runs_delay (topicURL : string) (now : Z) (attempts : list attempt)
    (st : loop_state) (i : nat) (a b : attempt) :
  runs topicURL now attempts st ->
  attempts !! i = Some a -> attempts !! S i = Some b ->
  is_timer (selected a) /\ began b = left a /\ ended a + retryDelay <= began b.
Proof.
  intros Hruns. revert i. induction Hruns as [| | |now a0 attempts st H0 Hnp Hwt Hsel Hruns IH];
    intros i Ha Hb; try (destruct i; done).
  destruct i as [|i]; [|by apply (IH i)].
  cbn in Ha, Hb. injection Ha as ->.
  rewrite (runs_first _ _ _ _ _ Hruns Hb).
  destruct Hwt as (_ & _ & Hleft). split; [done|]. split; [done|].
  rewrite Hleft. destruct (selected a); [done|]. cbn. lia.
Qed.

Lemma runs_every (topicURL : string) (now : Z) (attempts : list attempt)
    (st : loop_state) (a : attempt) :
  runs topicURL now attempts st -> a ∈ attempts -> no_panic a -> well_timed topicURL a.
Proof.
  induction 1 as [|now a0 v H0 Hp| |]; intros Hin Hnp.
  - by apply elem_of_nil in Hin.
  - apply list_elem_of_singleton in Hin as ->. by destruct (Hnp v).
  - by apply list_elem_of_singleton in Hin as ->.
  - apply elem_of_cons in Hin as [->|Hin]; [done|auto].
Qed.

Lemma runs_unlimited (topicURL : string) (now : Z) (attempts : list attempt)
    (st : loop_state) :
  runs topicURL now attempts st ->
  Forall no_panic attempts -> Forall (fun a => is_timer (selected a)) attempts ->
  exists t, st = Connecting t.
Proof.
  induction 1 as [now|now a v H0 Hp|now a H0 Hnp Hwt Hsel|]; intros Hall Htimer.
  - by exists now.
  - apply Forall_cons in Hall as [Hn _]. by destruct (Hn v).
  - apply Forall_cons in Htimer as [Ht _]. by destruct Hsel.
  - apply Forall_cons in Hall as [_ Hall]. apply Forall_cons in Htimer as [_ Htimer]. auto.
Qed.

Lemma runs_canceled (topicURL : string) (now : Z) (attempts : list attempt)
    (st : loop_state) (i : nat) (a : attempt) :
  runs topicURL now attempts st ->
  attempts !! i = Some a -> no_panic a -> ~ is_timer (selected a) ->
  length attempts = S i /\ st = Canceled (left a).
Proof.
  intros Hruns. revert i.
  induction Hruns as [|now a0 v H0 Hp|now a0 H0 Hnp Hwt Hsel|now a0 attempts st H0 Hnp Hwt Hsel Hruns IH];
    intros i Ha Hn Hc.
  - done.
  - destruct i; [|done]. injection Ha as ->. by destruct (Hn v).
  - destruct i; [|done]. by injection Ha as ->.
  - destruct i as [|i]; [injection Ha as ->; by destruct Hc|].
    destruct (IH i Ha Hn Hc) as [Hlen ->]. cbn. by rewrite Hlen.
Qed.

Lemma loop_length (turns : list turn) (now : Z) (ctx : Context)
    (topicURL sid : string) (options : list SubscribeOption) :
  let attempts := fst (handleSubscribeConnLoop url_Parse turns now ctx topicURL sid options) in
  (length attempts <= length turns)%nat
  /\ (Forall no_panic attempts -> Forall (fun a => is_timer (selected a)) attempts ->
      length attempts = length turns)
  /\ Forall2 (fun a t => selected a = turn_select t) attempts (take (length attempts) turns).
Proof.
  revert now. induction turns as [|t rest IH]; intros now.
  { cbn. split; [lia|]. split; [done|constructor]. }
  cbn [handleSubscribeConnLoop].
  destruct (performSubscribeRequest _ _ _ _ _ _) as [evs r].
  destruct (turn_select t) as [waited|late] eqn:Hsel.
  - assert (Hone : exists a st, (match r with
                      | Panic v => ([mkAttempt now evs r (now + Z.of_N (turn_duration t)) []
                                       (ctx_Done waited) (now + Z.of_N (turn_duration t))],
                                    Crashed v)
                      | _ => ([mkAttempt now evs r (now + Z.of_N (turn_duration t))
                                 (match r with
                                  | Err e => [EvLog WarnLevel "%s Connection failed: %s"
                                                [ShortTopicURL topicURL; arg_error e]]
                                  | _ => []
                                  end ++ [EvLog InfoLevel "%s Connection exited"
                                            [ShortTopicURL topicURL]])
                                 (ctx_Done waited)
                                 (now + Z.of_N (turn_duration t) + Z.of_N waited)],
                              Canceled (now + Z.of_N (turn_duration t) + Z.of_N waited))
                      end) = ([a], st) /\ selected a = ctx_Done waited).
    { destruct r; eauto. }
    destruct Hone as (a & st & -> & Ha). cbn [fst length take]. split; [lia|].
    split.
    + intros _ Ht. apply Forall_cons in Ht as [Ht _]. rewrite Ha in Ht. done.
    + constructor; [by rewrite Ha|constructor].
  - specialize (IH (now + Z.of_N (turn_duration t) + retryDelay + Z.of_N late)).
    destruct (handleSubscribeConnLoop _ _ _ _ _ _ _) as [attempts st].
    cbn [fst] in IH. destruct IH as (Hle & Heq & Hsel2).
    destruct r as [[]|e|v]; cbn [fst length take].
    + split; [lia|]. split.
      * intros Hn Ht. apply Forall_cons in Hn as [_ Hn]. apply Forall_cons in Ht as [_ Ht].
        by rewrite Heq.
      * by constructor.
    + split; [lia|]. split.
      * intros Hn Ht. apply Forall_cons in Hn as [_ Hn]. apply Forall_cons in Ht as [_ Ht].
        by rewrite Heq.
      * by constructor.
    + split; [lia|]. split.
      * intros Hn _. apply Forall_cons in Hn as [Hn _]. by destruct (Hn v).
      * constructor; [done|constructor].
Qed.

(** C8: in the reconnect loop of a live subscription, an attempt is
    followed by another only through the timer of the select, so the next
    attempt begins no earlier than the fixed delay of 10 seconds after the
    attempt before it ended; after an attempt that ended, by whatever
    error or by the end of the stream, the loop does the same: it logs a
    warning if the attempt failed and waits out the select, with no limit
    on the number of attempts; and once the select receives the
    cancellation the loop has exited and makes no further attempt. *)
Theorem reconnect_loop_schedule (turns : list turn) (now : Z) (ctx : Context)
    (topicURL sid : string) (options : list SubscribeOption) :
  let attempts := fst (handleSubscribeConnLoop url_Parse turns now ctx topicURL sid options) in
  let final := snd (handleSubscribeConnLoop url_Parse turns now ctx topicURL sid options) in
  (forall i a b, attempts !! i = Some a -> attempts !! S i = Some b ->
     is_timer (selected a) /\ began b = left a /\ ended a + retryDelay <= began b)
  /\ (forall a, a ∈ attempts -> no_panic a ->
        logged a = warning_for topicURL (returned a) ++ select_log topicURL (selected a)
        /\ left a = ended a + select_wait (selected a))
  /\ (Forall no_panic attempts -> Forall (fun t => is_timer (turn_select t)) turns ->
      length attempts = length turns /\ exists t, final = Connecting t)
  /\ (forall i a, attempts !! i = Some a -> no_panic a -> ~ is_timer (selected a) ->
        length attempts = S i /\ final = Canceled (left a)).
Proof.
  intros attempts final.
  pose proof (handleSubscribeConnLoop_runs turns now ctx topicURL sid options) as Hruns.
  fold attempts final in Hruns.
  split; [intros i a b; by apply (runs_delay _ _ _ _ _ _ _ Hruns)|].
  split; [intros a Hin Hnp; by destruct (runs_every _ _ _ _ _ Hruns Hin Hnp) as (_ & ? & ?)|].
  split; [|intros i a; by apply (runs_canceled _ _ _ _ _ _ Hruns)].
  intros Hnp Htimer.
  destruct (loop_length turns now ctx topicURL sid options) as (Hle & Hlen & Hsel).
  fold attempts in Hle, Hlen, Hsel.
  assert (Hatt : Forall (fun a => is_timer (selected a)) attempts).
  { apply Forall_forall. intros a Hin.
    apply list_elem_of_lookup in Hin as [i Hi].
    destruct (Forall2_lookup_l _ _ _ _ _ Hsel Hi) as (t & Ht & ->).
    rewrite Forall_forall in Htimer. apply Htimer.
    apply list_elem_of_lookup. exists i. by apply lookup_take_Some in Ht as [? _]. }
  split; [by apply Hlen|]. by apply (runs_unlimited _ _ _ _ Hruns).
Qed.

End Reconnect.

(** ** The properties at the sample data *)

Lemma stream_forwards_message_events_witness :
  every_url_parses (sample_topicURL +:+ "/json") = None
  /\ apply_options [] sample_GET = Ok sample_GET
  /\ answering 200 (strings_NewReader sample_stream) sample_GET = Ok sample_response
  /\ StatusCode sample_response = StatusOK
  /\ sent_messages
       (fst (performSubscribeRequest every_url_parses
               (answering 200 (strings_NewReader sample_stream))
               context_Background sample_topicURL EmptyString []))
     = List.filter is_message_event
         (decoded_prefix sample_topicURL EmptyString (fst (bufio_Scan (Body sample_response)))).
Proof.
  do 4 (split; [reflexivity|]).
  apply (stream_forwards_message_events every_url_parses
           (answering 200 (strings_NewReader sample_stream)) context_Background
           sample_topicURL EmptyString [] sample_GET sample_response); reflexivity.
Defined.

Example sample_stream_lines :
  sample_stream = unlines [line_open; line_keepalive; line_message]
  /\ bufio_Scan (strings_NewReader sample_stream)
     = ([line_open; line_keepalive; line_message], None).
Proof. split; reflexivity. Qed.

(** The stream of the three sample lines delivers one message. *)
Example sample_stream_delivers_hi :
  exists m,
    sent_messages
      (fst (performSubscribeRequest every_url_parses
              (answering 200 (strings_NewReader sample_stream))
              context_Background sample_topicURL EmptyString []))
    = [m]
    /\ Message_ m = "hi" /\ ID m = "1" /\ Raw m = line_message.
Proof. eexists. split; [vm_compute; reflexivity|]. repeat split. Qed.

Lemma stream_stops_at_decode_error_witness :
  every_url_parses (sample_topicURL +:+ "/json") = None
  /\ apply_options [] sample_GET = Ok sample_GET
  /\ answering 200 (strings_NewReader broken_stream) sample_GET = Ok broken_response
  /\ StatusCode broken_response = StatusOK
  /\ fst (bufio_Scan (Body broken_response)) = [line_message] ++ line_broken :: [line_second]
  /\ all_decode sample_topicURL EmptyString [line_message]
  /\ toMessage line_broken sample_topicURL EmptyString = Err io_ErrUnexpectedEOF
  /\ snd (performSubscribeRequest every_url_parses
            (answering 200 (strings_NewReader broken_stream))
            context_Background sample_topicURL EmptyString [])
     = Err io_ErrUnexpectedEOF
  /\ sent_messages
       (fst (performSubscribeRequest every_url_parses
               (answering 200 (strings_NewReader broken_stream))
               context_Background sample_topicURL EmptyString []))
     = List.filter is_message_event
         (decoded_prefix sample_topicURL EmptyString [line_message]).
Proof.
  assert (Hpre : all_decode sample_topicURL EmptyString [line_message]).
  { constructor; [|constructor]. eexists. vm_compute. reflexivity. }
  do 5 (split; [reflexivity|]). split; [exact Hpre|]. split; [reflexivity|].
  destruct (stream_stops_at_decode_error every_url_parses
              (answering 200 (strings_NewReader broken_stream)) context_Background
              sample_topicURL EmptyString [] sample_GET broken_response
              [line_message] [line_second] line_broken io_ErrUnexpectedEOF
              eq_refl eq_refl eq_refl eq_refl eq_refl Hpre eq_refl) as [Hrun Hsent].
  split; [by rewrite Hrun|exact Hsent].
Defined.

Lemma stream_end_hides_scanner_error_witness :
  every_url_parses (sample_topicURL +:+ "/json") = None
  /\ apply_options [] sample_GET = Ok sample_GET
  /\ answering 200 (Body dropped_response) sample_GET = Ok dropped_response
  /\ StatusCode dropped_response = StatusOK
  /\ snd (bufio_Scan (Body dropped_response))
     = Some (foreign_error "connection reset by peer")
  /\ all_decode sample_topicURL EmptyString (fst (bufio_Scan (Body dropped_response)))
  /\ snd (performSubscribeRequest every_url_parses (answering 200 (Body dropped_response))
            context_Background sample_topicURL EmptyString [])
     = Ok tt.
Proof.
  assert (Hall : all_decode sample_topicURL EmptyString
                   (fst (bufio_Scan (Body dropped_response)))).
  { constructor; [|constructor]. eexists. vm_compute. reflexivity. }
  do 5 (split; [reflexivity|]). split; [exact Hall|].
  exact (stream_end_hides_scanner_error every_url_parses
           (answering 200 (Body dropped_response)) context_Background
           sample_topicURL EmptyString [] sample_GET dropped_response
           (Some (foreign_error "connection reset by peer"))
           eq_refl eq_refl eq_refl eq_refl eq_refl Hall).
Defined.

(** A line too long for the scanner ends the stream without an error. *)
Example overlong_line_ends_stream_silently :
  bufio_Scan (Body overlong_response) = ([line_message], Some bufio_ErrTooLong)
  /\ snd (performSubscribeRequest every_url_parses (answering 200 (Body overlong_response))
            context_Background sample_topicURL EmptyString [])
     = Ok tt.
Proof. split; vm_compute; reflexivity. Qed.

Lemma Poll_collects_messages_witness :
  expandTopicURL sample_client "t" = Ok sample_topicURL
  /\ snd (Poll every_url_parses sample_WithPoll sample_client
            (answering 200 (strings_NewReader sample_stream)) "t" [])
     = Ok (List.filter is_message_event
             (decoded_prefix sample_topicURL EmptyString
                (fst (bufio_Scan (Body sample_response)))),
           None).
Proof.
  split; [reflexivity|].
  destruct (Poll_collects_messages every_url_parses sample_WithPoll sample_client
              (answering 200 (strings_NewReader sample_stream)) "t" sample_topicURL []
              eq_refl) as (_ & _ & _ & Hstream).
  destruct (Hstream sample_poll_GET sample_response eq_refl eq_refl eq_refl eq_refl)
    as (_ & Hall & _).
  apply Hall. repeat constructor; eexists; vm_compute; reflexivity.
Defined.

(** [Poll] on the stream with the malformed line returns the message
    before it and the decode error. *)
Example Poll_returns_partial_result :
  exists m,
    snd (Poll every_url_parses sample_WithPoll sample_client
           (answering 200 (strings_NewReader broken_stream)) "t" [])
    = Ok ([m], Some io_ErrUnexpectedEOF)
    /\ ID m = "1".
Proof. eexists. split; [vm_compute; reflexivity|reflexivity]. Qed.

Lemma PublishReader_reads_capped_response_witness :
  expandTopicURL sample_client "mytopic" = Ok "https://ntfy.sh/mytopic"
  /\ every_url_parses "https://ntfy.sh/mytopic" = None
  /\ apply_options [] sample_POST = Ok sample_POST
  /\ answering 429 (Body quota_response) sample_POST = Ok quota_response
  /\ io_ReadAll (io_LimitReader (Body quota_response) maxResponseBytes)
     = Ok ("quota exceeded" +:+ newline)
  /\ snd (PublishReader every_url_parses sample_client (answering 429 (Body quota_response))
            "mytopic" (strings_NewReader "hello") [])
     = Err (errors_New "quota exceeded")
  /\ Error (errors_New "quota exceeded") = Some "quota exceeded".
Proof.
  do 5 (split; [reflexivity|]).
  destruct (PublishReader_reads_capped_response every_url_parses sample_client
              (answering 429 (Body quota_response)) "mytopic" "https://ntfy.sh/mytopic"
              (strings_NewReader "hello") [] sample_POST quota_response
              ("quota exceeded" +:+ newline) eq_refl eq_refl eq_refl eq_refl eq_refl)
    as (_ & _ & Hfail & _).
  apply Hfail. discriminate.
Defined.

(** A published message comes back decoded and stamped. *)
Example Publish_returns_message :
  exists m,
    snd (Publish every_url_parses sample_client
           (answering 200 (strings_NewReader sample_published)) "mytopic" "hello" [])
    = Ok m
    /\ ID m = "p1" /\ Message_ m = "hello" /\ TopicURL m = "https://ntfy.sh/mytopic"
    /\ SubscriptionID m = EmptyString /\ Raw m = sample_published.
Proof. eexists. split; [vm_compute; reflexivity|]. repeat split. Qed.

Lemma option_failure_aborts_before_network_witness :
  (snd (PublishReader every_url_parses sample_client
          (answering 200 (strings_NewReader sample_published)) "mytopic"
          (strings_NewReader "hello") (sample_pre ++ sample_failing invalid_since :: sample_post))
   = Err invalid_since
   /\ requests_sent
        (fst (PublishReader every_url_parses sample_client
                (answering 200 (strings_NewReader sample_published)) "mytopic"
                (strings_NewReader "hello") (sample_pre ++ sample_failing invalid_since :: sample_post)))
      = [])
  /\ (snd (performSubscribeRequest every_url_parses
             (answering 200 (strings_NewReader sample_stream)) context_Background
             sample_topicURL EmptyString (sample_pre ++ sample_failing invalid_since :: sample_post))
      = Err invalid_since
      /\ requests_sent
           (fst (performSubscribeRequest every_url_parses
                   (answering 200 (strings_NewReader sample_stream)) context_Background
                   sample_topicURL EmptyString (sample_pre ++ sample_failing invalid_since :: sample_post)))
         = []).
Proof.
  destruct (option_failure_aborts_before_network every_url_parses sample_WithPoll
              sample_pre sample_post (sample_failing invalid_since) invalid_since)
    as (_ & Hpublish & Hsubscribe & _).
  split.
  - destruct (Hpublish sample_client (answering 200 (strings_NewReader sample_published))
                "mytopic" "https://ntfy.sh/mytopic" (strings_NewReader "hello")
                (mkRequest "POST" "https://ntfy.sh/mytopic" (<["X-Title" := ["hello"]]> ∅)
                   (Some (strings_NewReader "hello")) context_Background)
                eq_refl eq_refl eq_refl eq_refl) as (H1 & H2 & _).
    by split.
  - destruct (Hsubscribe (answering 200 (strings_NewReader sample_stream))
                context_Background sample_topicURL EmptyString
                (mkRequest "GET" (sample_topicURL +:+ "/json") (<["X-Title" := ["hello"]]> ∅)
                   None context_Background)
                eq_refl eq_refl eq_refl) as (H1 & H2 & _).
    by split.
Defined.

(** The examples of topic resolution. *)
Example expandTopicURL_examples :
  expandTopicURL sample_client "mytopic" = Ok "https://ntfy.sh/mytopic"
  /\ expandTopicURL sample_client "myhost.lan/mytopic" = Ok "https://myhost.lan/mytopic"
  /\ expandTopicURL sample_client "https://x.example/y" = Ok "https://x.example/y"
  /\ expandTopicURL sample_client "bad topic!"
     = Err (errorString "invalid topic name: bad topic!").
Proof. repeat split. Qed.

(** A client made without a configuration panics on a short topic name. *)
Example expandTopicURL_without_config :
  expandTopicURL (New None) "mytopic" = Panic nil_dereference.
Proof. reflexivity. Qed.

Lemma Unsubscribe_frame_witness :
  distinct_handles two_subscriptions
  /\ subscriptions (fst (Unsubscribe two_subscriptions two_contexts "aaaaaaaaaa"))
     = delete "aaaaaaaaaa" (subscriptions two_subscriptions)
  /\ cancel_calls (snd (Unsubscribe two_subscriptions two_contexts "aaaaaaaaaa")) = [0%nat]
  /\ (forall other, subscriptions two_subscriptions !! "bbbbbbbbbb" = Some other ->
        cancel other ∈ canceled (snd (Unsubscribe two_subscriptions two_contexts "aaaaaaaaaa"))
        <-> cancel other ∈ canceled two_contexts).
Proof.
  assert (Hnd : distinct_handles two_subscriptions).
  { apply (bool_decide_unpack _). vm_compute. exact I. }
  split; [exact Hnd|].
  pose proof (Unsubscribe_frame two_subscriptions two_contexts "aaaaaaaaaa" Hnd) as H.
  cbv zeta in H.
  change (subscriptions two_subscriptions !! "aaaaaaaaaa")
    with (Some (mkSubscription "aaaaaaaaaa" "https://ntfy.sh/alerts" 0)) in H.
  destruct H as (Hdel & _ & Hcalls & _ & _ & Hother).
  split; [exact Hdel|]. split; [exact Hcalls|].
  intros other Hb. apply (Hother "bbbbbbbbbb" other); [discriminate|exact Hb].
Defined.

(** [Unsubscribe] with an id that was never issued changes nothing. *)
Example Unsubscribe_unknown_id :
  Unsubscribe two_subscriptions two_contexts "zzzzzzzzzz" = (two_subscriptions, two_contexts).
Proof. reflexivity. Qed.

Lemma reconnect_loop_schedule_witness :
  length (fst (handleSubscribeConnLoop every_url_parses sample_turns 0
                 (context_WithCancel 0) sample_topicURL "aaaaaaaaaa" []))
  = 3%nat
  /\ snd (handleSubscribeConnLoop every_url_parses sample_turns 0
            (context_WithCancel 0) sample_topicURL "aaaaaaaaaa" [])
     = Canceled 56005000000
  /\ (began <$> fst (handleSubscribeConnLoop every_url_parses sample_turns 0
                       (context_WithCancel 0) sample_topicURL "aaaaaaaaaa" []))
     = [0; 12000000000; 23005000000].
Proof.
  destruct (reconnect_loop_schedule every_url_parses sample_turns 0
              (context_WithCancel 0) sample_topicURL "aaaaaaaaaa" [])
    as (_ & _ & _ & Hcancel).
  assert (Hthird : exists a,
             fst (handleSubscribeConnLoop every_url_parses sample_turns 0
                    (context_WithCancel 0) sample_topicURL "aaaaaaaaaa" []) !! 2%nat = Some a
             /\ returned a = Ok tt /\ selected a = ctx_Done 3000000000
             /\ left a = 56005000000).
  { eexists. split; [vm_compute; reflexivity|]. repeat split. }
  destruct Hthird as (a & Ha & Hret & Hsel & Hleft).
  destruct (Hcancel 2%nat a Ha) as [Hlen Hfinal].
  - intros v. rewrite Hret. discriminate.
  - rewrite Hsel. intros [].
  - split; [exact Hlen|]. split; [by rewrite Hfinal, Hleft|].
    vm_compute. reflexivity.
Defined.

(** The decode errors are those of the decoder on the first JSON value of
    the line: an empty line, a value that is not an object, a truncated
    object, a field of the wrong type. *)
Example toMessage_decode_errors :
  toMessage EmptyString sample_topicURL EmptyString = Err io_EOF
  /\ toMessage "5" sample_topicURL EmptyString
     = Err (json_UnmarshalTypeError "number" "client.Message")
  /\ toMessage line_broken sample_topicURL EmptyString = Err io_ErrUnexpectedEOF
  /\ toMessage (dq "{'id':5}") sample_topicURL EmptyString
     = Err (json_UnmarshalTypeError "number" "string").
Proof. repeat split. Qed.

(** What follows the first JSON value of a line is not looked at, and
    keys match field names without regard to case. *)
Example toMessage_lenient :
  exists m,
    toMessage (dq "{'EVENT':'message','Id':'7'} trailing") sample_topicURL "s" = Ok m
    /\ Event m = "message" /\ ID m = "7"
    /\ Raw m = dq "{'EVENT':'message','Id':'7'} trailing".
Proof. eexists. split; [vm_compute; reflexivity|]. repeat split. Qed.

Example TrimSpace_examples :
  TrimSpace ("  quota exceeded " +:+ newline) = "quota exceeded"
  /\ TrimSpace "   " = EmptyString
  /\ TrimSpace "a  b" = "a  b".
Proof. repeat split. Qed.

(** ** The life of a client: invariants *)

Lemma registry_ok_New (cfg : option Config) : registry_ok (New cfg) fresh_runtime.
Proof.
  destruct (New_invariant cfg) as [Hd Hc].
  split; try done; try (intros i s; unfold New; cbn [subscriptions]; by rewrite lookup_empty).
Qed.

Lemma registry_ok_Subscribe (c : Client) (rt : runtime) (topic : string)
    (options : list SubscribeOption) (id : string) :
  registry_ok c rt ->
  registry_ok (snd (fst (Subscribe c rt topic options id))) (snd (Subscribe c rt topic options id)).
Proof.
  intros Hok.
  pose proof (Subscribe_invariant c rt topic options id (ok_distinct _ _ Hok)
                (ok_created _ _ Hok)) as Hinv.
  unfold Subscribe in *.
  destruct (expandTopicURL c topic) as [topicURL|e|v]; [|done..].
  destruct Hinv as [Hd Hc]. cbn [fst snd] in *.
  assert (Hlen := ok_goroutines _ _ Hok).
  split; cbn [subscriptions contexts cancel_calls goroutines]; try done.
  - intros i s. rewrite lookup_insert. case_decide as Hi.
    + intros [= <-]. by subst.
    + apply (ok_keys _ _ Hok).
  - intros i s. rewrite lookup_insert. case_decide as Hi.
    + intros [= <-] Hin. cbn [cancel] in Hin.
      pose proof (ok_calls_created _ _ Hok) as Hcr. rewrite Forall_forall in Hcr.
      specialize (Hcr _ Hin). lia.
    + apply (ok_live _ _ Hok).
  - apply (ok_calls _ _ Hok).
  - eapply Forall_impl; [apply (ok_calls_created _ _ Hok)|]. cbn. lia.
  - rewrite length_app. cbn. lia.
  - intros k g Hk. apply lookup_app_Some in Hk as [Hk|[Hge Hk]].
    + by apply (ok_contexts _ _ Hok).
    + rewrite Hlen in *. apply list_lookup_singleton_Some in Hk as [Hk <-].
      cbn [go_ctx]. f_equal. lia.
  - intros i s. rewrite lookup_insert. case_decide as Hi.
    + intros [= <-]. subst i. cbn [cancel sub_topicURL].
      eexists. split.
      { rewrite lookup_app_r by lia. rewrite Hlen, Nat.sub_diag. reflexivity. }
      by split.
    + intros Hs. destruct (ok_task _ _ Hok i s Hs) as (g & Hg & ? & ?).
      exists g. split; [|done]. by apply lookup_app_l_Some.
Qed.

Lemma registry_ok_Unsubscribe (c : Client) (rt : runtime) (id : string) :
  registry_ok c rt ->
  registry_ok (fst (Unsubscribe c rt id)) (snd (Unsubscribe c rt id)).
Proof.
  intros Hok.
  destruct (Unsubscribe_invariant c rt id (ok_distinct _ _ Hok) (ok_created _ _ Hok))
    as [Hd Hc].
  unfold Unsubscribe in *.
  destruct (subscriptions c !! id) as [sub|] eqn:Hsub; [|done].
  cbn [fst snd] in *.
  split; cbn [subscriptions contexts cancel_calls goroutines]; try done.
  - intros i s Hi. apply lookup_delete_Some in Hi as [_ Hi]. by apply (ok_keys _ _ Hok).
  - intros i s Hi. apply lookup_delete_Some in Hi as [Hne Hi].
    rewrite elem_of_app, list_elem_of_singleton. intros [Hin|Heq].
    + by apply (ok_live _ _ Hok i s).
    + apply Hne. symmetry.
      exact (distinct_handles_inj c _ _ _ _ (ok_distinct _ _ Hok) Hi Hsub Heq).
  - apply NoDup_app. split; [apply (ok_calls _ _ Hok)|]. split; [|apply NoDup_singleton].
    intros h Hh Hh'. apply list_elem_of_singleton in Hh' as ->.
    by apply (ok_live _ _ Hok id sub).
  - apply Forall_app. split; [apply (ok_calls_created _ _ Hok)|].
    apply Forall_singleton.
    pose proof (ok_created _ _ Hok) as Hcr. unfold handles_created in Hcr.
    rewrite Forall_forall in Hcr. apply Hcr. by apply (handles_lookup c id).
  - apply (ok_goroutines _ _ Hok).
  - apply (ok_contexts _ _ Hok).
  - intros i s Hi. apply lookup_delete_Some in Hi as [_ Hi]. by apply (ok_task _ _ Hok).
Qed.

Lemma registry_ok_call (x y : Client * runtime) :
  call x y -> registry_ok (fst x) (snd x) -> registry_ok (fst y) (snd y).
Proof.
  destruct 1; cbn [fst snd]; [apply registry_ok_Subscribe|apply registry_ok_Unsubscribe].
Qed.

Lemma registry_ok_rtc (x y : Client * runtime) :
  rtc call x y -> registry_ok (fst x) (snd x) -> registry_ok (fst y) (snd y).
Proof.
  induction 1 as [|x y z Hxy _ IH]; [done|]. intros Hx. apply IH.
  by apply (registry_ok_call x y).
Qed.

Lemma reachable_ok (c : Client) (rt : runtime) : reachable c rt -> registry_ok c rt.
Proof.
  intros [cfg Hr]. apply (registry_ok_rtc _ _ Hr). apply registry_ok_New.
Qed.


(** ** The life of a client: what a user can rely on *)

(** X1: in every state that calls of [Subscribe] and [Unsubscribe] reach
    from a new client, each entry of the registry is stored under its own
    id and holds the cancel function of a context that has been created
    and has not been canceled; no two entries hold the same cancel
    function; and no cancel function has been called twice. *)
Theorem reachable_registry_live (c : Client) (rt : runtime) :
  reachable c rt ->
  (forall i s, subscriptions c !! i = Some s ->
     sub_ID s = i /\ (cancel s ∉ canceled rt) /\ (cancel s < contexts rt)%nat)
  /\ (forall i j si sj, subscriptions c !! i = Some si -> subscriptions c !! j = Some sj ->
        cancel si = cancel sj -> i = j)
  /\ NoDup (cancel_calls rt).
Proof.
  intros Hr. pose proof (reachable_ok c rt Hr) as Hok.
  split; [|split].
  - intros i s Hs. split; [by apply (ok_keys _ _ Hok)|]. split.
    + rewrite elem_of_canceled. by apply (ok_live _ _ Hok i).
    + pose proof (ok_created _ _ Hok) as Hcr. unfold handles_created in Hcr.
      rewrite Forall_forall in Hcr. apply Hcr. by apply (handles_lookup c i).
  - intros i j si sj. apply distinct_handles_inj. apply (ok_distinct _ _ Hok).
  - apply (ok_calls _ _ Hok).
Qed.

(** X2: in every state reached from a new client, one goroutine has been
    started for each context created, and for each entry of the registry
    exactly one goroutine runs with the entry's context: the one started
    with the entry's id and topic URL. *)
Theorem reachable_one_task_each (c : Client) (rt : runtime) :
  reachable c rt ->
  length (goroutines rt) = contexts rt
  /\ forall i s, subscriptions c !! i = Some s ->
       (exists g, goroutines rt !! cancel s = Some g
                  /\ go_ctx g = context_WithCancel (cancel s)
                  /\ go_subscriptionID g = i /\ go_topicURL g = sub_topicURL s)
       /\ (forall k g, goroutines rt !! k = Some g ->
             go_ctx g = context_WithCancel (cancel s) -> k = cancel s).
Proof.
  intros Hr. pose proof (reachable_ok c rt Hr) as Hok.
  split; [apply (ok_goroutines _ _ Hok)|].
  intros i s Hs. split.
  - destruct (ok_task _ _ Hok i s Hs) as (g & Hg & Hid & Hurl).
    exists g. split; [done|]. split; [by apply (ok_contexts _ _ Hok)|done].
  - intros k g Hk Hctx. rewrite (ok_contexts _ _ Hok k g Hk) in Hctx. by injection Hctx.
Qed.

Lemma handles_Subscribe_subset (c : Client) (rt : runtime) (topic : string)
    (options : list SubscribeOption) (id : string) (h : nat) :
  h ∈ handles (snd (fst (Subscribe c rt topic options id))) ->
  h = contexts rt \/ h ∈ handles c.
Proof.
  unfold Subscribe. destruct (expandTopicURL c topic) as [u|e|v]; cbn [fst snd]; auto.
  set (sub := mkSubscription id u (contexts rt)).
  destruct (subscriptions c !! id) as [old|] eqn:Hold.
  - pose (c0 := mkClient (Messages c) (config c) (delete id (subscriptions c))).
    assert (Hp : handles (mkClient (Messages c) (config c) (<[id := sub]> (subscriptions c)))
                 ≡ₚ cancel sub :: handles c0).
    { rewrite <- (insert_delete_eq (subscriptions c)).
      apply (handles_insert_fresh c0). apply lookup_delete_eq. }
    rewrite Hp, (handles_delete c id old Hold). fold c0.
    rewrite !elem_of_cons. cbn [cancel]. tauto.
  - rewrite (handles_insert_fresh c id sub Hold), elem_of_cons. cbn [cancel]. tauto.
Qed.

Lemma handles_Unsubscribe_subset (c : Client) (rt : runtime) (id : string) (h : nat) :
  h ∈ handles (fst (Unsubscribe c rt id)) -> h ∈ handles c.
Proof.
  unfold Unsubscribe. destruct (subscriptions c !! id) as [sub|] eqn:Hsub; [|done].
  cbn [fst]. rewrite (handles_delete c id sub Hsub), elem_of_cons. tauto.
Qed.

(** A context that no entry of the registry holds is never canceled. *)
Lemma dropped_never_canceled (x y : Client * runtime) (h : nat) :
  rtc call x y ->
  (h < contexts (snd x))%nat -> h ∉ handles (fst x) -> h ∉ cancel_calls (snd x) ->
  (h < contexts (snd y))%nat /\ (h ∉ handles (fst y)) /\ (h ∉ cancel_calls (snd y)).
Proof.
  induction 1 as [|x y z Hxy _ IH]; [done|]. intros Hlt Hh Hc.
  apply IH; destruct Hxy as [c rt topic options id|c rt id]; cbn [fst snd] in *.
  - unfold Subscribe. destruct (expandTopicURL c topic); cbn; lia.
  - unfold Unsubscribe. by destruct (subscriptions c !! id).
  - intros Hin. apply handles_Subscribe_subset in Hin as [->|Hin]; [lia|done].
  - intros Hin. by apply handles_Unsubscribe_subset in Hin.
  - unfold Subscribe. by destruct (expandTopicURL c topic).
  - unfold Unsubscribe. destruct (subscriptions c !! id) as [sub|] eqn:Hsub; [|done].
    cbn [snd cancel_calls]. rewrite elem_of_app, list_elem_of_singleton.
    intros [Hin| ->]; [done|]. apply Hh. by apply (handles_lookup c id).
Qed.

(** X3: [Subscribe] does not check that the id it drew is unused. When the
    id is already in the registry, the entry is overwritten, and whatever
    calls follow, the context of the overwritten entry is never canceled:
    no entry holds its cancel function any more, and its goroutine
    remains. *)
Theorem Subscribe_collision_leaks (c : Client) (rt : runtime) (topic topicURL : string)
    (options : list SubscribeOption) (id : string) (old : subscription)
    (c' : Client) (rt' : runtime) :
  reachable c rt ->
  subscriptions c !! id = Some old ->
  expandTopicURL c topic = Ok topicURL ->
  rtc call (snd (fst (Subscribe c rt topic options id)), snd (Subscribe c rt topic options id))
    (c', rt') ->
  (cancel old ∉ canceled rt')
  /\ (forall i s, subscriptions c' !! i = Some s -> cancel s <> cancel old)
  /\ exists g, goroutines rt' !! cancel old = Some g
               /\ go_ctx g = context_WithCancel (cancel old).
Proof.
  intros Hr Hold Htopic Hsteps.
  pose proof (reachable_ok c rt Hr) as Hok.
  assert (Hlt : (cancel old < contexts rt)%nat).
  { pose proof (ok_created _ _ Hok) as Hcr. unfold handles_created in Hcr.
    rewrite Forall_forall in Hcr. apply Hcr. by apply (handles_lookup c id). }
  pose proof (registry_ok_Subscribe c rt topic options id Hok) as Hok1.
  pose proof (registry_ok_rtc _ _ Hsteps Hok1) as Hok'. cbn [fst snd] in Hok'.
  destruct (dropped_never_canceled _ _ (cancel old) Hsteps) as (Hlt' & Hh' & Hc').
  - cbn [fst snd]. unfold Subscribe. rewrite Htopic. cbn. lia.
  - cbn [fst snd]. unfold Subscribe. rewrite Htopic. cbn [fst snd].
    set (sub := mkSubscription id topicURL (contexts rt)).
    pose (c0 := mkClient (Messages c) (config c) (delete id (subscriptions c))).
    assert (Hp : handles (mkClient (Messages c) (config c) (<[id := sub]> (subscriptions c)))
                 ≡ₚ cancel sub :: handles c0).
    { rewrite <- (insert_delete_eq (subscriptions c)).
      apply (handles_insert_fresh c0). apply lookup_delete_eq. }
    rewrite Hp, elem_of_cons. intros [Heq|Hin]; [unfold sub in Heq; cbn [cancel] in Heq; lia|].
    pose proof (ok_distinct _ _ Hok) as Hnd. unfold distinct_handles in Hnd.
    rewrite (handles_delete c id old Hold) in Hnd. fold c0 in Hnd.
    by apply NoDup_cons in Hnd as [Hnd _].
  - cbn [fst snd]. unfold Subscribe. rewrite Htopic. cbn [fst snd cancel_calls].
    by apply (ok_live _ _ Hok id old).
  - cbn [fst snd] in *. split; [by rewrite elem_of_canceled|]. split.
    + intros i s Hs Heq. apply Hh'. rewrite <- Heq. by apply (handles_lookup c' i).
    + destruct (lookup_lt_is_Some_2 (goroutines rt') (cancel old)) as [g Hg].
      { by rewrite (ok_goroutines _ _ Hok'). }
      exists g. split; [done|]. by apply (ok_contexts _ _ Hok').
Qed.

(** X4: [Subscribe] with an unused id returns that id, and [Unsubscribe]
    with the id returned gives back the client as it was; what is left
    beside it is one more context, canceled, and the goroutine that was
    started for it. *)
Theorem Subscribe_Unsubscribe_round_trip (c : Client) (rt : runtime)
    (topic topicURL : string) (options : list SubscribeOption) (id : string) :
  subscriptions c !! id = None ->
  expandTopicURL c topic = Ok topicURL ->
  let after := Subscribe c rt topic options id in
  let back := Unsubscribe (snd (fst after)) (snd after) id in
  snd (fst (fst after)) = Ok id
  /\ fst back = c
  /\ cancel_calls (snd back) = cancel_calls rt ++ [contexts rt]
  /\ contexts (snd back) = S (contexts rt)
  /\ goroutines (snd back)
     = goroutines rt ++ [mkGoroutine (context_WithCancel (contexts rt)) topicURL id options].
Proof.
  intros Hfresh Htopic after back. subst back after.
  unfold Subscribe. rewrite Htopic. cbn [fst snd].
  unfold Unsubscribe. cbn [subscriptions]. rewrite lookup_insert_eq.
  cbn [fst snd subscriptions cancel_calls contexts goroutines cancel Messages config].
  rewrite delete_insert_id by done.
  destruct c. by repeat split.
Qed.

(** X5: [Unsubscribe] twice with the same id does what [Unsubscribe] once
    does; [Unsubscribe] with two different ids leaves the same registry,
    the same canceled contexts and the same goroutines in either order. *)
Theorem Unsubscribe_idempotent_commutes (c : Client) (rt : runtime) (i j : string) :
  let once := Unsubscribe c rt i in
  Unsubscribe (fst once) (snd once) i = once
  /\ let ij := Unsubscribe (fst once) (snd once) j in
     let ji := Unsubscribe (fst (Unsubscribe c rt j)) (snd (Unsubscribe c rt j)) i in
     i <> j ->
     fst ij = fst ji /\ canceled (snd ij) = canceled (snd ji)
     /\ contexts (snd ij) = contexts (snd ji) /\ goroutines (snd ij) = goroutines (snd ji).
Proof.
  cbn zeta. split.
  - unfold Unsubscribe at 2 3 4.
    destruct (subscriptions c !! i) as [si|] eqn:Hi; cbn [fst snd].
    + unfold Unsubscribe. cbn [subscriptions]. by rewrite lookup_delete_eq.
    + unfold Unsubscribe. by rewrite Hi.
  - intros Hne. unfold Unsubscribe.
    destruct (subscriptions c !! i) as [si|] eqn:Hi;
      destruct (subscriptions c !! j) as [sj|] eqn:Hj;
      cbn [fst snd subscriptions];
      rewrite ?lookup_delete_ne by done; rewrite ?Hi, ?Hj;
      cbn [fst snd subscriptions cancel_calls contexts goroutines Messages config];
      try done.
    split; [by rewrite delete_delete|]. split; [|done].
    apply set_eq. intros x. rewrite !elem_of_canceled. cbn [cancel_calls].
    rewrite !elem_of_app, !list_elem_of_singleton. tauto.
Qed.


(** ** The stream engine on every input *)

Lemma decoded_prefix_stamped (u sid : string) (lines : list string) (m : Message) :
  m ∈ decoded_prefix u sid lines ->
  TopicURL m = u /\ SubscriptionID m = sid /\ Raw m ∈ lines.
Proof.
  induction lines as [|l rest IH]; cbn [decoded_prefix]; [by intros ?%elem_of_nil|].
  destruct (toMessage l u sid) as [m'| |] eqn:Hm; try by intros ?%elem_of_nil.
  intros [->|Hin]%elem_of_cons.
  - destruct (toMessage_stamps _ _ _ _ Hm) as (? & ? & ->). repeat split; try done. left.
  - destruct (IH Hin) as (? & ? & ?). repeat split; try done. by right.
Qed.

Lemma read_stream_sent_stamped (u sid : string) (lines : list string) (m : Message) :
  m ∈ sent_messages (fst (read_stream u sid lines)) ->
  stamped u sid m /\ Raw m ∈ lines.
Proof.
  rewrite read_stream_sent. intros Hin. apply list_elem_of_In, filter_In in Hin as [Hin Hev].
  apply list_elem_of_In, decoded_prefix_stamped in Hin as (? & ? & ?).
  unfold is_message_event in Hev. apply String.eqb_eq in Hev. by repeat split.
Qed.

Section StreamCases.

Variable url_Parse : string -> option error.

(** The ways [performSubscribeRequest] runs. *)
Lemma performSubscribeRequest_cases (net : Network) (ctx : Context)
    (topicURL sid : string) (options : list SubscribeOption) :
  let listening := EvLog DebugLevel "%s Listening to %s"
                     [ShortTopicURL topicURL; arg_string (topicURL +:+ "/json")] in
  performSubscribeRequest url_Parse net ctx topicURL sid options
  = match url_Parse (topicURL +:+ "/json") with
    | Some e => ([listening], Err e)
    | None =>
        match apply_options options (mkRequest "GET" (topicURL +:+ "/json") ∅ None ctx) with
        | Err e => ([listening], Err e)
        | Panic v => ([listening], Panic v)
        | Ok req =>
            match net req with
            | Err e => ([listening; EvDo req], Err e)
            | Panic v => ([listening; EvDo req], Panic v)
            | Ok resp =>
                if negb (StatusCode resp =? StatusOK) then
                  ([listening; EvDo req],
                   match io_ReadAll (io_LimitReader (Body resp) maxResponseBytes) with
                   | Ok b => Err (errors_New (TrimSpace b))
                   | Err e => Err e
                   | Panic v => Panic v
                   end)
                else
                  (listening :: EvDo req
                     :: fst (read_stream topicURL sid (fst (bufio_Scan (Body resp)))),
                   snd (read_stream topicURL sid (fst (bufio_Scan (Body resp)))))
            end
        end
    end.
Proof.
  cbn zeta. unfold performSubscribeRequest, http_NewRequestWithContext, http_Do.
  unfold log_Debug, emit, lift, bind, fail.
  destruct (url_Parse _) as [e|]; [reflexivity|].
  destruct (apply_options _ _) as [req|e|v]; [|reflexivity..].
  destruct (net req) as [resp|e|v]; [|reflexivity..].
  destruct (negb _).
  - by destruct (io_ReadAll _).
  - by destruct (read_stream _ _ _).
Qed.

Lemma performSubscribeRequest_stamped (net : Network) (ctx : Context)
    (topicURL sid : string) (options : list SubscribeOption) (m : Message) :
  m ∈ sent_messages (fst (performSubscribeRequest url_Parse net ctx topicURL sid options)) ->
  stamped topicURL sid m.
Proof.
  rewrite performSubscribeRequest_cases. cbn zeta.
  destruct (url_Parse _) as [e|]; [by intros ?%elem_of_nil|].
  destruct (apply_options _ _) as [req|e|v]; [|by intros ?%elem_of_nil..].
  destruct (net req) as [resp|e|v]; [|by intros ?%elem_of_nil..].
  destruct (negb _); cbn [fst]; [by intros ?%elem_of_nil|].
  rewrite sent_messages_log, sent_messages_do.
  intros Hm. by apply read_stream_sent_stamped in Hm as [? _].
Qed.

Lemma performSubscribeRequest_one_request (net : Network) (ctx : Context)
    (topicURL sid : string) (options : list SubscribeOption) :
  (length (requests_sent
     (fst (performSubscribeRequest url_Parse net ctx topicURL sid options))) <= 1)%nat.
Proof.
  rewrite performSubscribeRequest_cases. cbn zeta.
  destruct (url_Parse _) as [e|]; [cbn; lia|].
  destruct (apply_options _ _) as [req|e|v]; [|cbn; lia..].
  destruct (net req) as [resp|e|v]; [|cbn; lia..].
  destruct (negb _); cbn [fst]; [cbn; lia|].
  rewrite requests_sent_log, requests_sent_do, read_stream_no_request. cbn. lia.
Qed.

(** X11: [performSubscribeRequest], on every input: every message it sends
    carries the topic URL and the subscription id of the call and the
    event "message"; it hands at most one request to the network; and it
    sends a message only if one request was made and answered with status
    200, the raw text of each message being a line of the body. *)
Theorem performSubscribeRequest_sends_stamped (net : Network) (ctx : Context)
    (topicURL sid : string) (options : list SubscribeOption) :
  let evs := fst (performSubscribeRequest url_Parse net ctx topicURL sid options) in
  (forall m, m ∈ sent_messages evs -> stamped topicURL sid m)
  /\ (length (requests_sent evs) <= 1)%nat
  /\ (sent_messages evs <> [] ->
      exists req resp, requests_sent evs = [req] /\ net req = Ok resp
                       /\ StatusCode resp = StatusOK
                       /\ forall m, m ∈ sent_messages evs ->
                            Raw m ∈ fst (bufio_Scan (Body resp))).
Proof.
  intros evs. subst evs. rewrite performSubscribeRequest_cases. cbn zeta.
  destruct (url_Parse _) as [e|].
  { cbn. split; [by intros m ?%elem_of_nil|]. split; [lia|done]. }
  destruct (apply_options _ _) as [req|e|v];
    [|cbn; (split; [by intros m ?%elem_of_nil|]); (split; [lia|done])..].
  destruct (net req) as [resp|e|v] eqn:Hnet;
    [|cbn; (split; [by intros m ?%elem_of_nil|]); (split; [lia|done])..].
  destruct (Z.eqb_spec (StatusCode resp) StatusOK) as [Hst|Hst]; cbn [negb fst].
  - rewrite sent_messages_log, sent_messages_do, requests_sent_log, requests_sent_do,
      read_stream_no_request.
    split; [intros m Hm; by apply read_stream_sent_stamped in Hm as [? _]|].
    split; [cbn; lia|]. intros _. exists req, resp. repeat split; try done.
    intros m Hm. by apply read_stream_sent_stamped in Hm as [_ ?].
  - cbn. split; [by intros m ?%elem_of_nil|]. split; [lia|done].
Qed.

(** X12: a subscribe request that is answered with a status other than 200
    returns an error whose text is the first 4096 bytes of the body with
    the white space trimmed off both ends; no message is sent, and one
    request was made. *)
Theorem rejected_stream_request (net : Network) (ctx : Context) (topicURL sid : string)
    (options : list SubscribeOption) (req : Request) (resp : Response) (b : string) :
  url_Parse (topicURL +:+ "/json") = None ->
  apply_options options (mkRequest "GET" (topicURL +:+ "/json") ∅ None ctx) = Ok req ->
  net req = Ok resp ->
  StatusCode resp <> StatusOK ->
  io_ReadAll (io_LimitReader (Body resp) maxResponseBytes) = Ok b ->
  let run := performSubscribeRequest url_Parse net ctx topicURL sid options in
  snd run = Err (errors_New (TrimSpace (string_take 4096 (data (Body resp)))))
  /\ sent_messages (fst run) = []
  /\ requests_sent (fst run) = [req].
Proof.
  intros Hurl Hopts Hnet Hst Hread run. subst run.
  rewrite performSubscribeRequest_cases. cbn zeta. rewrite Hurl, Hopts, Hnet, Hread.
  destruct (ReadAll_LimitReader _ _ _ Hread) as [-> _].
  destruct (Z.eqb_spec (StatusCode resp) StatusOK) as [Heq|_]; [by destruct Hst|].
  cbn [negb fst snd]. by repeat split.
Qed.

End StreamCases.


(** ** The lines of a stream *)

Lemma string_rev_append_forallb (p : ascii -> bool) (s acc : string) :
  string_forallb p (string_rev_append s acc) = string_forallb p s && string_forallb p acc.
Proof.
  revert acc. induction s as [|c s IH]; intros acc; [done|].
  cbn [string_rev_append string_forallb]. rewrite IH. cbn [string_forallb].
  destruct (p c), (string_forallb p s); done.
Qed.

Lemma string_rev_append_length (s acc : string) :
  String.length (string_rev_append s acc) = (String.length s + String.length acc)%nat.
Proof.
  revert acc. induction s as [|c s IH]; intros acc; [done|].
  cbn [string_rev_append String.length]. rewrite IH. cbn. lia.
Qed.

Lemma dropCR_forallb (p : ascii -> bool) (cur : string) :
  string_forallb p cur = true -> string_forallb p (dropCR cur) = true.
Proof.
  destruct cur as [|c rest]; [done|]. cbn [dropCR string_forallb].
  intros [Hc Hrest]%andb_true_iff. unfold string_rev.
  destruct (Ascii.eqb c CR); rewrite string_rev_append_forallb; cbn [string_forallb];
    by rewrite ?Hc, Hrest.
Qed.

Lemma dropCR_length (cur : string) : (String.length (dropCR cur) <= String.length cur)%nat.
Proof.
  destruct cur as [|c rest]; [done|]. cbn [dropCR]. unfold string_rev.
  destruct (Ascii.eqb c CR); rewrite string_rev_append_length; cbn; lia.
Qed.

(** What the line scanner returns: tokens without a newline, shorter than
    its buffer, the same whatever the reader's own error; and as its
    error that of the reader, or that of a line too long. *)
Lemma ScanLines_tokens (cur : string) (n : N) (bytes : string) (e : option error)
    (t : string) :
  string_forallb (fun c => negb (Ascii.eqb c LF)) cur = true ->
  N.of_nat (String.length cur) = n ->
  (n < MaxScanTokenSize)%N ->
  t ∈ fst (ScanLines cur n bytes e) ->
  string_forallb (fun c => negb (Ascii.eqb c LF)) t = true
  /\ (N.of_nat (String.length t) < MaxScanTokenSize)%N.
Proof.
  revert cur n. induction bytes as [|c rest IH]; intros cur n Hcur Hn Hlt; cbn [ScanLines].
  - destruct (n =? 0)%N; cbn [fst]; [by intros ?%elem_of_nil|].
    intros ->%list_elem_of_singleton. split; [by apply dropCR_forallb|].
    pose proof (dropCR_length cur). lia.
  - destruct (Ascii.eqb c LF) eqn:Hc.
    + specialize (IH EmptyString 0%N eq_refl eq_refl eq_refl).
      destruct (ScanLines EmptyString 0 rest e) as [tokens e']. cbn [fst] in *.
      intros [->|Hin]%elem_of_cons; [|by apply IH].
      split; [by apply dropCR_forallb|]. pose proof (dropCR_length cur). lia.
    + destruct (N.leb_spec MaxScanTokenSize (n + 1)) as [_|Hfit];
        [by intros ?%elem_of_nil|].
      apply IH; [cbn [string_forallb]; by rewrite Hc|cbn [String.length]; lia|done].
Qed.

Lemma ScanLines_error (cur : string) (n : N) (bytes : string) (e e' : option error) :
  fst (ScanLines cur n bytes e) = fst (ScanLines cur n bytes e')
  /\ (snd (ScanLines cur n bytes e) = e
      \/ snd (ScanLines cur n bytes e) = Some bufio_ErrTooLong).
Proof.
  revert cur n. induction bytes as [|c rest IH]; intros cur n; cbn [ScanLines].
  - destruct (n =? 0)%N; cbn; auto.
  - destruct (Ascii.eqb c LF).
    + destruct (IH EmptyString 0%N) as [Ht He].
      destruct (ScanLines EmptyString 0 rest e), (ScanLines EmptyString 0 rest e').
      cbn [fst snd] in *. by rewrite Ht.
    + destruct (MaxScanTokenSize <=? n + 1)%N; [cbn; auto|apply IH].
Qed.

Lemma decoded_prefix_decodes (u sid : string) (lines : list string) (m : Message) :
  m ∈ decoded_prefix u sid lines -> toMessage (Raw m) u sid = Ok m.
Proof.
  induction lines as [|l rest IH]; cbn [decoded_prefix]; [by intros ?%elem_of_nil|].
  destruct (toMessage l u sid) as [m'| |] eqn:Hm; try by intros ?%elem_of_nil.
  intros [->|Hin]%elem_of_cons; [|by apply IH].
  by destruct (toMessage_stamps _ _ _ _ Hm) as (_ & _ & ->).
Qed.

Section StreamLines.

Variable url_Parse : string -> option error.


(** X14: on status 200 the stream engine does not see how the body ends: a
    body that ends with a read error gives the same events and the same
    result as the same bytes ending normally. *)
Theorem stream_ignores_read_error (net net' : Network) (ctx : Context)
    (topicURL sid : string) (options : list SubscribeOption) (req : Request)
    (resp : Response) (e' : option error) :
  apply_options options (mkRequest "GET" (topicURL +:+ "/json") ∅ None ctx) = Ok req ->
  net req = Ok resp ->
  net' req = Ok (mkResponse (StatusCode resp) (mkReader (data (Body resp)) e')) ->
  StatusCode resp = StatusOK ->
  performSubscribeRequest url_Parse net ctx topicURL sid options
  = performSubscribeRequest url_Parse net' ctx topicURL sid options.
Proof.
  intros Hopts Hnet Hnet' Hst. rewrite !performSubscribeRequest_cases. cbn zeta.
  rewrite Hopts, Hnet, Hnet'. cbn [StatusCode Body]. rewrite Hst.
  change (negb (StatusOK =? StatusOK)) with false. cbv iota.
  unfold bufio_Scan. cbn [data read_err].
  by destruct (ScanLines_error EmptyString 0 (data (Body resp)) (read_err (Body resp)) e')
    as [-> _].
Qed.

End StreamLines.


(** ** The errors of the decoder *)

Lemma scan_step_syntax (s : scanner) (c : ascii) :
  syntax_only (scan_err s) -> syntax_only (scan_err (snd (scan_step s c))).
Proof.
  destruct s as [st ps err]. intros Herr.
  unfold scan_step, do_stateBeginValue, do_stateBeginString, do_state0, do_stateESign,
    do_stateEndValue, do_stateEndTop, expect_letter, pushParseState, popParseState,
    scanner_error, with_step.
  cbn [step parseState scan_err].
  destruct st; repeat (case_match; cbn [snd scan_err tl parseState step]); done.
Qed.

Lemma readValue_errors (sc : scanner) (b : builder) (nonSpace : bool) (buf : string)
    (e : error) :
  syntax_only (scan_err sc) ->
  readValue sc b nonSpace buf = inl e ->
  (e = io_EOF /\ nonSpace = false) \/ e = io_ErrUnexpectedEOF
  \/ exists c context, e = json_SyntaxError c context.
Proof.
  assert (Hfin : forall b', finished b' = inl e -> e = io_ErrUnexpectedEOF).
  { intros b'. unfold finished. destruct (top_value _); [done|]. by intros [= <-]. }
  revert sc b. induction buf as [|c rest IH]; intros sc b Hsc; cbn [readValue].
  - destruct (is_scanEnd _); [intros H; right; left; by apply (Hfin b)|].
    destruct nonSpace; intros [= <-]; auto.
  - pose proof (scan_step_syntax sc c Hsc) as Hsc'.
    destruct (scan_step sc c) as [op sc']. cbn [snd] in Hsc'.
    destruct op; try (by apply IH).
    + destruct (is_scanEnd _); [intros H; right; left; by apply (Hfin _ H)|by apply IH].
    + destruct (is_scanEnd _); [intros H; right; left; by apply (Hfin _ H)|by apply IH].
    + intros H; right; left; by apply (Hfin _ H).
    + destruct (scan_err sc') as [[]|]; try done; intros [= <-]; right; right; eauto.
Qed.

Lemma readValue_blank (sc : scanner) (b : builder) (buf : string) :
  step sc = stateBeginValue ->
  string_forallb isSpace buf = true ->
  readValue sc b false buf = inl io_EOF.
Proof.
  intros Hst. revert b. induction buf as [|c rest IH]; intros b; cbn [readValue string_forallb].
  - intros _. unfold scan_step, do_stateBeginValue. by rewrite Hst.
  - intros [Hc Hrest]%andb_true_iff.
    unfold scan_step, do_stateBeginValue. rewrite Hst, Hc. by apply IH.
Qed.

Lemma saveError_type_only (saved : option error) (value gotype : string) :
  type_only saved -> type_only (saveError saved (json_UnmarshalTypeError value gotype)).
Proof. by destruct saved. Qed.

Lemma decode_string_type_only (old : string) (v : jvalue) (saved : option error) :
  type_only saved -> type_only (snd (decode_string old v saved)).
Proof. intros H. destruct v; cbn; try done; by apply saveError_type_only. Qed.

Lemma decode_int_type_only (gotype : string) (old : Z) (v : jvalue) (saved : option error) :
  type_only saved -> type_only (snd (decode_int gotype old v saved)).
Proof.
  intros H. destruct v; cbn [decode_int snd]; try done; try by apply saveError_type_only.
  destruct (ParseInt64 lit); [done|by apply saveError_type_only].
Qed.

Lemma decode_string_items_type_only (items : list jvalue) (mem : list string)
    (saved : option error) :
  type_only saved -> type_only (snd (decode_string_items items mem saved)).
Proof.
  revert mem saved. induction items as [|v vs IH]; intros mem saved H; [done|].
  cbn [decode_string_items].
  pose proof (decode_string_type_only (hd EmptyString mem) v saved H) as H1.
  destruct (decode_string _ v saved) as [x saved1]. cbn [snd] in H1.
  specialize (IH (tl mem) saved1 H1).
  by destruct (decode_string_items vs (tl mem) saved1).
Qed.

Lemma decode_string_slice_type_only (old mem : list string) (v : jvalue)
    (saved : option error) :
  type_only saved -> type_only (snd (decode_string_slice old mem v saved)).
Proof.
  intros H. destruct v; cbn [decode_string_slice snd]; try done;
    try by apply saveError_type_only.
  destruct items as [|v vs]; [done|].
  pose proof (decode_string_items_type_only (v :: vs) mem saved H) as H1.
  by destruct (decode_string_items (v :: vs) mem saved).
Qed.

Lemma decode_attachment_field_type_only (f : attachment_field) (a : Attachment)
    (v : jvalue) (saved : option error) :
  type_only saved -> type_only (snd (decode_attachment_field f a v saved)).
Proof.
  intros H. destruct f; cbn [decode_attachment_field].
  - pose proof (decode_string_type_only (Name a) v saved H). by destruct (decode_string _ _ _).
  - pose proof (decode_string_type_only (Type_ a) v saved H). by destruct (decode_string _ _ _).
  - pose proof (decode_int_type_only "int64" (Size a) v saved H). by destruct (decode_int _ _ _ _).
  - pose proof (decode_int_type_only "int64" (Expires a) v saved H).
    by destruct (decode_int _ _ _ _).
  - pose proof (decode_string_type_only (URL a) v saved H). by destruct (decode_string _ _ _).
Qed.

Lemma decode_attachment_members_type_only (ms : list (string * jvalue)) (a : Attachment)
    (saved : option error) :
  type_only saved -> type_only (snd (decode_attachment_members ms a saved)).
Proof.
  revert a saved. induction ms as [|[k v] ms IH]; intros a saved H; [done|].
  cbn [decode_attachment_members].
  destruct (find_field _ _) as [f|]; [|by apply IH].
  pose proof (decode_attachment_field_type_only f a v saved H) as H1.
  destruct (decode_attachment_field f a v saved) as [a1 saved1]. by apply IH.
Qed.

Lemma decode_attachment_type_only (old : option Attachment) (v : jvalue)
    (saved : option error) :
  type_only saved -> type_only (snd (decode_attachment old v saved)).
Proof.
  intros H. destruct v; cbn [decode_attachment snd]; try done;
    try by apply saveError_type_only.
  pose proof (decode_attachment_members_type_only members (default zero_Attachment old)
                saved H).
  by destruct (decode_attachment_members _ _ _).
Qed.

Lemma decode_message_field_type_only (f : message_field) (m : Message) (mem : list string)
    (v : jvalue) (saved : option error) :
  type_only saved -> type_only (snd (decode_message_field f m mem v saved)).
Proof.
  intros H. destruct f; cbn [decode_message_field];
    try (match goal with
         | |- context [decode_string ?o v saved] =>
             pose proof (decode_string_type_only o v saved H);
             by destruct (decode_string o v saved)
         end).
  - pose proof (decode_int_type_only "int64" (Time m) v saved H).
    by destruct (decode_int _ _ _ _).
  - pose proof (decode_int_type_only "int" (Priority m) v saved H).
    by destruct (decode_int _ _ _ _).
  - pose proof (decode_string_slice_type_only (Tags m) mem v saved H).
    by destruct (decode_string_slice _ _ _ _) as [[? ?] ?].
  - pose proof (decode_attachment_type_only (Attachment_ m) v saved H).
    by destruct (decode_attachment _ _ _).
Qed.

Lemma decode_message_members_type_only (ms : list (string * jvalue)) (m : Message)
    (mem : list string) (saved : option error) :
  type_only saved -> type_only (snd (decode_message_members ms m mem saved)).
Proof.
  revert m mem saved. induction ms as [|[k v] ms IH]; intros m mem saved H; [done|].
  cbn [decode_message_members].
  destruct (find_field _ _) as [f|]; [|by apply IH].
  pose proof (decode_message_field_type_only f m mem v saved H) as H1.
  destruct (decode_message_field f m mem v saved) as [[m1 mem1] saved1]. by apply IH.
Qed.

Lemma unmarshal_type_only (v : jvalue) (m : option Message) :
  type_only (snd (unmarshal v m)).
Proof.
  destruct v; cbn [unmarshal snd]; try done.
  pose proof (decode_message_members_type_only members (default zero_Message m)
                (default [] (Tags <$> m)) None I).
  by destruct (decode_message_members _ _ _ _).
Qed.

Lemma toMessage_Err (s topicURL sid : string) (e : error) :
  toMessage s topicURL sid = Err e ->
  json_readValue s = inl e
  \/ exists v, json_readValue s = inr v /\ snd (unmarshal v None) = Some e.
Proof.
  rewrite toMessage_cases. unfold json_Decode.
  destruct (json_readValue s) as [e'|v]; [intros [= <-]; by left|].
  destruct (unmarshal v None) as [[m|] [e'|]] eqn:Hu; try done;
    intros [= <-]; right; exists v; by rewrite Hu.
Qed.

(** X15: [toMessage] returns [io.EOF] exactly on the lines that consist of
    JSON white space (space, tab, carriage return, newline), the empty
    line among them. *)
Theorem toMessage_blank_line (s topicURL sid : string) :
  toMessage s topicURL sid = Err io_EOF <-> string_forallb isSpace s = true.
Proof.
  split.
  - intros [Hr|(v & _ & Hu)]%toMessage_Err.
    + apply readValue_errors in Hr as [[_ Hns]|[?|(? & ? & ?)]]; try done.
      by apply negb_false_iff in Hns.
    + pose proof (unmarshal_type_only v None) as Ht. by rewrite Hu in Ht.
  - intros Hs. rewrite toMessage_cases. unfold json_Decode, json_readValue.
    rewrite Hs. cbn [negb]. by rewrite readValue_blank.
Qed.

(** X16: an error of [toMessage] is [io.EOF], [io.ErrUnexpectedEOF], a JSON
    syntax error or a JSON type error, never an error made by
    [errors.New]; and when the line begins with a complete JSON value, it
    is a type error. *)
Theorem toMessage_error_kinds (s topicURL sid : string) (e : error) :
  toMessage s topicURL sid = Err e ->
  decode_error e
  /\ Error e = None
  /\ (forall v, json_readValue s = inr v ->
        exists value gotype, e = json_UnmarshalTypeError value gotype).
Proof.
  intros He.
  assert (Hk : decode_error e
               /\ (forall v, json_readValue s = inr v ->
                     exists value gotype, e = json_UnmarshalTypeError value gotype)).
  { apply toMessage_Err in He as [Hr|(v & Hv & Hu)].
    - split; [|intros v Hv; by rewrite Hv in Hr].
      apply readValue_errors in Hr as [[-> _]|[->|(c & ctx & ->)]]; try done; constructor.
    - pose proof (unmarshal_type_only v None) as Ht. rewrite Hu in Ht.
      destruct e; try done. split; [constructor|]. intros _ _. eauto. }
  destruct Hk as [Hk Hv]. split; [done|]. split; [by destruct Hk|done].
Qed.


(** ** The calls on every input *)

Lemma HasPrefix_app (a b pre : string) :
  HasPrefix a pre = true -> HasPrefix (a +:+ b) pre = true.
Proof.
  unfold HasPrefix. revert a.
  induction pre as [|c pre IH]; intros a; [intros _; by destruct (a +:+ b)|].
  destruct a as [|c' a]; [done|]. rewrite string_app_cons. cbn.
  destruct (ascii_dec c c'); [apply IH|done].
Qed.

Lemma expandTopicURL_Err (c : Client) (topic : string) (e : error) :
  expandTopicURL c topic = Err e ->
  e = errorString ("invalid topic name: " +:+ topic)
  /\ topicRegex_MatchString topic = false.
Proof.
  unfold expandTopicURL.
  destruct (HasPrefix topic "http://" || HasPrefix topic "https://"); [done|].
  destruct (Contains topic "/"); [done|].
  destruct (topicRegex_MatchString topic); cbn [negb].
  - by destruct (config c).
  - by intros [= <-].
Qed.

Section Calls.

Variable url_Parse : string -> option error.
Variable WithPoll : SubscribeOption.

(** The ways [PublishReader] runs. *)
Lemma PublishReader_cases (c : Client) (net : Network) (topic : string) (body : reader)
    (options : list PublishOption) :
  PublishReader url_Parse c net topic body options
  = match expandTopicURL c topic with
    | Err e => ([], Err e)
    | Panic v => ([], Panic v)
    | Ok topicURL =>
        match url_Parse topicURL with
        | Some e => ([], Err e)
        | None =>
            match apply_options options
                    (mkRequest "POST" topicURL ∅ (Some body) context_Background) with
            | Err e => ([], Err e)
            | Panic v => ([], Panic v)
            | Ok req =>
                ([EvLog DebugLevel "%s Publishing message with headers %s"
                    [ShortTopicURL topicURL; arg_header (Header req)];
                  EvDo req],
                 match net req with
                 | Ok resp =>
                     match io_ReadAll (io_LimitReader (Body resp) maxResponseBytes) with
                     | Ok b =>
                         if negb (StatusCode resp =? StatusOK)
                         then Err (errors_New (TrimSpace b))
                         else toMessage b topicURL EmptyString
                     | Err e => Err e
                     | Panic v => Panic v
                     end
                 | Err e => Err e
                 | Panic v => Panic v
                 end)
            end
        end
    end.
Proof.
  destruct (expandTopicURL c topic) as [topicURL|e|v] eqn:Htopic;
    [|unfold PublishReader, lift, bind; by rewrite Htopic..].
  destruct (url_Parse topicURL) as [e|] eqn:Hurl.
  { unfold PublishReader, http_NewRequest, http_NewRequestWithContext, lift, bind.
    rewrite Htopic. cbv beta iota. by rewrite Hurl. }
  destruct (apply_options _ _) as [req|e|v] eqn:Hopts.
  - by apply PublishReader_sends.
  - unfold PublishReader, http_NewRequest, http_NewRequestWithContext, lift, bind.
    rewrite Htopic. cbv beta iota. by rewrite Hurl, Hopts.
  - unfold PublishReader, http_NewRequest, http_NewRequestWithContext, lift, bind.
    rewrite Htopic. cbv beta iota. by rewrite Hurl, Hopts.
Qed.

(** X8: [PublishReader], on every input, sends nothing on a channel and
    hands at most one request to the network. It returns a message only
    if the topic resolved and exactly one request was made and answered
    with status 200; the message then carries the resolved topic URL, the
    empty subscription id and, as its raw text, the first 4096 bytes of
    the response body. *)
Theorem PublishReader_footprint (c : Client) (net : Network) (topic : string)
    (body : reader) (options : list PublishOption) :
  let run := PublishReader url_Parse c net topic body options in
  sent_messages (fst run) = []
  /\ (length (requests_sent (fst run)) <= 1)%nat
  /\ (forall m, snd run = Ok m ->
        exists topicURL req resp,
          expandTopicURL c topic = Ok topicURL
          /\ requests_sent (fst run) = [req]
          /\ net req = Ok resp
          /\ StatusCode resp = StatusOK
          /\ TopicURL m = topicURL /\ SubscriptionID m = EmptyString
          /\ Raw m = string_take 4096 (data (Body resp))).
Proof.
  cbn zeta. rewrite PublishReader_cases.
  destruct (expandTopicURL c topic) as [topicURL|e|v]; [|cbn; by repeat split; try lia..].
  destruct (url_Parse topicURL) as [e|]; [cbn; by repeat split; try lia|].
  destruct (apply_options _ _) as [req|e|v]; [|cbn; by repeat split; try lia..].
  cbn [fst snd]. split; [done|]. split; [cbn; lia|].
  intros m. destruct (net req) as [resp|e|v] eqn:Hnet; [|done..].
  destruct (io_ReadAll _) as [b|e|v] eqn:Hread; [|done..].
  destruct (ReadAll_LimitReader _ _ _ Hread) as [Hb _].
  destruct (Z.eqb_spec (StatusCode resp) StatusOK) as [Hst|Hst]; cbn [negb]; [|done].
  intros Hm. apply toMessage_stamps in Hm as (? & ? & Hraw).
  exists topicURL, req, resp. rewrite Hraw, Hb. by repeat split.
Qed.

(** X9: when the response body has 4096 bytes or more, a publish call
    depends on the status and on the first 4096 bytes of the body alone:
    two responses that agree on them give the same events and the same
    result, whatever follows and however the body ends, also with a read
    error. *)
Theorem PublishReader_ignores_tail (c : Client) (topic topicURL : string)
    (body : reader) (options : list PublishOption) (req : Request)
    (net net' : Network) (resp resp' : Response) :
  expandTopicURL c topic = Ok topicURL ->
  url_Parse topicURL = None ->
  apply_options options (mkRequest "POST" topicURL ∅ (Some body) context_Background)
  = Ok req ->
  net req = Ok resp ->
  net' req = Ok resp' ->
  StatusCode resp = StatusCode resp' ->
  (4096 <= String.length (data (Body resp)))%nat ->
  (4096 <= String.length (data (Body resp')))%nat ->
  string_take 4096 (data (Body resp)) = string_take 4096 (data (Body resp')) ->
  PublishReader url_Parse c net topic body options
  = PublishReader url_Parse c net' topic body options.
Proof.
  intros Htopic Hurl Hopts Hnet Hnet' Hst Hlen Hlen' Hdata.
  rewrite !PublishReader_cases, Htopic, Hurl, Hopts, Hnet, Hnet', <- Hst.
  unfold io_ReadAll, io_LimitReader, maxResponseBytes. cbn [data read_err].
  apply Nat.leb_le in Hlen, Hlen'. by rewrite Hlen, Hlen', Hdata.
Qed.

(** X6: a topic that [expandTopicURL] does not resolve stops
    [PublishReader], [Poll] and [Subscribe] before they do anything. If
    the resolution fails, the error is "invalid topic name: " followed by
    the topic, the topic fails the topic pattern, nothing is logged, no
    request is made, and [Subscribe] leaves the client and what exists
    beside it as they were. If the resolution panics, the client has no
    configuration, the topic matches the pattern, and the three calls
    panic the same way at once. *)
Theorem unresolved_topic_stops_calls (c : Client) (rt : runtime) (net : Network)
    (topic : string) (body : reader) (options : list RequestOption) (id : string) :
  (forall e, expandTopicURL c topic = Err e ->
     e = errorString ("invalid topic name: " +:+ topic)
     /\ topicRegex_MatchString topic = false
     /\ PublishReader url_Parse c net topic body options = ([], Err e)
     /\ Poll url_Parse WithPoll c net topic options = ([], Ok ([], Some e))
     /\ Subscribe c rt topic options id = (([], Err e), c, rt))
  /\ (forall v, expandTopicURL c topic = Panic v ->
        config c = None
        /\ topicRegex_MatchString topic = true
        /\ PublishReader url_Parse c net topic body options = ([], Panic v)
        /\ Poll url_Parse WithPoll c net topic options = ([], Panic v)
        /\ Subscribe c rt topic options id = (([], Panic v), c, rt)).
Proof.
  split.
  - intros e He. destruct (expandTopicURL_Err _ _ _ He) as [Htext Hre].
    split; [done|]. split; [done|].
    rewrite PublishReader_cases. unfold Poll, Subscribe. by rewrite He.
  - intros v Hv. rewrite PublishReader_cases. unfold Poll, Subscribe. rewrite Hv.
    repeat split; try done; revert Hv; unfold expandTopicURL;
      destruct (HasPrefix topic "http://" || HasPrefix topic "https://"); try done;
      destruct (Contains topic "/"); try done;
      destruct (topicRegex_MatchString topic); cbn [negb]; try done;
      by destruct (config c).
Qed.


End Calls.

(** X7: when the default host of the configuration begins with http:// or
    https://, every URL that [expandTopicURL] returns begins with one of
    the two, and resolves to itself. *)
Theorem expandTopicURL_idempotent (c : Client) (cfg : Config) (topic topicURL : string) :
  config c = Some cfg ->
  HasPrefix (DefaultHost cfg) "http://" || HasPrefix (DefaultHost cfg) "https://" = true ->
  expandTopicURL c topic = Ok topicURL ->
  HasPrefix topicURL "http://" || HasPrefix topicURL "https://" = true
  /\ expandTopicURL c topicURL = Ok topicURL.
Proof.
  intros Hcfg Hhost Htopic.
  assert (Hpre : HasPrefix topicURL "http://" || HasPrefix topicURL "https://" = true).
  { revert Htopic. unfold expandTopicURL.
    destruct (HasPrefix topic "http://" || HasPrefix topic "https://") eqn:Hs;
      [by intros [= <-]|].
    destruct (Contains topic "/");
      [intros [= <-]; apply orb_true_iff; right; by apply HasPrefix_app|].
    destruct (topicRegex_MatchString topic); cbn [negb]; [|done].
    rewrite Hcfg. intros [= <-].
    apply orb_true_iff in Hhost as [H|H]; apply orb_true_iff; [left|right];
      by apply HasPrefix_app. }
  split; [done|]. unfold expandTopicURL. by rewrite Hpre.
Qed.


(** ** The reconnect loop, attempt by attempt *)

Section ReconnectMore.

Variable url_Parse : string -> option error.

(** One turn of [handleSubscribeConnLoop]. *)
Lemma handleSubscribeConnLoop_cons (t : turn) (rest : list turn) (now : Z) (ctx : Context)
    (topicURL sid : string) (options : list SubscribeOption) :
  let run := performSubscribeRequest url_Parse (turn_net t) ctx topicURL sid options in
  let now' := now + Z.of_N (turn_duration t) in
  handleSubscribeConnLoop url_Parse (t :: rest) now ctx topicURL sid options
  = match snd run with
    | Panic v => ([mkAttempt now (fst run) (snd run) now' [] (turn_select t) now'], Crashed v)
    | _ =>
        let log := warning_for topicURL (snd run) ++ select_log topicURL (turn_select t) in
        let next := now' + select_wait (turn_select t) in
        match turn_select t with
        | ctx_Done _ =>
            ([mkAttempt now (fst run) (snd run) now' log (turn_select t) next], Canceled next)
        | time_After _ =>
            (mkAttempt now (fst run) (snd run) now' log (turn_select t) next
               :: fst (handleSubscribeConnLoop url_Parse rest next ctx topicURL sid options),
             snd (handleSubscribeConnLoop url_Parse rest next ctx topicURL sid options))
        end
    end.
Proof.
  cbn zeta. cbn [handleSubscribeConnLoop].
  destruct (performSubscribeRequest _ _ _ _ _ _) as [evs r]. cbn [fst snd].
  destruct (turn_select t) as [waited|late]; cbn [select_wait select_log].
  - destruct r as [[]|e|v]; cbn [warning_for]; reflexivity.
  - rewrite Z.add_assoc.
    destruct (handleSubscribeConnLoop _ _ _ _ _ _ _) as [attempts st].
    destruct r as [[]|e|v]; cbn [warning_for fst snd]; by rewrite ?app_nil_r.
Qed.

Lemma loop_attempt_turn (turns : list turn) (now : Z) (ctx : Context)
    (topicURL sid : string) (options : list SubscribeOption) (i : nat) (a : attempt) :
  fst (handleSubscribeConnLoop url_Parse turns now ctx topicURL sid options) !! i = Some a ->
  exists t, turns !! i = Some t
    /\ performed a
       = fst (performSubscribeRequest url_Parse (turn_net t) ctx topicURL sid options)
    /\ returned a
       = snd (performSubscribeRequest url_Parse (turn_net t) ctx topicURL sid options)
    /\ ended a = began a + Z.of_N (turn_duration t)
    /\ selected a = turn_select t.
Proof.
  revert now i. induction turns as [|t rest IH]; intros now i; [done|].
  rewrite handleSubscribeConnLoop_cons. cbn zeta.
  destruct (snd (performSubscribeRequest _ _ _ _ _ _)) as [[]|e|v] eqn:Hr;
    destruct (turn_select t) as [waited|late] eqn:Hsel; cbn [fst];
    destruct i as [|i]; cbn [lookup list_lookup]; try done;
    try (intros [= <-]; exists t; cbn; by rewrite ?Hr, ?Hsel);
    try apply IH.
Qed.

Lemma toMessage_null (s topicURL sid : string) :
  json_readValue s = inr JNull -> toMessage s topicURL sid = Panic nil_dereference.
Proof. intros Hv. rewrite toMessage_cases. unfold json_Decode. by rewrite Hv. Qed.

(** X17: in the reconnect loop, attempt number i is what
    [performSubscribeRequest] does and returns on the network of turn
    number i with the context, the topic URL, the subscription id and the
    options of the loop; so every message of every attempt carries the
    topic URL and the subscription id of the loop and the event
    "message", and every attempt hands at most one request to the
    network. *)
Theorem loop_attempts_stamped (turns : list turn) (now : Z) (ctx : Context)
    (topicURL sid : string) (options : list SubscribeOption) :
  let attempts := fst (handleSubscribeConnLoop url_Parse turns now ctx topicURL sid options) in
  forall i a, attempts !! i = Some a ->
    (exists t, turns !! i = Some t
       /\ performed a
          = fst (performSubscribeRequest url_Parse (turn_net t) ctx topicURL sid options)
       /\ returned a
          = snd (performSubscribeRequest url_Parse (turn_net t) ctx topicURL sid options))
    /\ (forall m, m ∈ sent_messages (performed a) -> stamped topicURL sid m)
    /\ (length (requests_sent (performed a)) <= 1)%nat.
Proof.
  intros attempts i a Ha.
  destruct (loop_attempt_turn _ _ _ _ _ _ _ _ Ha) as (t & Ht & Hp & Hr & _).
  split; [by exists t|]. rewrite Hp.
  split; [intros m; apply performSubscribeRequest_stamped
         |apply performSubscribeRequest_one_request].
Qed.

(** X18: what the reconnect loop does does not depend on what comes later:
    over the turns [turns1 ++ turns2] it runs as over [turns1] and, if it
    is still connecting after them, goes on over [turns2] from the time
    it has reached; the attempts over [turns1] are a prefix of those over
    [turns1 ++ turns2]. *)
Theorem handleSubscribeConnLoop_app (turns1 turns2 : list turn) (now : Z) (ctx : Context)
    (topicURL sid : string) (options : list SubscribeOption) :
  let loop := fun turns now =>
    handleSubscribeConnLoop url_Parse turns now ctx topicURL sid options in
  loop (turns1 ++ turns2) now
  = match snd (loop turns1 now) with
    | Connecting now1 => (fst (loop turns1 now) ++ fst (loop turns2 now1),
                          snd (loop turns2 now1))
    | _ => loop turns1 now
    end
  /\ fst (loop turns1 now) `prefix_of` fst (loop (turns1 ++ turns2) now).
Proof.
  cbn zeta.
  assert (Heq : forall now,
    handleSubscribeConnLoop url_Parse (turns1 ++ turns2) now ctx topicURL sid options
    = match snd (handleSubscribeConnLoop url_Parse turns1 now ctx topicURL sid options) with
      | Connecting now1 =>
          (fst (handleSubscribeConnLoop url_Parse turns1 now ctx topicURL sid options)
             ++ fst (handleSubscribeConnLoop url_Parse turns2 now1 ctx topicURL sid options),
           snd (handleSubscribeConnLoop url_Parse turns2 now1 ctx topicURL sid options))
      | _ => handleSubscribeConnLoop url_Parse turns1 now ctx topicURL sid options
      end).
  { clear now. induction turns1 as [|t rest IH]; intros now.
    - cbn [app handleSubscribeConnLoop fst snd].
      by destruct (handleSubscribeConnLoop _ _ _ _ _ _ _).
    - rewrite <- app_comm_cons, !handleSubscribeConnLoop_cons. cbn zeta.
      destruct (snd (performSubscribeRequest _ _ _ _ _ _)) as [[]|e|v];
        destruct (turn_select t) as [waited|late]; try reflexivity;
        rewrite IH; cbn [fst snd select_wait];
        destruct (handleSubscribeConnLoop url_Parse rest _ _ _ _ _) as [attempts st];
        cbn [fst snd]; by destruct st. }
  split; [apply Heq|]. rewrite Heq.
  destruct (snd (handleSubscribeConnLoop url_Parse turns1 _ _ _ _ _)); [|done..].
  by apply prefix_app_r.
Qed.

(** X19: attempt number n of the reconnect loop (counted from 0) begins no
    earlier than n times 10 seconds after the loop was started; an
    attempt ends no earlier than it began, and is left no earlier than it
    ended; a loop that is still connecting after k attempts has been
    running for k times 10 seconds or more. *)
Theorem loop_rate_bound (turns : list turn) (now : Z) (ctx : Context)
    (topicURL sid : string) (options : list SubscribeOption) :
  let attempts := fst (handleSubscribeConnLoop url_Parse turns now ctx topicURL sid options) in
  let final := snd (handleSubscribeConnLoop url_Parse turns now ctx topicURL sid options) in
  (forall n a, attempts !! n = Some a ->
     now + Z.of_nat n * retryDelay <= began a /\ began a <= ended a <= left a)
  /\ (forall t, final = Connecting t -> now + Z.of_nat (length attempts) * retryDelay <= t).
Proof.
  cbn zeta. revert now. induction turns as [|t rest IH]; intros now.
  { cbn. split; [done|]. intros t [= <-]. lia. }
  rewrite handleSubscribeConnLoop_cons. cbn zeta.
  assert (Hrd : 0 <= retryDelay) by (unfold retryDelay, Second; lia).
  destruct (snd (performSubscribeRequest _ _ _ _ _ _)) as [[]|e|v];
    destruct (turn_select t) as [waited|late] eqn:Hsel; cbn [fst snd select_wait];
    (split; [intros [|n] a; cbn [lookup list_lookup];
             [intros [= <-]; cbn; lia| try done]
            |try done]).
  all: try (intros Ha; destruct (proj1 (IH _) n a Ha) as [H1 H2]; split; [lia|done]).
  all: intros t0 Ht0; apply (proj2 (IH _)) in Ht0; cbn [length]; lia.
Qed.

(** X20: an attempt that panics is the last one: nothing is logged after it,
    nothing is waited for, and the loop has crashed with the panic value
    of the attempt; and the loop crashes in this way only. *)
Theorem loop_crash_is_final (turns : list turn) (now : Z) (ctx : Context)
    (topicURL sid : string) (options : list SubscribeOption) :
  let attempts := fst (handleSubscribeConnLoop url_Parse turns now ctx topicURL sid options) in
  let final := snd (handleSubscribeConnLoop url_Parse turns now ctx topicURL sid options) in
  (forall i a v, attempts !! i = Some a -> returned a = Panic v ->
     length attempts = S i /\ final = Crashed v /\ logged a = [] /\ left a = ended a)
  /\ (forall v, final = Crashed v ->
        exists a, last attempts = Some a /\ returned a = Panic v).
Proof.
  cbn zeta. revert now. induction turns as [|t rest IH]; intros now.
  { cbn. split; [done|]. by intros v. }
  rewrite handleSubscribeConnLoop_cons. cbn zeta.
  destruct (snd (performSubscribeRequest _ _ _ _ _ _)) as [[]|e|v] eqn:Hr;
    destruct (turn_select t) as [waited|late] eqn:Hsel; cbn [fst snd];
    (split; [intros [|i] a v'; cbn [lookup list_lookup];
             [intros [= <-]; cbn [returned]; try done|try done]
            |intros v'; try done]).
  all: try (intros Ha Hp; destruct (proj1 (IH _) i a v' Ha Hp) as (Hlen & ? & ? & ?);
            cbn [length]; by rewrite Hlen).
  all: try (intros [= ->]; by repeat split).
  all: try (intros [= ->]; eexists; split; [reflexivity|done]).
  all: intros Hf; destruct (proj2 (IH _) v' Hf) as (a & Hlast & Ha); exists a; split; [|done].
  all: destruct (fst (handleSubscribeConnLoop url_Parse rest _ _ _ _ _)); [done|by cbn].
Qed.

(** X21: a line whose first JSON value is null, in a stream answered with
    status 200, crashes the reconnect loop in that attempt: the messages
    of the lines before it have been sent, the attempt panics with the nil
    dereference, and no later turn is taken. *)
Theorem null_line_crashes_loop (t : turn) (rest : list turn) (now : Z) (ctx : Context)
    (topicURL sid : string) (options : list SubscribeOption) (req : Request)
    (resp : Response) (pre post : list string) (bad : string) :
  url_Parse (topicURL +:+ "/json") = None ->
  apply_options options (mkRequest "GET" (topicURL +:+ "/json") ∅ None ctx) = Ok req ->
  turn_net t req = Ok resp ->
  StatusCode resp = StatusOK ->
  fst (bufio_Scan (Body resp)) = pre ++ bad :: post ->
  all_decode topicURL sid pre ->
  json_readValue bad = inr JNull ->
  let run := handleSubscribeConnLoop url_Parse (t :: rest) now ctx topicURL sid options in
  snd run = Crashed nil_dereference
  /\ exists a, fst run = [a]
       /\ returned a = Panic nil_dereference
       /\ sent_messages (performed a)
          = List.filter is_message_event (decoded_prefix topicURL sid pre).
Proof.
  intros Hurl Hopts Hnet Hst Hlines Hpre Hnull run. subst run.
  pose proof (toMessage_null bad topicURL sid Hnull) as Hbad.
  assert (Hno : forall m, toMessage bad topicURL sid <> Ok m) by (intros m; by rewrite Hbad).
  destruct (read_stream_stops topicURL sid bad pre post Hpre Hno) as [Hevs Hend].
  rewrite Hbad in Hend.
  rewrite handleSubscribeConnLoop_cons. cbn zeta.
  rewrite performSubscribeRequest_cases. cbn zeta. rewrite Hurl, Hopts, Hnet, Hst.
  change (negb (StatusOK =? StatusOK)) with false. cbv iota.
  rewrite Hlines. cbn [snd fst]. rewrite read_stream_end, Hend.
  split; [done|]. eexists. split; [reflexivity|]. cbn [returned performed].
  split; [done|].
  by rewrite sent_messages_log, sent_messages_do, Hevs, read_stream_sent.
Qed.

(** X28: the messages on the channel can be attributed to the registry:
    in every state reached from a new client, the goroutine of an entry
    of the registry, whatever turns its reconnect loop takes, sends only
    messages that carry the id under which the entry is stored, the
    topic URL of the entry and the event "message". *)
Theorem subscription_messages_attributed (c : Client) (rt : runtime) (i : string)
    (s : subscription) :
  reachable c rt ->
  subscriptions c !! i = Some s ->
  exists g, goroutines rt !! cancel s = Some g
    /\ forall turns now a m,
         a ∈ fst (goroutine_run url_Parse g turns now) ->
         m ∈ sent_messages (performed a) ->
         stamped (sub_topicURL s) i m.
Proof.
  intros Hr Hs. pose proof (reachable_ok c rt Hr) as Hok.
  destruct (ok_task _ _ Hok i s Hs) as (g & Hg & Hid & Hurl).
  exists g. split; [done|]. intros turns now a m Ha Hm.
  apply list_elem_of_lookup in Ha as [k Hk]. unfold goroutine_run in Hk.
  destruct (loop_attempt_turn _ _ _ _ _ _ _ _ Hk) as (t & _ & Hp & _).
  rewrite Hp in Hm. apply performSubscribeRequest_stamped in Hm.
  by rewrite Hid, Hurl in Hm.
Qed.

End ReconnectMore.


(** ** The validators of the user package *)

Lemma string_drop_empty (n : nat) (s : string) :
  string_drop n s = EmptyString <-> (String.length s <= n)%nat.
Proof.
  revert s. induction n as [|n IH]; intros [|c s]; cbn; try (split; [lia|done]).
  - split; [done|lia].
  - rewrite IH. lia.
Qed.

Lemma MatchString_empty (s : string) : MatchString [] s = true <-> s = EmptyString.
Proof. by destruct s. Qed.

(** A pattern of one piece: the length and the characters of the text. *)
Lemma MatchString_single (r : piece) (s : string) :
  MatchString [r] s = within r (String.length s) && string_forallb (piece_class r) s.
Proof.
  apply eq_true_iff_eq. cbn [MatchString]. rewrite existsb_exists. split.
  - intros (n & Hn & H). apply in_seq in Hn.
    apply andb_true_iff in H as [H Hend]. apply MatchString_empty, string_drop_empty in Hend.
    assert (n = String.length s) as -> by lia. by rewrite string_take_all in H by lia.
  - intros H. exists (String.length s). split; [apply in_seq; lia|].
    rewrite string_take_all by lia. rewrite H. cbn.
    apply MatchString_empty, string_drop_empty. lia.
Qed.

(** A pattern that begins with a literal. *)
Lemma MatchString_literal (x : string) (re : list piece) (s : string) :
  MatchString (literal x :: re) s
  = match s with
    | String c s' => byte_is x c && MatchString re s'
    | EmptyString => false
    end.
Proof.
  apply eq_true_iff_eq. cbn [MatchString]. rewrite existsb_exists. split.
  - intros (n & Hn & H). apply andb_true_iff in H as [H Hrest].
    apply andb_true_iff in H as [Hw Hc].
    unfold within, literal in Hw. cbn [rep_min rep_max] in Hw.
    apply andb_true_iff in Hw as [H1 H2].
    apply Nat.leb_le in H1, H2. assert (n = 1%nat) as -> by lia.
    destruct s as [|c s']; [apply in_seq in Hn; cbn in Hn; lia|].
    cbn in Hc, Hrest. rewrite andb_true_r in Hc. destruct s'; by rewrite Hc, Hrest.
  - destruct s as [|c s']; [done|]. intros [Hc Hrest]%andb_true_iff.
    exists 1%nat. split; [apply in_seq; cbn; lia|].
    cbn [string_take string_drop string_forallb literal piece_class].
    destruct s'; by rewrite Hc, Hrest.
Qed.

Lemma string_forallb_impl (p q : ascii -> bool) (s : string) :
  (forall c, p c = true -> q c = true) ->
  string_forallb p s = true -> string_forallb q s = true.
Proof.
  intros Hpq. induction s as [|c s IH]; [done|]. cbn.
  intros [Hc Hs]%andb_true_iff. by rewrite (Hpq c Hc), IH.
Qed.

Lemma string_forallb_and (p q : ascii -> bool) (s : string) :
  string_forallb (fun c => p c && q c) s = string_forallb p s && string_forallb q s.
Proof.
  induction s as [|c s IH]; [done|]. cbn. rewrite IH.
  destruct (p c), (q c), (string_forallb p s); done.
Qed.

Lemma is_topic_char_pattern (c : ascii) :
  is_topic_char c = is_topic_pattern_char c && negb (byte_is "*" c).
Proof. destruct c as [[] [] [] [] [] [] [] []]; vm_compute; reflexivity. Qed.

Lemma is_topic_char_username (c : ascii) : is_topic_char c = true -> is_username_char c = true.
Proof. destruct c as [[] [] [] [] [] [] [] []]; vm_compute; done. Qed.

Lemma contains_byte_forallb (s : string) (x : ascii) :
  negb (contains_byte s x) = string_forallb (fun c => negb (Ascii.eqb x c)) s.
Proof.
  unfold contains_byte. induction s as [|c s IH]; [done|]. cbn.
  rewrite negb_orb. by rewrite IH.
Qed.

Lemma prefix_forallb (p : ascii -> bool) (pre s : string) :
  String.prefix pre s = true -> string_forallb p s = true -> string_forallb p pre = true.
Proof.
  revert s. induction pre as [|c pre IH]; intros s; [done|].
  destruct s as [|c' s]; [done|]. cbn.
  destruct (ascii_dec c c') as [->|]; [|done].
  intros Hpre [Hc Hs]%andb_true_iff. rewrite Hc. by apply (IH s).
Qed.

Lemma AllowedTopic_chars (s : string) :
  AllowedTopic s
  = (1 <=? String.length s)%nat && (String.length s <=? 64)%nat
    && string_forallb is_topic_char s.
Proof. unfold AllowedTopic, allowedTopicRegex. by rewrite MatchString_single. Qed.

Lemma ValidToken_chars (s : string) :
  ValidToken s = true <->
  exists r, s = "tk_" +:+ r /\ String.length r = 29%nat
            /\ string_forallb is_topic_char r = true.
Proof.
  unfold ValidToken, allowedTokenRegex. split.
  - rewrite MatchString_literal. destruct s as [|c1 s]; [done|].
    rewrite MatchString_literal. destruct s as [|c2 s]; [by rewrite andb_false_r|].
    rewrite MatchString_literal. destruct s as [|c3 s]; [by rewrite !andb_false_r|].
    rewrite MatchString_single. cbn [piece_class].
    intros [H1 [H2 [H3 [Hw Hc]%andb_true_iff]%andb_true_iff]%andb_true_iff]%andb_true_iff.
    unfold byte_is in H1, H2, H3.
    apply Ascii.eqb_eq in H1 as <-, H2 as <-, H3 as <-.
    exists s. split; [done|]. split; [|done].
    unfold within in Hw. cbn [rep_min rep_max] in Hw.
    apply andb_true_iff in Hw as [Ha Hb]. apply Nat.leb_le in Ha, Hb. lia.
  - intros (r & -> & Hlen & Hc).
    change ("tk_" +:+ r) with (String "t" (String "k" (String "_" r))).
    rewrite !MatchString_literal, MatchString_single. unfold within.
    cbn [rep_min rep_max piece_class]. rewrite Hlen, Hc. reflexivity.
Qed.

(** X22: [AllowedTopic] accepts exactly the names that the topic pattern of
    the client accepts, and [AllowedTier] accepts the same names; a client
    with a configuration resolves every topic that [AllowedTopic] accepts
    to default host, slash, topic. *)
Theorem AllowedTopic_is_client_topic (s : string) :
  AllowedTopic s = topicRegex_MatchString s
  /\ AllowedTier s = AllowedTopic s
  /\ (AllowedTopic s = true ->
      forall c cfg, config c = Some cfg ->
        expandTopicURL c s = Ok (DefaultHost cfg +:+ "/" +:+ s)).
Proof.
  split; [apply AllowedTopic_chars|]. split; [reflexivity|].
  rewrite AllowedTopic_chars. intros [Hlen Hc]%andb_true_iff c cfg Hcfg.
  unfold expandTopicURL, topicRegex_MatchString.
  assert (H1 : HasPrefix s "http://" = false).
  { destruct (HasPrefix s "http://") eqn:Hp; [|done].
    by pose proof (prefix_forallb _ _ _ Hp Hc). }
  assert (H2 : HasPrefix s "https://" = false).
  { destruct (HasPrefix s "https://") eqn:Hp; [|done].
    by pose proof (prefix_forallb _ _ _ Hp Hc). }
  assert (H3 : Contains s "/" = false).
  { rewrite Contains_slash. apply negb_true_iff. rewrite contains_byte_forallb.
    revert Hc. apply string_forallb_impl.
    intros x. destruct x as [[] [] [] [] [] [] [] []]; vm_compute; done. }
  by rewrite H1, H2, H3, Hlen, Hc, Hcfg.
Qed.

(** X23: [AllowedTopic] accepts exactly what [AllowedTopicPattern] accepts
    and holds no wildcard character; every name that [AllowedTopic]
    accepts is an allowed user name. *)
Theorem AllowedTopic_is_pattern_without_wildcard (s : string) :
  AllowedTopic s = AllowedTopicPattern s && negb (contains_byte s "*"%char)
  /\ (AllowedTopic s = true -> AllowedUsername s = true).
Proof.
  rewrite AllowedTopic_chars. unfold AllowedTopicPattern, allowedTopicPatternRegex,
    AllowedUsername, allowedUsernameRegex.
  rewrite !MatchString_single. unfold within. cbn [rep_min rep_max piece_class].
  rewrite contains_byte_forallb. split.
  - rewrite <- !andb_assoc. f_equal. f_equal. rewrite <- string_forallb_and.
    induction s as [|c s IH]; [done|]. cbn [string_forallb].
    rewrite IH. f_equal. rewrite is_topic_char_pattern. f_equal.
  - intros [[H1 _]%andb_true_iff Hc]%andb_true_iff. rewrite H1. cbn.
    revert Hc. apply string_forallb_impl, is_topic_char_username.
Qed.

(** X24: [ValidToken] accepts exactly the texts made of tk_ and 29
    characters out of letters, digits, hyphen and underscore; a valid
    token has 32 bytes and is also an allowed topic and an allowed user
    name. *)
Theorem ValidToken_shape (s : string) :
  (ValidToken s = true <->
   exists r, s = "tk_" +:+ r /\ String.length r = 29%nat
             /\ string_forallb is_topic_char r = true)
  /\ (ValidToken s = true ->
      String.length s = 32%nat /\ AllowedTopic s = true /\ AllowedUsername s = true).
Proof.
  split; [apply ValidToken_chars|].
  intros (r & -> & Hlen & Hc)%ValidToken_chars.
  assert (Htopic : AllowedTopic ("tk_" +:+ r) = true).
  { rewrite AllowedTopic_chars.
    change ("tk_" +:+ r) with (String "t" (String "k" (String "_" r))).
    cbn [String.length string_forallb]. rewrite Hlen, Hc. reflexivity. }
  split; [|split; [done|]].
  - change ("tk_" +:+ r) with (String "t" (String "k" (String "_" r))).
    cbn [String.length]. by rewrite Hlen.
  - revert Htopic. rewrite AllowedTopic_chars.
    unfold AllowedUsername, allowedUsernameRegex. rewrite MatchString_single.
    unfold within. cbn [rep_min rep_max piece_class].
    intros [[H1 _]%andb_true_iff Hc']%andb_true_iff. rewrite H1. cbn.
    revert Hc'. apply string_forallb_impl, is_topic_char_username.
Qed.


(** ** The log package *)

Section LogProps.

Context {Level Format : Type} {Format_eq : EqDecision Format}.
Variable DefaultLevel : Level.
Variables TextFormat JSONFormat : Format.
Variable Render : string -> string.

Lemma log_after_snoc (calls : list (log_call Level Format)) (c : log_call Level Format) :
  log_after DefaultLevel TextFormat JSONFormat (calls ++ [c])
  = log_do JSONFormat (log_after DefaultLevel TextFormat JSONFormat calls) c.
Proof. unfold log_after. by rewrite foldl_app. Qed.

Lemma overrides_given_snoc (field : string) (calls : list (log_call Level Format))
    (c : log_call Level Format) :
  overrides_given field (calls ++ [c])
  = match c with
    | call_SetLevelOverride f value l =>
        if String.eqb f field
        then overrides_given field calls ++ [mkLevelOverride value l]
        else overrides_given field calls
    | call_ResetLevelOverrides => []
    | _ => overrides_given field calls
    end.
Proof. unfold overrides_given. by rewrite foldl_app. Qed.


(** X26: the overrides of a field are the overrides given for it by the
    calls of [SetLevelOverride] since the last call of
    [ResetLevelOverrides], in the order of the calls and with their
    repetitions; a field for which none was given has no entry. *)
Theorem overrides_accumulate (calls : list (log_call Level Format)) (field : string) :
  overrides (log_after DefaultLevel TextFormat JSONFormat calls) !! field
  = match overrides_given field calls with
    | [] => None
    | given => Some given
    end.
Proof.
  induction calls as [|c calls IH] using rev_ind; [done|].
  rewrite log_after_snoc, overrides_given_snoc.
  destruct c as [newLevel|f value l| |newFormat|w'|]; cbn [log_do]; try done.
  - cbn [SetLevelOverride overrides]. destruct (String.eqb_spec f field) as [->|Hne].
    + rewrite lookup_insert_eq, IH.
      by destruct (overrides_given field calls).
    + by rewrite lookup_insert_ne.
  - unfold SetFormat. by destruct (decide _).
Qed.

Lemma writer_Write_passes (st : log_state Level Format) (n : nat) (w : writer)
    (p : string) :
  passes TextFormat st p = true ->
  writer_Write TextFormat Render st (Nat.iter n peekLogWriter w) p
  = writer_Write TextFormat Render st w p.
Proof.
  intros Hp. induction n as [|n IH]; [done|].
  change (Nat.iter (S n) peekLogWriter w) with (peekLogWriter (Nat.iter n peekLogWriter w)).
  cbn [writer_Write]. unfold passes in Hp. by rewrite Hp.
Qed.

(** X27: a write through any number of nested [peekLogWriter]s reaches the
    writer inside unchanged if the bytes are empty or begin with an
    opening brace or the format is the text format. Otherwise the
    outermost one renders the bytes as an event: nothing is written if
    the rendering is empty, and a rendering that begins with an opening
    brace reaches the writer inside, with a newline, without being
    rendered again. *)
Theorem nested_peekLogWriter (st : log_state Level Format) (n : nat) (w : writer)
    (p : string) :
  (forall w', w <> peekLogWriter w') ->
  (passes TextFormat st p = true ->
   writer_Write TextFormat Render st (Nat.iter n peekLogWriter w) p = Some (w, p))
  /\ (passes TextFormat st p = false ->
      writer_Write TextFormat Render st (Nat.iter (S n) peekLogWriter w) p
      = if String.eqb (Render (TrimSpace p)) EmptyString then None
        else if HasPrefix (Render (TrimSpace p)) "{"
             then Some (w, Render (TrimSpace p) +:+ newline)
             else writer_Write TextFormat Render st (Nat.iter n peekLogWriter w)
                    (Render (TrimSpace p) +:+ newline)).
Proof.
  intros Hbase.
  assert (Hw : forall q, writer_Write TextFormat Render st w q = Some (w, q)).
  { intros q. destruct w as [name|id|w']; [done|done|by destruct (Hbase w')]. }
  split.
  - intros Hp. by rewrite writer_Write_passes.
  - intros Hp.
    change (Nat.iter (S n) peekLogWriter w) with (peekLogWriter (Nat.iter n peekLogWriter w)).
    cbn [writer_Write]. unfold passes in Hp. rewrite Hp.
    destruct (String.eqb _ _); [done|].
    destruct (HasPrefix (Render (TrimSpace p)) "{") eqn:Hm; [|done].
    rewrite writer_Write_passes; [apply Hw|].
    unfold passes. by rewrite (HasPrefix_app _ _ _ Hm), orb_true_r.
Qed.

End LogProps.

(** ** The further properties at the sample data *)

Lemma two_subscriptions_reachable : reachable two_subscriptions two_contexts.
Proof.
  exists (Some NewConfig).
  eapply rtc_l; [apply (call_Subscribe _ _ "alerts" [] "aaaaaaaaaa")|].
  eapply rtc_l; [apply (call_Subscribe _ _ "news" [] "bbbbbbbbbb")|].
  apply rtc_refl.
Qed.

Lemma subscribed_once_reachable :
  reachable (snd (fst subscribed_once)) (snd subscribed_once).
Proof.
  exists (Some NewConfig).
  eapply rtc_l; [apply (call_Subscribe _ _ "alerts" [] "aaaaaaaaaa")|].
  apply rtc_refl.
Qed.

Lemma reachable_registry_live_witness :
  reachable two_subscriptions two_contexts
  /\ (forall i s, subscriptions two_subscriptions !! i = Some s ->
        sub_ID s = i /\ (cancel s ∉ canceled two_contexts)
        /\ (cancel s < contexts two_contexts)%nat)
  /\ NoDup (cancel_calls two_contexts).
Proof.
  split; [exact two_subscriptions_reachable|].
  destruct (reachable_registry_live two_subscriptions two_contexts
              two_subscriptions_reachable) as (Hlive & _ & Hcalls).
  split; [exact Hlive|exact Hcalls].
Defined.

Lemma reachable_one_task_each_witness :
  reachable two_subscriptions two_contexts
  /\ length (goroutines two_contexts) = 2%nat
  /\ exists g, goroutines two_contexts !! 1%nat = Some g
               /\ go_ctx g = context_WithCancel 1
               /\ go_subscriptionID g = "bbbbbbbbbb"
               /\ go_topicURL g = "https://ntfy.sh/news".
Proof.
  split; [exact two_subscriptions_reachable|].
  destruct (reachable_one_task_each two_subscriptions two_contexts
              two_subscriptions_reachable) as [Hlen Htask].
  split; [exact Hlen|].
  destruct (Htask "bbbbbbbbbb" (mkSubscription "bbbbbbbbbb" "https://ntfy.sh/news" 1)
              eq_refl) as [Hg _].
  exact Hg.
Defined.

Lemma Subscribe_collision_leaks_witness :
  subscriptions (snd (fst subscribed_once)) !! "aaaaaaaaaa"
  = Some (mkSubscription "aaaaaaaaaa" "https://ntfy.sh/alerts" 0)
  /\ subscriptions (snd (fst collided)) !! "aaaaaaaaaa"
     = Some (mkSubscription "aaaaaaaaaa" "https://ntfy.sh/news" 1)
  /\ cancel_calls (snd after_collision) = [1%nat]
  /\ subscriptions (fst after_collision) = ∅
  /\ (0%nat ∉ canceled (snd after_collision))
  /\ exists g, goroutines (snd after_collision) !! 0%nat = Some g
               /\ go_ctx g = context_WithCancel 0.
Proof.
  do 3 (split; [reflexivity|]). split; [by apply map_eq; intros i; vm_compute|].
  destruct (Subscribe_collision_leaks (snd (fst subscribed_once)) (snd subscribed_once)
              "news" "https://ntfy.sh/news" [] "aaaaaaaaaa"
              (mkSubscription "aaaaaaaaaa" "https://ntfy.sh/alerts" 0)
              (fst after_collision) (snd after_collision)
              subscribed_once_reachable eq_refl eq_refl) as (Hlive & _ & Hg).
  - eapply rtc_l; [|apply rtc_refl].
    exact (call_Unsubscribe (snd (fst collided)) (snd collided) "aaaaaaaaaa").
  - split; [exact Hlive|exact Hg].
Defined.

Lemma Subscribe_Unsubscribe_round_trip_witness :
  subscriptions sample_client !! "aaaaaaaaaa" = None
  /\ expandTopicURL sample_client "alerts" = Ok "https://ntfy.sh/alerts"
  /\ fst (Unsubscribe (snd (fst subscribed_once)) (snd subscribed_once) "aaaaaaaaaa")
     = sample_client
  /\ cancel_calls
       (snd (Unsubscribe (snd (fst subscribed_once)) (snd subscribed_once) "aaaaaaaaaa"))
     = [0%nat].
Proof.
  do 2 (split; [reflexivity|]).
  destruct (Subscribe_Unsubscribe_round_trip sample_client fresh_runtime "alerts"
              "https://ntfy.sh/alerts" [] "aaaaaaaaaa" eq_refl eq_refl)
    as (_ & Hback & Hcalls & _).
  split; [exact Hback|exact Hcalls].
Defined.

(** A topic with a space in it is refused before anything is done. *)
Example invalid_topic_is_refused :
  expandTopicURL sample_client "bad topic" = Err (errorString "invalid topic name: bad topic")
  /\ Subscribe sample_client fresh_runtime "bad topic" [] "aaaaaaaaaa"
     = (([], Err (errorString "invalid topic name: bad topic")), sample_client, fresh_runtime).
Proof. split; reflexivity. Qed.

Lemma expandTopicURL_idempotent_witness :
  config sample_client = Some NewConfig
  /\ expandTopicURL sample_client "alerts" = Ok "https://ntfy.sh/alerts"
  /\ expandTopicURL sample_client "https://ntfy.sh/alerts" = Ok "https://ntfy.sh/alerts".
Proof.
  do 2 (split; [reflexivity|]).
  destruct (expandTopicURL_idempotent sample_client NewConfig "alerts"
              "https://ntfy.sh/alerts" eq_refl eq_refl eq_refl) as [_ Hagain].
  exact Hagain.
Defined.

Lemma PublishReader_ignores_tail_witness :
  (4096 <= String.length (data (Body long_response)))%nat
  /\ (4096 <= String.length (data (Body long_dropped_response)))%nat
  /\ string_take 4096 (data (Body long_response))
     = string_take 4096 (data (Body long_dropped_response))
  /\ read_err (Body long_dropped_response) = Some (foreign_error "connection reset by peer")
  /\ PublishReader every_url_parses sample_client
       (answering 200 (Body long_response)) "mytopic" (strings_NewReader "hello") []
     = PublishReader every_url_parses sample_client
         (answering 200 (Body long_dropped_response)) "mytopic" (strings_NewReader "hello") [].
Proof.
  assert (H1 : (4096 <= String.length (data (Body long_response)))%nat)
    by (apply Nat.leb_le; vm_compute; reflexivity).
  assert (H2 : (4096 <= String.length (data (Body long_dropped_response)))%nat)
    by (apply Nat.leb_le; vm_compute; reflexivity).
  assert (H3 : string_take 4096 (data (Body long_response))
               = string_take 4096 (data (Body long_dropped_response)))
    by (vm_compute; reflexivity).
  split; [exact H1|]. split; [exact H2|]. split; [exact H3|]. split; [reflexivity|].
  apply (PublishReader_ignores_tail every_url_parses sample_client "mytopic"
           "https://ntfy.sh/mytopic" (strings_NewReader "hello") [] sample_POST
           (answering 200 (Body long_response))
           (answering 200 (Body long_dropped_response))
           long_response long_dropped_response);
    try reflexivity; assumption.
Defined.

Lemma rejected_stream_request_witness :
  StatusCode quota_response <> StatusOK
  /\ snd (performSubscribeRequest every_url_parses
            (answering 429 (strings_NewReader ("quota exceeded" +:+ newline)))
            context_Background sample_topicURL EmptyString [])
     = Err (errors_New "quota exceeded").
Proof.
  assert (Hst : StatusCode quota_response <> StatusOK) by discriminate.
  split; [exact Hst|].
  destruct (rejected_stream_request every_url_parses
              (answering 429 (strings_NewReader ("quota exceeded" +:+ newline)))
              context_Background sample_topicURL EmptyString [] sample_GET quota_response
              ("quota exceeded" +:+ newline) eq_refl eq_refl eq_refl Hst eq_refl)
    as (Hres & _ & _).
  rewrite Hres. vm_compute. reflexivity.
Defined.


Lemma stream_ignores_read_error_witness :
  read_err (Body dropped_response) = Some (foreign_error "connection reset by peer")
  /\ read_err (Body complete_response) = None
  /\ performSubscribeRequest every_url_parses (answering 200 (Body complete_response))
       context_Background sample_topicURL EmptyString []
     = performSubscribeRequest every_url_parses (answering 200 (Body dropped_response))
         context_Background sample_topicURL EmptyString [].
Proof.
  do 2 (split; [reflexivity|]).
  apply (stream_ignores_read_error every_url_parses
           (answering 200 (Body complete_response)) (answering 200 (Body dropped_response))
           context_Background sample_topicURL EmptyString [] sample_GET complete_response
           (Some (foreign_error "connection reset by peer"))); reflexivity.
Defined.

(** Blank lines, and only they, end in [io.EOF]. *)
Example toMessage_blank_lines :
  toMessage EmptyString sample_topicURL EmptyString = Err io_EOF
  /\ toMessage (String " " (String CR EmptyString)) sample_topicURL EmptyString = Err io_EOF
  /\ toMessage "{" sample_topicURL EmptyString = Err io_ErrUnexpectedEOF.
Proof. repeat split; reflexivity. Qed.

Lemma toMessage_error_kinds_witness :
  toMessage line_broken sample_topicURL EmptyString = Err io_ErrUnexpectedEOF
  /\ decode_error io_ErrUnexpectedEOF
  /\ Error io_ErrUnexpectedEOF = None.
Proof.
  split; [reflexivity|].
  destruct (toMessage_error_kinds line_broken sample_topicURL EmptyString
              io_ErrUnexpectedEOF eq_refl) as (Hkind & Htext & _).
  split; [exact Hkind|exact Htext].
Defined.

Lemma loop_attempts_stamped_witness :
  exists a,
    fst (handleSubscribeConnLoop every_url_parses sample_turns 0
           (context_WithCancel 0) sample_topicURL "aaaaaaaaaa" []) !! 0%nat = Some a
    /\ length (sent_messages (performed a)) = 1%nat
    /\ (forall m, m ∈ sent_messages (performed a) ->
          stamped sample_topicURL "aaaaaaaaaa" m)
    /\ (length (requests_sent (performed a)) <= 1)%nat.
Proof.
  eexists. split; [vm_compute; reflexivity|]. split; [vm_compute; reflexivity|].
  destruct (loop_attempts_stamped every_url_parses sample_turns 0
              (context_WithCancel 0) sample_topicURL "aaaaaaaaaa" [] 0%nat _ eq_refl)
    as (_ & Hst & Hone).
  split; [exact Hst|exact Hone].
Defined.

Lemma null_line_crashes_loop_witness :
  fst (bufio_Scan (Body null_response)) = [line_message] ++ "null" :: [line_second]
  /\ json_readValue "null" = inr JNull
  /\ snd (handleSubscribeConnLoop every_url_parses (null_turn :: sample_turns) 0
            (context_WithCancel 0) sample_topicURL "aaaaaaaaaa" [])
     = Crashed nil_dereference
  /\ length (fst (handleSubscribeConnLoop every_url_parses (null_turn :: sample_turns) 0
                    (context_WithCancel 0) sample_topicURL "aaaaaaaaaa" []))
     = 1%nat.
Proof.
  do 2 (split; [reflexivity|]).
  assert (Hpre : all_decode sample_topicURL "aaaaaaaaaa" [line_message]).
  { constructor; [|constructor]. eexists. vm_compute. reflexivity. }
  destruct (null_line_crashes_loop every_url_parses null_turn sample_turns 0
              (context_WithCancel 0) sample_topicURL "aaaaaaaaaa" []
              (mkRequest "GET" (sample_topicURL +:+ "/json") ∅ None (context_WithCancel 0))
              null_response [line_message] [line_second] "null"
              eq_refl eq_refl eq_refl eq_refl eq_refl Hpre eq_refl)
    as (Hcrash & a & Hone & _).
  split; [exact Hcrash|]. by rewrite Hone.
Defined.

Lemma subscription_messages_attributed_witness :
  subscriptions two_subscriptions !! "bbbbbbbbbb"
  = Some (mkSubscription "bbbbbbbbbb" "https://ntfy.sh/news" 1)
  /\ exists g, goroutines two_contexts !! 1%nat = Some g
       /\ forall a m,
            a ∈ fst (goroutine_run every_url_parses g sample_turns 0) ->
            m ∈ sent_messages (performed a) ->
            stamped "https://ntfy.sh/news" "bbbbbbbbbb" m.
Proof.
  split; [reflexivity|].
  destruct (subscription_messages_attributed every_url_parses two_subscriptions two_contexts
              "bbbbbbbbbb" (mkSubscription "bbbbbbbbbb" "https://ntfy.sh/news" 1)
              two_subscriptions_reachable eq_refl) as (g & Hg & Hsent).
  exists g. split; [exact Hg|]. intros a m. apply Hsent.
Defined.

(** The validators on a topic, a topic pattern and a token. *)
Example validators_examples :
  AllowedTopic "sensors_1" = true
  /\ AllowedTopic "sensors_*" = false
  /\ AllowedTopicPattern "sensors_*" = true
  /\ AllowedUsername "phil@example.com" = true
  /\ AllowedTopic "phil@example.com" = false
  /\ ValidToken "tk_abcdefghijklmnopqrstuvwxyz012" = true
  /\ ValidToken "tk_abcdefghijklmnopqrstuvwxyz01" = false
  /\ AllowedTopic EmptyString = false.
Proof. repeat split; vm_compute; reflexivity. Qed.

(** After a change to the JSON format and back, the dates stay off. *)
Example dates_stay_disabled :
  format (log_after (Level := Z) 0 false true [call_SetFormat true; call_SetFormat false])
  = false
  /\ std_flags (log_after (Level := Z) 0 false true
                  [call_SetFormat true; call_SetFormat false]) = 0
  /\ std_flags (log_after (Level := Z) 0 false true [call_SetFormat false]) = LstdFlags.
Proof. repeat split. Qed.

(** A file given to [SetOutput] is the log file, standard error too. *)
Example SetOutput_names_the_file :
  IsFile (log_after (Level := Z) 0 false true []) = false
  /\ File (log_after (Level := Z) 0 false true [call_SetOutput (os_File "/var/log/ntfy.log")])
     = "/var/log/ntfy.log"
  /\ IsFile (log_after (Level := Z) 0 false true [call_SetOutput os_Stderr]) = true.
Proof. repeat split. Qed.

Lemma nested_peekLogWriter_witness :
  output sample_json_log = Nat.iter 2 peekLogWriter os_Stderr
  /\ passes false sample_json_log "hello" = false
  /\ writer_Write false sample_Render sample_json_log (output sample_json_log)
       (String "h" (String "i" newline))
     = Some (os_Stderr, sample_Render "hi" +:+ newline)
  /\ writer_Write false sample_Render sample_json_log (output sample_json_log)
       (sample_Render "hi" +:+ newline)
     = Some (os_Stderr, sample_Render "hi" +:+ newline).
Proof.
  do 2 (split; [reflexivity|]).
  assert (Hbase : forall w', os_Stderr <> peekLogWriter w') by discriminate.
  change (output sample_json_log) with (Nat.iter 2 peekLogWriter os_Stderr).
  split.
  - destruct (nested_peekLogWriter false sample_Render sample_json_log 1 os_Stderr
                (String "h" (String "i" newline)) Hbase) as [_ Hrender].
    rewrite (Hrender eq_refl). vm_compute. reflexivity.
  - destruct (nested_peekLogWriter false sample_Render sample_json_log 2 os_Stderr
                (sample_Render "hi" +:+ newline) Hbase) as [Hpass _].
    exact (Hpass eq_refl).
Defined.
